(** * BMP CTF Repair Tool: a shallow embedding of [bmp_ctf_tool.py]

    The development follows the source file top to bottom:
    - the [struct] helpers [u16], [u32], [p32] and the stride [row];
    - [header], the parser of the six header fields;
    - [fix], the repair engine (named [fix_bmp] here, [fix] being reserved);
    - [brute_variants], the variant generator, and [main].

    Python integers are unbounded, so header values are [Z]; [//] and [%]
    are floor division and its remainder, which is what [Z.div] and
    [Z.modulo] compute for the (non-zero) divisors met here.  A buffer is a
    [list byte].  Exceptions are values of [exn]; the file system and the
    console are the state of a small state-and-error monad [M]. *)

From Stdlib Require Import ZArith Bool String Ascii Strings.Byte Lia.
From Stdlib Require Import List.
From Stdlib Require Import DecimalString.
Import ListNotations.
Local Open Scope Z_scope.

(** ** Exceptions and results *)

(** The three ways [struct.unpack_from] / [struct.pack_into] fail. *)
Inductive struct_fault : Type :=
| UnpackShort   (* unpack_from requires a buffer of at least n bytes *)
| PackShort     (* pack_into requires a buffer of at least n bytes *)
| PackRange.    (* argument out of range *)

Inductive exn : Type :=
| ValueError (msg : string)
| StructError (f : struct_fault)
| ZeroDivisionError
| FileNotFoundError.

Definition result (A : Type) : Type := (exn + A)%type.

Definition rbind {A B} (r : result A) (k : A -> result B) : result B :=
  match r with
  | inl e => inl e
  | inr a => k a
  end.

Declare Scope res_scope.
Delimit Scope res_scope with res.
Notation "x <- r ;; k" := (rbind r (fun x => k))
  (at level 61, r at next level, right associativity) : res_scope.

(** ** Bytes and little-endian integers *)

Definition bytes : Type := list byte.

Definition Z_of_byte (b : byte) : Z := Z.of_N (Byte.to_N b).

Definition byte_of_Z (z : Z) : byte :=
  match Byte.of_N (Z.to_N z) with
  | Some b => b
  | None => x00
  end.

Fixpoint le_decode (bs : bytes) : Z :=
  match bs with
  | [] => 0
  | b :: bs' => Z_of_byte b + 256 * le_decode bs'
  end.

Fixpoint le_encode (n : nat) (v : Z) : bytes :=
  match n with
  | O => []
  | S n' => byte_of_Z (v mod 256) :: le_encode n' (v / 256)
  end.

(** [struct.unpack_from(fmt, b, o)] for an unsigned little-endian field of
    [n] bytes. *)
Definition unpack_from (n : nat) (b : bytes) (o : nat) : result Z :=
  if (o + n <=? length b)%nat
  then inr (le_decode (firstn n (skipn o b)))
  else inl (StructError UnpackShort).

(** [struct.pack_into(fmt, b, o, v)]: the buffer bound is checked first,
    then the range of the value; the buffer is updated in place. *)
Definition pack_into (n : nat) (b : bytes) (o : nat) (v : Z) : result bytes :=
  if negb (o + n <=? length b)%nat then inl (StructError PackShort)
  else if negb ((0 <=? v) && (v <? 256 ^ Z.of_nat n)) then inl (StructError PackRange)
  else inr (firstn o b ++ le_encode n v ++ skipn (o + n) b).

(** u16 = lambda b, o: struct.unpack_from('<H', b, o)[0] *)
Definition u16 (b : bytes) (o : nat) : result Z := unpack_from 2 b o.
(** u32 = lambda b, o: struct.unpack_from('<I', b, o)[0] *)
Definition u32 (b : bytes) (o : nat) : result Z := unpack_from 4 b o.
(** p32 = lambda b, o, v: struct.pack_into('<I', b, o, v) *)
Definition p32 (b : bytes) (o : nat) (v : Z) : result bytes := pack_into 4 b o v.
(** row = lambda w, bpp: ((w * (bpp // 8) + 3) // 4) * 4 *)
Definition row (w bpp : Z) : Z := ((w * (bpp / 8) + 3) / 4) * 4.

(** ** The header *)

Record BmpHeader : Type := mkHeader {
  file_size : Z;
  offset : Z;
  dib_size : Z;
  width : Z;
  height : Z;
  bpp : Z
}.

Definition set_file_size (v : Z) (h : BmpHeader) : BmpHeader :=
  mkHeader v (offset h) (dib_size h) (width h) (height h) (bpp h).
Definition set_offset (v : Z) (h : BmpHeader) : BmpHeader :=
  mkHeader (file_size h) v (dib_size h) (width h) (height h) (bpp h).
Definition set_dib_size (v : Z) (h : BmpHeader) : BmpHeader :=
  mkHeader (file_size h) (offset h) v (width h) (height h) (bpp h).
Definition set_width (v : Z) (h : BmpHeader) : BmpHeader :=
  mkHeader (file_size h) (offset h) (dib_size h) v (height h) (bpp h).
Definition set_height (v : Z) (h : BmpHeader) : BmpHeader :=
  mkHeader (file_size h) (offset h) (dib_size h) (width h) v (bpp h).

(** def header(buf): the dict literal evaluates its six reads in order. *)
Definition header (buf : bytes) : result BmpHeader :=
  (fs <- u32 buf 2 ;;
   off <- u32 buf 10 ;;
   ds <- u32 buf 14 ;;
   w <- u32 buf 18 ;;
   h <- u32 buf 22 ;;
   b <- u16 buf 28 ;;
   inr (mkHeader fs off ds w h b))%res.

(** ** The outside world: files and the console *)

(** The file system is an association list, newest entry first; the
    console is the list of the texts printed, oldest first. *)
Record world : Type := mkWorld {
  files : list (string * bytes);
  dirs : list string;
  console : list string
}.

Definition M (A : Type) : Type := world -> result A * world.

Definition ret {A} (a : A) : M A := fun w => (inr a, w).
Definition raise {A} (e : exn) : M A := fun w => (inl e, w).
Definition lift {A} (r : result A) : M A := fun w => (r, w).
Definition bind {A B} (m : M A) (k : A -> M B) : M B :=
  fun w => match m w with
           | (inl e, w') => (inl e, w')
           | (inr a, w') => k a w'
           end.

Declare Scope io_scope.
Delimit Scope io_scope with io.
Notation "x <- m ;; k" := (bind m (fun x => k))
  (at level 61, m at next level, right associativity) : io_scope.
Notation "m ;; k" := (bind m (fun _ => k))
  (at level 61, right associativity) : io_scope.

Fixpoint lookup (p : string) (fs : list (string * bytes)) : option bytes :=
  match fs with
  | [] => None
  | (q, d) :: fs' => if String.eqb p q then Some d else lookup p fs'
  end.

(** Path(p).read_bytes() *)
Definition read_bytes (p : string) : M bytes :=
  fun w => match lookup p (files w) with
           | Some d => (inr d, w)
           | None => (inl FileNotFoundError, w)
           end.

(** Path(p).write_bytes(d) *)
Definition write_bytes (p : string) (d : bytes) : M unit :=
  fun w => (inr tt, mkWorld ((p, d) :: files w) (dirs w) (console w)).

(** Path(p).mkdir(exist_ok=True); the directory is recorded, and no
    file named [p] is assumed to stand in its way. *)
Definition mkdir (p : string) : M unit :=
  fun w => (inr tt, mkWorld (files w) (p :: dirs w) (console w)).

(** print(s) *)
Definition print (s : string) : M unit :=
  fun w => (inr tt, mkWorld (files w) (dirs w) (console w ++ [s])).

Definition nl : string := String (ascii_of_nat 10) EmptyString.

(** str(v) for an integer. *)
Definition dec (v : Z) : string := NilZero.string_of_int (Z.to_int v).

(** def print_header(h, title): the keys are padded to nine columns. *)
Definition print_header (h : BmpHeader) (title : string) : M unit :=
  (print (nl ++ title) ;;
   print ("  file_size: " ++ dec (file_size h)) ;;
   print ("  offset   : " ++ dec (offset h)) ;;
   print ("  dib_size : " ++ dec (dib_size h)) ;;
   print ("  width    : " ++ dec (width h)) ;;
   print ("  height   : " ++ dec (height h)) ;;
   print ("  bpp      : " ++ dec (bpp h)))%io.

(** ** Slices and comparison of byte strings *)

(** [b[:e]] with Python's treatment of a negative or too large end. *)
Definition slice_to (b : bytes) (e : Z) : bytes :=
  let n := Z.of_nat (length b) in
  let e' := if e <? 0 then Z.max 0 (e + n) else Z.min e n in
  firstn (Z.to_nat e') b.

Fixpoint bytes_eqb (a b : bytes) : bool :=
  match a, b with
  | [], [] => true
  | x :: a', y :: b' => Byte.eqb x y && bytes_eqb a' b'
  | _, _ => false
  end.

(** b'BM' *)
Definition BM : bytes := [x42; x4d].

(** ** The repair engine *)

(** The local variables of [fix] that the corrections update. *)
Record state : Type := mkState {
  buf : bytes;
  hdr : BmpHeader;
  changed : bool
}.

(** bytes_px = lambda: len(buf) - hdr["offset"] *)
Definition bytes_px (s : state) : Z := Z.of_nat (length (buf s)) - offset (hdr s).

(** if hdr["bpp"] > 8 and hdr["offset"] != 54: p32(buf, 10, 54); ... *)
Definition fix_offset (s : state) : result state :=
  if (8 <? bpp (hdr s)) && negb (offset (hdr s) =? 54)
  then (b <- p32 (buf s) 10 54 ;; inr (mkState b (set_offset 54 (hdr s)) true))%res
  else inr s.

(** if hdr["dib_size"] != 40: p32(buf, 14, 40); ... *)
Definition fix_dib_size (s : state) : result state :=
  if negb (dib_size (hdr s) =? 40)
  then (b <- p32 (buf s) 14 40 ;; inr (mkState b (set_dib_size 40 (hdr s)) true))%res
  else inr s.

(** if hdr["file_size"] != len(buf): p32(buf, 2, len(buf)); ... *)
Definition fix_file_size (s : state) : result state :=
  if negb (file_size (hdr s) =? Z.of_nat (length (buf s)))
  then (b <- p32 (buf s) 2 (Z.of_nat (length (buf s))) ;;
        inr (mkState b (set_file_size (Z.of_nat (length b)) (hdr s)) true))%res
  else inr s.

(** Width inference, lines 63-68. *)
Definition fix_width (bpp_bytes : Z) (s : state) : result state :=
  if negb (height (hdr s) =? 0) && (bytes_px s mod height (hdr s) =? 0) then
    let row_bytes := bytes_px s / height (hdr s) in
    if row_bytes mod 4 =? 0 then
      let w := row_bytes / bpp_bytes in
      if negb (w =? 0) && negb (w =? width (hdr s))
      then (b <- p32 (buf s) 18 w ;; inr (mkState b (set_width w (hdr s)) true))%res
      else inr s
    else inr s
  else inr s.

(** Height inference, lines 70-74. *)
Definition fix_height (s : state) : result state :=
  let rsize := row (width (hdr s)) (bpp (hdr s)) in
  if negb (rsize =? 0) && (bytes_px s mod rsize =? 0) then
    let h := bytes_px s / rsize in
    if negb (h =? 0) && negb (h =? height (hdr s))
    then (b <- p32 (buf s) 22 h ;; inr (mkState b (set_height h (hdr s)) true))%res
    else inr s
  else inr s.

(** Lines 43-74 of [fix]: the signature check, the parse and the five
    corrections, run on the bytes just read.  They touch neither the file
    system nor the console; [original] is the header as parsed. *)
Definition corrections (data : bytes) : result (BmpHeader * state) :=
  let buf0 := data in
  if negb (bytes_eqb (slice_to buf0 2) BM) then inl (ValueError "Not a BMP file") else
  (hdr0 <- header buf0 ;;
   let original := hdr0 in
   s <- fix_offset (mkState buf0 hdr0 false) ;;
   s <- fix_dib_size s ;;
   s <- fix_file_size s ;;
   let bpp_bytes := bpp (hdr s) / 8 in
   if bpp_bytes =? 0 then inl (ValueError "Invalid bits-per-pixel value") else
   s <- fix_width bpp_bytes s ;;
   s <- fix_height s ;;
   inr (original, s))%res.

(** expected = hdr["offset"] + row(hdr["width"], hdr["bpp"]) * abs(hdr["height"]) *)
Definition expected (h : BmpHeader) : Z :=
  offset h + row (width h) (bpp h) * Z.abs (height h).

Definition truncation_warning : string :=
  "Warning: file appears truncated (missing pixel data)".

(** Truncation, lines 76-83. *)
Definition truncate (s : state) : M state :=
  if Z.of_nat (length (buf s)) >? expected (hdr s) then
    (b <- lift (p32 (slice_to (buf s) (expected (hdr s))) 2
                  (Z.of_nat (length (slice_to (buf s) (expected (hdr s)))))) ;;
     ret (mkState b (set_file_size (Z.of_nat (length b)) (hdr s)) true))%io
  else if Z.of_nat (length (buf s)) <? expected (hdr s) then
    (print truncation_warning ;; ret s)%io
  else ret s.

Section Tool.

(** [Path(p).stem] of pathlib, which is not part of the repository. *)
Variable stem_of : string -> string.

(** def fix(path) *)
Definition fix_bmp (path : string) : M (string * BmpHeader * Z) :=
  (data <- read_bytes path ;;
   r <- lift (corrections data) ;;
   let '(original, s) := r in
   s <- truncate s ;;
   let out_path := (stem_of path ++ "_fix.bmp")%string in
   write_bytes out_path (buf s) ;;
   print_header original "Original header" ;;
   print_header (hdr s) "Fixed header" ;;
   print (nl ++ "Repaired file: " ++ out_path ++ nl) ;;
   ret (out_path, hdr s, bytes_px s))%io.

(** The block [# Height variant] of [brute_variants], lines 105-115; it
    returns the list [variants] as it leaves the block. *)
Definition height_variant (fix_path : string) (hdr : BmpHeader) (px_bytes : Z)
           (variants : list string) : M (list string) :=
  (let var_dir := "variants"%string in
   let row_bytes := row (width hdr) (bpp hdr) in
   if negb (row_bytes =? 0) && (px_bytes mod row_bytes =? 0) then
     let h := px_bytes / row_bytes in
     if negb (h =? height hdr) then
       nb <- read_bytes fix_path ;;
       nb <- lift (p32 nb 22 h) ;;
       nb <- lift (p32 nb 2 (Z.of_nat (length nb))) ;;
       let out := (var_dir ++ "/" ++ stem_of fix_path ++ "_h" ++ dec h ++ ".bmp")%string in
       write_bytes out nb ;;
       ret (variants ++ [out])
     else ret variants
   else ret variants)%io.

(** The block [# Width variant], lines 117-128. *)
Definition width_variant (fix_path : string) (hdr : BmpHeader) (px_bytes : Z)
           (bpp_bytes : Z) (variants : list string) : M (list string) :=
  (let var_dir := "variants"%string in
   if negb (height hdr =? 0) && (px_bytes mod height hdr =? 0) then
     let r := px_bytes / height hdr in
     if r mod 4 =? 0 then
       w <- (if bpp_bytes =? 0 then raise ZeroDivisionError else ret (r / bpp_bytes)) ;;
       if negb (w =? width hdr) then
         nb <- read_bytes fix_path ;;
         nb <- lift (p32 nb 18 w) ;;
         nb <- lift (p32 nb 2 (Z.of_nat (length nb))) ;;
         let out := (var_dir ++ "/" ++ stem_of fix_path ++ "_w" ++ dec w ++ ".bmp")%string in
         write_bytes out nb ;;
         ret (variants ++ [out])
       else ret variants
     else ret variants
   else ret variants)%io.

(** The report that ends [brute_variants], lines 130-135. *)
Definition print_variants (variants : list string) : M unit :=
  (match variants with
   | [] => print "No variants generated"
   | _ => print "Variants saved:" ;;
          fold_right (fun v k => print ("  " ++ v) ;; k) (ret tt) variants
   end)%io.

(** def brute_variants(fix_path, hdr, px_bytes) *)
Definition brute_variants (fix_path : string) (hdr : BmpHeader) (px_bytes : Z) : M unit :=
  (let variants := [] in
   mkdir "variants" ;;
   let bpp_bytes := bpp hdr / 8 in
   variants <- height_variant fix_path hdr px_bytes variants ;;
   variants <- width_variant fix_path hdr px_bytes bpp_bytes variants ;;
   print_variants variants)%io.

(** def main(), after argparse has produced [args]. *)
Definition main (bmp : string) (brute info : bool) : M unit :=
  (data <- read_bytes bmp ;;
   h <- lift (header data) ;;
   print_header h "BMP header" ;;
   if info then ret tt else
   r <- fix_bmp bmp ;;
   let '(fixed_path, hdr_fixed, px) := r in
   if brute then brute_variants fixed_path hdr_fixed px else ret tt)%io.

End Tool.

(** * Vocabulary of the statements *)

(** The ceiling of a quotient by a positive number. *)
Definition cdiv (a b : Z) : Z := - ((- a) / b).

(** The five fields that [fix] and [brute_variants] write. *)
Inductive field : Type := FileSize | Offset | DibSize | Width | Height.

Definition field_off (f : field) : nat :=
  match f with
  | FileSize => 2 | Offset => 10 | DibSize => 14 | Width => 18 | Height => 22
  end%nat.

Definition get_field (f : field) (h : BmpHeader) : Z :=
  match f with
  | FileSize => file_size h | Offset => offset h | DibSize => dib_size h
  | Width => width h | Height => height h
  end.

Definition set_field (f : field) (v : Z) (h : BmpHeader) : BmpHeader :=
  match f with
  | FileSize => set_file_size v h | Offset => set_offset v h
  | DibSize => set_dib_size v h | Width => set_width v h
  | Height => set_height v h
  end.

(** The bytes of the six header fields: four bytes at each of the offsets
    2, 10, 14, 18 and 22, two bytes at offset 28. *)
Definition in_field (i : nat) : bool :=
  ((2 <=? i) && (i <? 6) || (10 <=? i) && (i <? 26) || (28 <=? i) && (i <? 30))%nat.

(** The bytes that [fix] can write: the five four-byte fields. *)
Definition in_written (i : nat) : bool :=
  ((2 <=? i) && (i <? 6) || (10 <=? i) && (i <? 26))%nat.

(** Every field holds a value of its width. *)
Definition hdr_wf (h : BmpHeader) : Prop :=
  0 <= file_size h < 2 ^ 32 /\ 0 <= offset h < 2 ^ 32 /\
  0 <= dib_size h < 2 ^ 32 /\ 0 <= width h < 2 ^ 32 /\
  0 <= height h < 2 ^ 32 /\ 0 <= bpp h < 2 ^ 16.

(** One correction: either nothing happens, or field [f] is written with
    a value [v] and recorded in the header. *)
Inductive updates (f : field) (s s' : state) : Prop :=
| upd_none : s' = s -> updates f s s'
| upd_write (v : Z) (b' : bytes) :
    p32 (buf s) (field_off f) v = inr b' ->
    s' = mkState b' (set_field f v (hdr s)) true ->
    updates f s s'.

(** What a run printed: the console of [w'] past that of [w]. *)
Definition printed (w w' : world) : list string :=
  skipn (length (console w)) (console w').

(** The lines of [print_header]. *)
Definition header_lines (h : BmpHeader) (title : string) : list string :=
  [ nl ++ title;
    "  file_size: " ++ dec (file_size h);
    "  offset   : " ++ dec (offset h);
    "  dib_size : " ++ dec (dib_size h);
    "  width    : " ++ dec (width h);
    "  height   : " ++ dec (height h);
    "  bpp      : " ++ dec (bpp h) ]%string.

(** The end of [fix]: the repaired file is written and the two headers
    are reported. *)
Definition finish (out_path : string) (original : BmpHeader) (s : state) (w : world) : world :=
  mkWorld ((out_path, buf s) :: files w) (dirs w)
    (console w ++ header_lines original "Original header"
               ++ header_lines (hdr s) "Fixed header"
               ++ [nl ++ "Repaired file: " ++ out_path ++ nl]%string).

(** The errors of the parse: the signature test of [fix] and the short
    read of [header]. *)
Definition format_error (e : exn) : Prop :=
  e = ValueError "Not a BMP file" \/ e = StructError UnpackShort.

Definition invalid_bpp : exn := ValueError "Invalid bits-per-pixel value".

(** The errors of [pack_into]. *)
Definition pack_error (e : exn) : Prop :=
  e = StructError PackShort \/ e = StructError PackRange.

(** The exceptions that [brute_variants] can raise. *)
Definition variant_error (e : exn) : Prop :=
  e = ZeroDivisionError \/ e = FileNotFoundError \/ pack_error e.

(** The four invariants of the data model, for a buffer [data] whose
    header is [h]. *)
Definition consistent (data : bytes) (h : BmpHeader) : Prop :=
  (8 < bpp h -> offset h = 54) /\
  dib_size h = 40 /\
  file_size h = Z.of_nat (length data) /\
  row (width h) (bpp h) * Z.abs (height h) = Z.of_nat (length data) - offset h.

(** The state that leaves the five corrections. *)
Record corrected (data : bytes) (h0 : BmpHeader) (s : state) : Prop := {
  cor_sig : bytes_eqb (slice_to data 2) BM = true;
  cor_parse : header data = inr h0;
  cor_length : length (buf s) = length data;
  cor_frame : forall i, in_written i = false -> nth_error (buf s) i = nth_error data i;
  cor_offset_bytes :
    offset (hdr s) = offset h0 ->
    forall i, (10 <= i < 14)%nat -> nth_error (buf s) i = nth_error data i;
  cor_bpp : bpp (hdr s) = bpp h0;
  cor_bpp_bytes : bpp (hdr s) / 8 <> 0;
  cor_offset :
    offset (hdr s) =
      if (8 <? bpp h0) && negb (offset h0 =? 54) then 54 else offset h0;
  cor_dib_size : dib_size (hdr s) = 40;
  cor_file_size : file_size (hdr s) = Z.of_nat (length data);
  cor_small : Z.of_nat (length data) < 2 ^ 32;
  cor_wf : hdr_wf (hdr s);
  cor_sync : header (buf s) = inr (hdr s)
}.

(** The state [s] that leaves the corrections, against the buffer [out]
    written and the header [h] returned; [warn] tells whether the
    truncation warning was printed. *)
Record repaired (s : state) (out : bytes) (h : BmpHeader) (warn : bool) : Prop := {
  rep_length : (length out <= length (buf s))%nat;
  rep_frame : forall i, (i < length out)%nat -> (i < 2 \/ 6 <= i)%nat ->
                        nth_error out i = nth_error (buf s) i;
  rep_fields : forall f, f <> FileSize -> get_field f h = get_field f (hdr s);
  rep_bpp : bpp h = bpp (hdr s);
  rep_file_size : file_size h = Z.of_nat (length out);
  rep_wf : hdr_wf h;
  rep_sync : (30 <= length out)%nat -> header out = inr h;
  rep_fit : if warn
            then Z.of_nat (length out) < expected h /\ out = buf s /\ h = hdr s
            else Z.of_nat (length out) = expected h
}.

(** The lines that end a run of [fix]. *)
Definition report_lines (p : string) (h0 h : BmpHeader) : list string :=
  header_lines h0 "Original header" ++ header_lines h "Fixed header"
    ++ [nl ++ "Repaired file: " ++ p ++ nl]%string.

(** ** Variants *)

(** The height the [# Height variant] block settles on, when it writes. *)
Definition height_guess (hdr : BmpHeader) (px : Z) (hv : Z) : Prop :=
  row (width hdr) (bpp hdr) <> 0 /\ px mod row (width hdr) (bpp hdr) = 0 /\
  hv = px / row (width hdr) (bpp hdr) /\ hv <> height hdr.

(** The width the [# Width variant] block settles on, when it writes. *)
Definition width_guess (hdr : BmpHeader) (px : Z) (wv : Z) : Prop :=
  height hdr <> 0 /\ px mod height hdr = 0 /\ (px / height hdr) mod 4 = 0 /\
  bpp hdr / 8 <> 0 /\ wv = px / height hdr / (bpp hdr / 8) /\ wv <> width hdr.

(** The name of a variant file. *)
Definition variant_path (stem tag : string) (v : Z) : string :=
  ("variants" ++ "/" ++ stem ++ tag ++ dec v ++ ".bmp")%string.

(** The world with one more file. *)
Definition add_file (p : string) (d : bytes) (w : world) : world :=
  mkWorld ((p, d) :: files w) (dirs w) (console w).

(** A variant buffer: field [f] of [nb] set to [v], then the size field
    set to the length. *)
Definition variant_of (f : field) (v : Z) (nb nbv : bytes) : Prop :=
  exists nb1, p32 nb (field_off f) v = inr nb1 /\
              p32 nb1 2 (Z.of_nat (length nb1)) = inr nbv.

(** ** The corrections seen from the parsed header *)

(** The pixel offset after the offset correction. *)
Definition pixel_offset (h0 : BmpHeader) : Z :=
  if 8 <? bpp h0 then 54 else offset h0.

(** The test that lets the width inference compute a width, lines 63-65. *)
Definition width_fires (h : BmpHeader) (px : Z) : Prop :=
  height h <> 0 /\ px mod height h = 0 /\ (px / height h) mod 4 = 0.

(** The test that lets the height inference compute a height, line 71. *)
Definition height_fires (h : BmpHeader) (px : Z) : Prop :=
  row (width h) (bpp h) <> 0 /\ px mod row (width h) (bpp h) = 0.

(** ** Sample inputs *)

(** A file of thirty header bytes and [payload] zero bytes after them. *)
Definition bmp_file (fs off ds w h b : Z) (payload : nat) : bytes :=
  BM ++ le_encode 4 fs ++ le_encode 4 0 ++ le_encode 4 off ++ le_encode 4 ds
     ++ le_encode 4 w ++ le_encode 4 h ++ le_encode 2 1 ++ le_encode 2 b
     ++ repeat x00 payload.

(** A world whose only file is [img.bmp]. *)
Definition disk (d : bytes) : world := mkWorld [("img.bmp"%string, d)] [] [].

(** The stem of [img.bmp] and of [img_fix.bmp]. *)
Definition sample_stem (p : string) : string :=
  if String.eqb p "img.bmp" then "img"%string else "img_fix"%string.

(** 24 bits per pixel, two by two pixels, rows of eight bytes: a correct
    file whose row has no room for a third pixel. *)
Definition sample_tight : bytes := bmp_file 70 54 40 2 2 24 40.

(** 24 bits per pixel, three by one pixels, a row of twelve bytes: a
    correct file whose row has room for a fourth pixel. *)
Definition sample_loose : bytes := bmp_file 66 54 40 3 1 24 36.

(** Eight bits per pixel with a one-entry palette: the pixel data start at
    offset 58. *)
Definition sample_indexed : bytes := bmp_file 66 58 40 4 2 8 36.

(** Twelve bits per pixel. *)
Definition sample_bpp12 : bytes := bmp_file 58 54 40 4 1 12 28.

(** Four bits per pixel. *)
Definition sample_bpp4 : bytes := bmp_file 0 0 0 0 0 4 0.

(** A true-colour header of 54 bytes and no pixel data at all. *)
Definition sample_short : bytes := bmp_file 0 54 40 1 1 24 24.

(** A correct two by two image followed by fifty more bytes. *)
Definition sample_trailing : bytes := bmp_file 70 54 40 2 2 24 90.

(** Thirty bytes: eight bits per pixel, every other field zero. *)
Definition sample_tiny : bytes := bmp_file 0 0 0 0 0 8 0.

(** A repaired file of three by four pixels at eight bits per pixel,
    whose 48 bytes of pixel data also fit twelve by four and three by
    twelve. *)
Definition sample_ambiguous : bytes := bmp_file 102 54 40 3 4 8 72.

(** A true-colour file of fifty bytes, four short of its pixel offset. *)
Definition sample_cut : bytes := bmp_file 0 54 40 1 1 24 20.

(** The two by two image with a height field of five. *)
Definition sample_wrong_height : bytes := bmp_file 70 54 40 2 5 24 40.

(** The two by two image with a width field of seven. *)
Definition sample_wrong_width : bytes := bmp_file 70 54 40 7 2 24 40.

(** * Properties of the byte layer *)

Lemma Z_of_byte_range (b : byte) : 0 <= Z_of_byte b < 256.
Proof.
  unfold Z_of_byte. pose proof (Byte.to_N_bounded b). lia.
Qed.

Lemma Z_of_byte_of_Z (z : Z) : 0 <= z < 256 -> Z_of_byte (byte_of_Z z) = z.
Proof.
  intros Hz. unfold byte_of_Z, Z_of_byte.
  destruct (Byte.of_N (Z.to_N z)) as [b|] eqn:E.
  - apply Byte.to_of_N in E. rewrite E. lia.
  - apply Byte.of_N_None_iff in E. lia.
Qed.

Lemma le_encode_length (n : nat) (v : Z) : length (le_encode n v) = n.
Proof.
  revert v. induction n as [|n IH]; intros v; simpl; [reflexivity|].
  now rewrite IH.
Qed.

Lemma le_decode_range (bs : bytes) :
  0 <= le_decode bs < 256 ^ Z.of_nat (length bs).
Proof.
  induction bs as [|b bs IH].
  - simpl. lia.
  - cbn [le_decode length]. rewrite Nat2Z.inj_succ, Z.pow_succ_r by lia.
    pose proof (Z_of_byte_range b). lia.
Qed.

Lemma le_decode_encode (n : nat) (v : Z) :
  0 <= v < 256 ^ Z.of_nat n -> le_decode (le_encode n v) = v.
Proof.
  revert v. induction n as [|n IH]; intros v Hv.
  - simpl in *. lia.
  - cbn [le_encode le_decode].
    rewrite Nat2Z.inj_succ, Z.pow_succ_r in Hv by lia.
    rewrite Z_of_byte_of_Z by (apply Z.mod_pos_bound; lia).
    rewrite IH.
    + pose proof (Z.div_mod v 256). lia.
    + split; [apply Z.div_pos; lia | apply Z.div_lt_upper_bound; lia].
Qed.

Lemma unpack_from_range (n : nat) (b : bytes) (o : nat) (v : Z) :
  unpack_from n b o = inr v -> 0 <= v < 256 ^ Z.of_nat n.
Proof.
  unfold unpack_from. destruct (o + n <=? length b)%nat eqn:E; [|discriminate].
  intros [= <-]. apply Nat.leb_le in E.
  pose proof (le_decode_range (firstn n (skipn o b))) as H.
  rewrite length_firstn, length_skipn in H.
  replace (Nat.min n (length b - o)) with n in H by lia. exact H.
Qed.

Lemma unpack_from_ok (n : nat) (b : bytes) (o : nat) :
  (o + n <= length b)%nat ->
  unpack_from n b o = inr (le_decode (firstn n (skipn o b))).
Proof.
  intros H. unfold unpack_from. apply Nat.leb_le in H. now rewrite H.
Qed.

Lemma unpack_from_short (n : nat) (b : bytes) (o : nat) :
  (length b < o + n)%nat -> unpack_from n b o = inl (StructError UnpackShort).
Proof.
  intros H. unfold unpack_from. apply Nat.leb_gt in H. now rewrite H.
Qed.

(** What a successful [pack_into] requires and produces. *)
Lemma pack_into_inv (n : nat) (b : bytes) (o : nat) (v : Z) (b' : bytes) :
  pack_into n b o v = inr b' ->
  (o + n <= length b)%nat /\ 0 <= v < 256 ^ Z.of_nat n /\
  b' = firstn o b ++ le_encode n v ++ skipn (o + n) b.
Proof.
  unfold pack_into.
  destruct (o + n <=? length b)%nat eqn:E1; cbn [negb]; [|discriminate].
  destruct ((0 <=? v) && (v <? 256 ^ Z.of_nat n)) eqn:E2; cbn [negb]; [|discriminate].
  intros [= <-]. apply Nat.leb_le in E1. apply andb_true_iff in E2.
  destruct E2 as [E2 E3]. apply Z.leb_le in E2. apply Z.ltb_lt in E3. auto.
Qed.

Lemma pack_into_ok (n : nat) (b : bytes) (o : nat) (v : Z) :
  (o + n <= length b)%nat -> 0 <= v < 256 ^ Z.of_nat n ->
  pack_into n b o v = inr (firstn o b ++ le_encode n v ++ skipn (o + n) b).
Proof.
  intros H1 [H2 H3]. unfold pack_into.
  apply Nat.leb_le in H1. apply Z.leb_le in H2. apply Z.ltb_lt in H3.
  now rewrite H1, H2, H3.
Qed.

Lemma pack_into_length (n : nat) (b : bytes) (o : nat) (v : Z) (b' : bytes) :
  pack_into n b o v = inr b' -> length b' = length b.
Proof.
  intros H. apply pack_into_inv in H. destruct H as (H1 & _ & ->).
  rewrite !length_app, length_firstn, le_encode_length, length_skipn. lia.
Qed.

Lemma pack_into_nth (n : nat) (b : bytes) (o : nat) (v : Z) (b' : bytes) (i : nat) :
  pack_into n b o v = inr b' ->
  nth_error b' i =
    if (o <=? i)%nat && (i <? o + n)%nat
    then nth_error (le_encode n v) (i - o)
    else nth_error b i.
Proof.
  intros H. apply pack_into_inv in H. destruct H as (H1 & _ & ->).
  assert (Hf : length (firstn o b) = o) by (rewrite length_firstn; lia).
  destruct (o <=? i)%nat eqn:E1; cbn [andb].
  - apply Nat.leb_le in E1.
    rewrite nth_error_app2 by lia. rewrite Hf.
    destruct (i <? o + n)%nat eqn:E2.
    + apply Nat.ltb_lt in E2.
      rewrite nth_error_app1 by (rewrite le_encode_length; lia). reflexivity.
    + apply Nat.ltb_ge in E2.
      rewrite nth_error_app2 by (rewrite le_encode_length; lia).
      rewrite le_encode_length, nth_error_skipn. f_equal. lia.
  - apply Nat.leb_gt in E1.
    rewrite nth_error_app1 by lia.
    rewrite nth_error_firstn.
    apply Nat.ltb_lt in E1. now rewrite E1.
Qed.

Lemma pack_into_nth_other (n : nat) (b : bytes) (o : nat) (v : Z) (b' : bytes) (i : nat) :
  pack_into n b o v = inr b' -> (i < o \/ o + n <= i)%nat ->
  nth_error b' i = nth_error b i.
Proof.
  intros H Hi. rewrite (pack_into_nth _ _ _ _ _ i H).
  destruct (o <=? i)%nat eqn:E1; cbn [andb]; [|reflexivity].
  destruct (i <? o + n)%nat eqn:E2; [|reflexivity].
  apply Nat.leb_le in E1. apply Nat.ltb_lt in E2. lia.
Qed.

Lemma nth_error_field (b : bytes) (o n i : nat) :
  nth_error (firstn n (skipn o b)) i =
    if (i <? n)%nat then nth_error b (o + i) else None.
Proof.
  rewrite nth_error_firstn, nth_error_skipn. reflexivity.
Qed.

(** Reading back the field just written. *)
Lemma unpack_pack_same (n : nat) (b : bytes) (o : nat) (v : Z) (b' : bytes) :
  pack_into n b o v = inr b' -> unpack_from n b' o = inr v.
Proof.
  intros H. pose proof (pack_into_length _ _ _ _ _ H) as HL.
  pose proof (pack_into_inv _ _ _ _ _ H) as (H1 & H2 & _).
  rewrite unpack_from_ok by lia. f_equal.
  rewrite <- (le_decode_encode n v H2). f_equal.
  apply nth_error_ext. intros i. rewrite nth_error_field.
  destruct (i <? n)%nat eqn:E.
  - apply Nat.ltb_lt in E. rewrite (pack_into_nth _ _ _ _ _ (o + i) H).
    replace ((o <=? o + i)%nat && (o + i <? o + n)%nat) with true.
    + f_equal. lia.
    + symmetry. apply andb_true_iff. split; [apply Nat.leb_le | apply Nat.ltb_lt]; lia.
  - apply Nat.ltb_ge in E. symmetry. apply nth_error_None.
    rewrite le_encode_length. lia.
Qed.

(** A field disjoint from the one written keeps its value. *)
Lemma unpack_pack_other (n m : nat) (b : bytes) (o o' : nat) (v : Z) (b' : bytes) :
  pack_into n b o v = inr b' -> (o' + m <= o \/ o + n <= o')%nat ->
  unpack_from m b' o' = unpack_from m b o'.
Proof.
  intros H Hd. pose proof (pack_into_length _ _ _ _ _ H) as HL.
  unfold unpack_from. rewrite HL.
  destruct (o' + m <=? length b)%nat; [|reflexivity].
  do 2 f_equal. apply nth_error_ext. intros i. rewrite !nth_error_field.
  destruct (i <? m)%nat eqn:E; [|reflexivity].
  apply Nat.ltb_lt in E. apply (pack_into_nth_other _ _ _ _ _ _ H). lia.
Qed.

(** ** The stride *)

(** [row] rounds the bytes of a row up to the next multiple of four. *)
Lemma row_mod4 (w bpp : Z) : row w bpp mod 4 = 0.
Proof. unfold row. apply Z.mod_mul. lia. Qed.

Lemma row_bounds (w bpp : Z) :
  w * (bpp / 8) <= row w bpp < w * (bpp / 8) + 4.
Proof.
  unfold row. pose proof (Z.div_mod (w * (bpp / 8) + 3) 4).
  pose proof (Z.mod_pos_bound (w * (bpp / 8) + 3) 4). lia.
Qed.

Lemma cdiv_spec (a b : Z) : 0 < b -> b * (cdiv a b - 1) < a <= b * cdiv a b.
Proof.
  intros Hb. unfold cdiv. pose proof (Z.div_mod (- a) b).
  pose proof (Z.mod_pos_bound (- a) b). lia.
Qed.

(** [row w bpp = ceil(w * (bpp // 8) / 4) * 4]. *)
Lemma row_ceil (w bpp : Z) : row w bpp = cdiv (w * (bpp / 8)) 4 * 4.
Proof.
  pose proof (row_bounds w bpp) as Hb. pose proof (cdiv_spec (w * (bpp / 8)) 4).
  unfold row in *.
  set (q := (w * (bpp / 8) + 3) / 4) in *. lia.
Qed.

(** When the depth is a whole number of bytes, [w * (bpp // 8)] is the
    exact quotient [w * bpp / 8]. *)
Lemma row_ceil_exact (w bpp : Z) :
  bpp mod 8 = 0 -> 8 * (w * (bpp / 8)) = w * bpp.
Proof.
  intros H. pose proof (Z.div_mod bpp 8). lia.
Qed.

Lemma cdiv_scale (a : Z) : cdiv (8 * a) 32 = cdiv a 4.
Proof.
  unfold cdiv. f_equal.
  replace (- (8 * a)) with (- a * 8) by lia.
  change 32 with (4 * 8). apply Z.div_mul_cancel_r; lia.
Qed.

(** For a depth of whole bytes [row] is the exact
    [ceil(w * bpp / 8 / 4) * 4], that is [ceil(w * bpp / 32) * 4]. *)
Lemma row_rational (w bpp : Z) :
  bpp mod 8 = 0 -> row w bpp = cdiv (w * bpp) 32 * 4.
Proof.
  intros H. rewrite <- (row_ceil_exact w bpp H), cdiv_scale. apply row_ceil.
Qed.

Lemma row_nonneg (w bpp : Z) : 0 <= w -> 0 <= bpp -> 0 <= row w bpp.
Proof.
  intros Hw Hb. pose proof (row_bounds w bpp).
  assert (0 <= bpp / 8) by (apply Z.div_pos; lia). nia.
Qed.

(** * The parser *)

Lemma header_inv (b : bytes) (h : BmpHeader) :
  header b = inr h <->
  u32 b 2 = inr (file_size h) /\ u32 b 10 = inr (offset h) /\
  u32 b 14 = inr (dib_size h) /\ u32 b 18 = inr (width h) /\
  u32 b 22 = inr (height h) /\ u16 b 28 = inr (bpp h).
Proof.
  unfold header, rbind. split.
  - destruct (u32 b 2); [discriminate|]. destruct (u32 b 10); [discriminate|].
    destruct (u32 b 14); [discriminate|]. destruct (u32 b 18); [discriminate|].
    destruct (u32 b 22); [discriminate|]. destruct (u16 b 28); [discriminate|].
    intros [= <-]. cbn. auto 7.
  - intros (-> & -> & -> & -> & -> & ->). destruct h; reflexivity.
Qed.

(** [header] succeeds exactly on buffers of thirty bytes or more. *)
Lemma header_ok_iff (b : bytes) :
  (exists h, header b = inr h) <-> (30 <= length b)%nat.
Proof.
  split.
  - intros [h H]. apply header_inv in H. destruct H as (_ & _ & _ & _ & _ & H).
    unfold u16, unpack_from in H.
    destruct (28 + 2 <=? length b)%nat eqn:E; [|discriminate].
    apply Nat.leb_le in E. lia.
  - intros H. unfold header, u32, u16.
    rewrite !unpack_from_ok by lia. cbn [rbind]. eauto.
Qed.

Lemma header_short (b : bytes) :
  (length b < 30)%nat -> header b = inl (StructError UnpackShort).
Proof.
  intros H. destruct (header b) as [e|h] eqn:E.
  - revert E. unfold header, u32, u16, rbind, unpack_from.
    repeat match goal with
           | |- context [(?a <=? ?c)%nat] => destruct (a <=? c)%nat
           end; congruence.
  - assert (30 <= length b)%nat by (apply header_ok_iff; eauto). lia.
Qed.

Lemma header_wf (b : bytes) (h : BmpHeader) : header b = inr h -> hdr_wf h.
Proof.
  intros H. apply header_inv in H.
  destruct H as (H1 & H2 & H3 & H4 & H5 & H6).
  unfold u32, u16 in *.
  apply unpack_from_range in H1, H2, H3, H4, H5, H6.
  unfold hdr_wf. change (256 ^ Z.of_nat 4) with (2 ^ 32) in *.
  change (256 ^ Z.of_nat 2) with (2 ^ 16) in *. auto 7.
Qed.

(** * One correction at a time *)

Lemma updates_length (f : field) (s s' : state) :
  updates f s s' -> length (buf s') = length (buf s).
Proof.
  intros [->|v b' Hp ->]; [reflexivity|].
  cbn. exact (pack_into_length _ _ _ _ _ Hp).
Qed.

Lemma updates_nth (f : field) (s s' : state) (i : nat) :
  updates f s s' -> (i < field_off f \/ field_off f + 4 <= i)%nat ->
  nth_error (buf s') i = nth_error (buf s) i.
Proof.
  intros [->|v b' Hp ->] Hi; [reflexivity|].
  cbn. exact (pack_into_nth_other _ _ _ _ _ _ Hp Hi).
Qed.

Lemma updates_bpp (f : field) (s s' : state) :
  updates f s s' -> bpp (hdr s') = bpp (hdr s).
Proof.
  intros [->|v b' Hp ->]; [reflexivity|]. destruct f; reflexivity.
Qed.

Lemma updates_other (f g : field) (s s' : state) :
  updates f s s' -> g <> f -> get_field g (hdr s') = get_field g (hdr s).
Proof.
  intros [->|v b' Hp ->] Hg; [reflexivity|].
  destruct f, g; try reflexivity; congruence.
Qed.

Lemma updates_wf (f : field) (s s' : state) :
  updates f s s' -> hdr_wf (hdr s) -> hdr_wf (hdr s').
Proof.
  intros [->|v b' Hp ->] Hw; [exact Hw|].
  apply pack_into_inv in Hp. destruct Hp as (_ & Hv & _).
  change (256 ^ Z.of_nat 4) with (2 ^ 32) in Hv.
  unfold hdr_wf in *. destruct f; cbn; intuition.
Qed.

(** The header kept in [hdr] stays the header of the buffer. *)
Lemma p32_sync (f : field) (b b' : bytes) (h : BmpHeader) (v : Z) :
  header b = inr h -> p32 b (field_off f) v = inr b' ->
  header b' = inr (set_field f v h).
Proof.
  intros Hh Hp. apply header_inv in Hh.
  destruct Hh as (H1 & H2 & H3 & H4 & H5 & H6).
  apply header_inv. unfold u32, u16, p32 in *.
  destruct f; cbn [field_off set_field set_file_size set_offset set_dib_size
                   set_width set_height file_size offset dib_size width height bpp] in *;
    repeat split;
    first [ exact (unpack_pack_same _ _ _ _ _ Hp)
          | rewrite (unpack_pack_other _ _ _ _ _ _ _ Hp) by lia; assumption ].
Qed.

Lemma updates_sync (f : field) (s s' : state) :
  updates f s s' -> header (buf s) = inr (hdr s) -> header (buf s') = inr (hdr s').
Proof.
  intros [->|v b' Hp ->] Hh; [exact Hh|]. cbn. exact (p32_sync _ _ _ _ _ Hh Hp).
Qed.

Lemma fix_offset_updates (s s' : state) :
  fix_offset s = inr s' -> updates Offset s s'.
Proof.
  unfold fix_offset. destruct (_ && _).
  - unfold rbind. destruct (p32 (buf s) 10 54) as [e|b'] eqn:Hp; [discriminate|].
    intros [= <-]. now apply (upd_write Offset s _ 54 b').
  - intros [= <-]. now apply upd_none.
Qed.

Lemma fix_dib_size_updates (s s' : state) :
  fix_dib_size s = inr s' -> updates DibSize s s'.
Proof.
  unfold fix_dib_size. destruct (negb _).
  - unfold rbind. destruct (p32 (buf s) 14 40) as [e|b'] eqn:Hp; [discriminate|].
    intros [= <-]. now apply (upd_write DibSize s _ 40 b').
  - intros [= <-]. now apply upd_none.
Qed.

Lemma fix_file_size_updates (s s' : state) :
  fix_file_size s = inr s' -> updates FileSize s s'.
Proof.
  unfold fix_file_size. destruct (negb _).
  - unfold rbind.
    destruct (p32 (buf s) 2 (Z.of_nat (length (buf s)))) as [e|b'] eqn:Hp; [discriminate|].
    intros [= <-]. apply (upd_write FileSize s _ (Z.of_nat (length (buf s))) b'); [exact Hp|].
    cbn. unfold p32 in Hp. now rewrite (pack_into_length _ _ _ _ _ Hp).
  - intros [= <-]. now apply upd_none.
Qed.

Lemma fix_width_updates (bb : Z) (s s' : state) :
  fix_width bb s = inr s' -> updates Width s s'.
Proof.
  unfold fix_width. destruct (_ && _); [|intros [= <-]; now apply upd_none].
  destruct (_ =? 0); [|intros [= <-]; now apply upd_none].
  destruct (_ && _); [|intros [= <-]; now apply upd_none].
  unfold rbind. destruct (p32 _ 18 _) as [e|b'] eqn:Hp; [discriminate|].
  intros [= <-]. eapply (upd_write Width); [exact Hp|reflexivity].
Qed.

Lemma fix_height_updates (s s' : state) :
  fix_height s = inr s' -> updates Height s s'.
Proof.
  unfold fix_height. destruct (_ && _); [|intros [= <-]; now apply upd_none].
  destruct (_ && _); [|intros [= <-]; now apply upd_none].
  unfold rbind. destruct (p32 _ 22 _) as [e|b'] eqn:Hp; [discriminate|].
  intros [= <-]. eapply (upd_write Height); [exact Hp|reflexivity].
Qed.

(** * The phases of [fix] *)

Lemma corrections_inv (data : bytes) (h0 : BmpHeader) (s : state) :
  corrections data = inr (h0, s) ->
  bytes_eqb (slice_to data 2) BM = true /\ header data = inr h0 /\
  exists s1 s2 s3 s4,
    fix_offset (mkState data h0 false) = inr s1 /\
    fix_dib_size s1 = inr s2 /\
    fix_file_size s2 = inr s3 /\
    bpp (hdr s3) / 8 <> 0 /\
    fix_width (bpp (hdr s3) / 8) s3 = inr s4 /\
    fix_height s4 = inr s.
Proof.
  unfold corrections, rbind.
  destruct (bytes_eqb (slice_to data 2) BM); cbn [negb]; [|discriminate].
  destruct (header data) as [e|h]; [discriminate|].
  destruct (fix_offset _) as [e|s1] eqn:E1; [discriminate|].
  destruct (fix_dib_size s1) as [e|s2] eqn:E2; [discriminate|].
  destruct (fix_file_size s2) as [e|s3] eqn:E3; [discriminate|].
  destruct (bpp (hdr s3) / 8 =? 0) eqn:Eb; [discriminate|].
  destruct (fix_width _ s3) as [e|s4] eqn:E4; [discriminate|].
  destruct (fix_height s4) as [e|s5] eqn:E5; [discriminate|].
  intros [= <- <-]. apply Z.eqb_neq in Eb.
  split; [reflexivity|]. split; [reflexivity|].
  exists s1, s2, s3, s4. repeat split; assumption.
Qed.

Lemma truncate_inv (s s' : state) (w w' : world) :
  truncate s w = (inr s', w') ->
  (Z.of_nat (length (buf s)) > expected (hdr s) /\ w' = w /\
   exists b', p32 (slice_to (buf s) (expected (hdr s))) 2
                  (Z.of_nat (length (slice_to (buf s) (expected (hdr s))))) = inr b' /\
              s' = mkState b' (set_file_size (Z.of_nat (length b')) (hdr s)) true) \/
  (Z.of_nat (length (buf s)) < expected (hdr s) /\ s' = s /\
   w' = mkWorld (files w) (dirs w) (console w ++ [truncation_warning])) \/
  (Z.of_nat (length (buf s)) = expected (hdr s) /\ s' = s /\ w' = w).
Proof.
  unfold truncate.
  destruct (Z.of_nat (length (buf s)) >? expected (hdr s)) eqn:E1.
  - unfold bind, lift, ret.
    destruct (p32 _ 2 _) as [e|b'] eqn:Hp; [discriminate|].
    intros [= <- <-]. left. apply Z.gtb_lt in E1. split; [lia|]. eauto.
  - assert (Z.of_nat (length (buf s)) <= expected (hdr s)) as Hle.
    { rewrite Z.gtb_ltb in E1. apply Z.ltb_ge in E1. exact E1. }
    destruct (Z.of_nat (length (buf s)) <? expected (hdr s)) eqn:E2.
    + unfold bind, print, ret. intros [= <- <-]. right; left.
      apply Z.ltb_lt in E2. auto.
    + unfold ret. intros [= <- <-]. right; right.
      apply Z.ltb_ge in E2. split; [lia|auto].
Qed.

Lemma truncate_error (s : state) (w w' : world) (e : exn) :
  truncate s w = (inl e, w') ->
  w' = w /\ exists f, e = StructError f /\ f <> UnpackShort.
Proof.
  unfold truncate.
  destruct (_ >? _).
  - unfold bind, lift, ret. destruct (p32 _ 2 _) as [e'|b'] eqn:Hp; [|discriminate].
    intros [= <- <-]. split; [reflexivity|].
    unfold p32, pack_into in Hp.
    destruct (negb _); [injection Hp as <-; eexists; split; [reflexivity|discriminate]|].
    destruct (negb _); [injection Hp as <-; eexists; split; [reflexivity|discriminate]|].
    discriminate.
  - destruct (_ <? _); unfold bind, print, ret; discriminate.
Qed.

Lemma print_header_run (h : BmpHeader) (title : string) (w : world) :
  print_header h title w =
    (inr tt, mkWorld (files w) (dirs w) (console w ++ header_lines h title)).
Proof.
  unfold print_header, bind, print, header_lines. cbn.
  repeat rewrite <- app_assoc. reflexivity.
Qed.

Section ToolFacts.

Variable stem_of : string -> string.

(** [fix] as the succession of its phases. *)
Lemma fix_bmp_run (path : string) (w : world) :
  fix_bmp stem_of path w =
    match lookup path (files w) with
    | None => (inl FileNotFoundError, w)
    | Some data =>
        match corrections data with
        | inl e => (inl e, w)
        | inr (h0, s) =>
            match truncate s w with
            | (inl e, w1) => (inl e, w1)
            | (inr s', w1) =>
                (inr ((stem_of path ++ "_fix.bmp")%string, hdr s', bytes_px s'),
                 finish (stem_of path ++ "_fix.bmp") h0 s' w1)
            end
        end
    end.
Proof.
  unfold fix_bmp, bind, read_bytes, lift.
  destruct (lookup path (files w)) as [data|]; [|reflexivity].
  destruct (corrections data) as [e|[h0 s]]; [reflexivity|].
  destruct (truncate s w) as [[e|s'] w1]; [reflexivity|].
  unfold write_bytes. rewrite !print_header_run. unfold print, ret, finish. cbn.
  repeat rewrite <- app_assoc. reflexivity.
Qed.

End ToolFacts.

(** * What the corrections establish *)

Lemma in_written_out (f : field) (i : nat) :
  in_written i = false -> (i < field_off f \/ field_off f + 4 <= i)%nat.
Proof.
  unfold in_written. intros H.
  apply orb_false_iff in H. destruct H as [H1 H2].
  apply andb_false_iff in H1, H2.
  rewrite !Nat.leb_gt, !Nat.ltb_ge in *.
  destruct f; cbn [field_off]; lia.
Qed.

Lemma in_field_written (i : nat) : in_field i = false -> in_written i = false.
Proof.
  unfold in_field, in_written. intros H.
  apply orb_false_iff in H. tauto.
Qed.

Lemma past_fields_written (i : nat) : (26 <= i)%nat -> in_written i = false.
Proof.
  intros H. unfold in_written.
  replace (i <? 6)%nat with false by (symmetry; apply Nat.ltb_ge; lia).
  replace (i <? 26)%nat with false by (symmetry; apply Nat.ltb_ge; lia).
  now rewrite !andb_false_r.
Qed.

Lemma field_disjoint (f g : field) (i : nat) :
  f <> g -> (field_off g <= i < field_off g + 4)%nat ->
  (i < field_off f \/ field_off f + 4 <= i)%nat.
Proof.
  intros Hn Hi. destruct f, g; cbn [field_off] in *; try congruence; lia.
Qed.

Lemma fix_offset_value (s s' : state) :
  fix_offset s = inr s' ->
  offset (hdr s') =
    if (8 <? bpp (hdr s)) && negb (offset (hdr s) =? 54) then 54 else offset (hdr s).
Proof.
  unfold fix_offset. destruct (_ && _).
  - unfold rbind. destruct (p32 _ _ _); [discriminate|]. now intros [= <-].
  - now intros [= <-].
Qed.

Lemma fix_dib_size_value (s s' : state) :
  fix_dib_size s = inr s' -> dib_size (hdr s') = 40.
Proof.
  unfold fix_dib_size. destruct (dib_size (hdr s) =? 40) eqn:E; cbn [negb].
  - intros [= <-]. now apply Z.eqb_eq in E.
  - unfold rbind. destruct (p32 _ _ _); [discriminate|]. now intros [= <-].
Qed.

Lemma fix_file_size_value (s s' : state) :
  hdr_wf (hdr s) -> fix_file_size s = inr s' ->
  file_size (hdr s') = Z.of_nat (length (buf s')) /\
  Z.of_nat (length (buf s')) < 2 ^ 32.
Proof.
  intros Hw H. pose proof (updates_length _ _ _ (fix_file_size_updates _ _ H)) as HL.
  revert H. unfold fix_file_size.
  destruct (file_size (hdr s) =? _) eqn:E; cbn [negb].
  - intros [= <-]. apply Z.eqb_eq in E. destruct Hw as (Hf & _). lia.
  - unfold rbind. destruct (p32 _ _ _) as [e|b'] eqn:Hp; [discriminate|].
    intros [= <-]. cbn in *. split; [reflexivity|].
    apply pack_into_inv in Hp. destruct Hp as (_ & Hv & _).
    change (256 ^ Z.of_nat 4) with (2 ^ 32) in Hv. lia.
Qed.


Lemma corrections_corrected (data : bytes) (h0 : BmpHeader) (s : state) :
  corrections data = inr (h0, s) -> corrected data h0 s.
Proof.
  intros H. apply corrections_inv in H.
  destruct H as (Hsig & Hh & s1 & s2 & s3 & s4 & E1 & E2 & E3 & Hb & E4 & E5).
  pose proof (fix_offset_updates _ _ E1) as U1.
  pose proof (fix_dib_size_updates _ _ E2) as U2.
  pose proof (fix_file_size_updates _ _ E3) as U3.
  pose proof (fix_width_updates _ _ _ E4) as U4.
  pose proof (fix_height_updates _ _ E5) as U5.
  pose proof (header_wf _ _ Hh) as W0.
  assert (W1 : hdr_wf (hdr s1)) by (exact (updates_wf _ _ _ U1 W0)).
  assert (W2 : hdr_wf (hdr s2)) by (exact (updates_wf _ _ _ U2 W1)).
  assert (W3 : hdr_wf (hdr s3)) by (exact (updates_wf _ _ _ U3 W2)).
  assert (W4 : hdr_wf (hdr s4)) by (exact (updates_wf _ _ _ U4 W3)).
  assert (L : length (buf s) = length data).
  { rewrite (updates_length _ _ _ U5), (updates_length _ _ _ U4),
      (updates_length _ _ _ U3), (updates_length _ _ _ U2),
      (updates_length _ _ _ U1). reflexivity. }
  assert (L3 : length (buf s3) = length data).
  { rewrite (updates_length _ _ _ U3), (updates_length _ _ _ U2),
      (updates_length _ _ _ U1). reflexivity. }
  assert (O : offset (hdr s) = offset (hdr s1)).
  { change (get_field Offset (hdr s) = get_field Offset (hdr s1)).
    rewrite (updates_other _ Offset _ _ U5), (updates_other _ Offset _ _ U4),
      (updates_other _ Offset _ _ U3), (updates_other _ Offset _ _ U2)
      by discriminate. reflexivity. }
  pose proof (fix_offset_value _ _ E1) as V1. cbn [hdr buf] in V1.
  constructor.
  - exact Hsig.
  - exact Hh.
  - exact L.
  - intros i Hi.
    rewrite (updates_nth _ _ _ i U5), (updates_nth _ _ _ i U4),
      (updates_nth _ _ _ i U3), (updates_nth _ _ _ i U2),
      (updates_nth _ _ _ i U1) by (apply in_written_out; exact Hi).
    reflexivity.
  - intros Ho i Hi.
    assert (s1 = mkState data h0 false) as ->.
    { revert E1. unfold fix_offset. cbn [hdr buf].
      destruct ((8 <? bpp h0) && negb (offset h0 =? 54)) eqn:Ec.
      - exfalso. apply andb_true_iff in Ec. destruct Ec as [_ Ec].
        apply negb_true_iff, Z.eqb_neq in Ec. congruence.
      - now intros [= <-]. }
    rewrite (updates_nth _ _ _ i U5), (updates_nth _ _ _ i U4),
      (updates_nth _ _ _ i U3), (updates_nth _ _ _ i U2)
      by (apply (field_disjoint _ Offset); [discriminate | exact Hi]).
    reflexivity.
  - rewrite (updates_bpp _ _ _ U5), (updates_bpp _ _ _ U4), (updates_bpp _ _ _ U3),
      (updates_bpp _ _ _ U2), (updates_bpp _ _ _ U1). reflexivity.
  - rewrite (updates_bpp _ _ _ U5), (updates_bpp _ _ _ U4). exact Hb.
  - rewrite O. exact V1.
  - change (get_field DibSize (hdr s) = 40).
    rewrite (updates_other _ DibSize _ _ U5), (updates_other _ DibSize _ _ U4),
      (updates_other _ DibSize _ _ U3) by discriminate.
    exact (fix_dib_size_value _ _ E2).
  - change (get_field FileSize (hdr s) = Z.of_nat (length data)).
    rewrite (updates_other _ FileSize _ _ U5), (updates_other _ FileSize _ _ U4)
      by discriminate.
    destruct (fix_file_size_value _ _ W2 E3) as [Hf _]. cbn [get_field].
    rewrite Hf, L3. reflexivity.
  - destruct (fix_file_size_value _ _ W2 E3) as [_ Hs]. rewrite L3 in Hs. exact Hs.
  - exact (updates_wf _ _ _ U5 W4).
  - apply (updates_sync _ _ _ U5), (updates_sync _ _ _ U4), (updates_sync _ _ _ U3),
      (updates_sync _ _ _ U2), (updates_sync _ _ _ U1). exact Hh.
Qed.

(** ** Slices *)

Lemma slice_to_firstn (b : bytes) (e : Z) :
  0 <= e <= Z.of_nat (length b) -> slice_to b e = firstn (Z.to_nat e) b.
Proof.
  intros He. unfold slice_to.
  destruct (e <? 0) eqn:E; [apply Z.ltb_lt in E; lia|].
  now rewrite Z.min_l by lia.
Qed.

Lemma slice_to_length (b : bytes) (e : Z) :
  0 <= e <= Z.of_nat (length b) -> Z.of_nat (length (slice_to b e)) = e.
Proof.
  intros He. rewrite slice_to_firstn by exact He. rewrite length_firstn. lia.
Qed.

Lemma slice_to_nth (b : bytes) (e : Z) (i : nat) :
  0 <= e <= Z.of_nat (length b) -> Z.of_nat i < e ->
  nth_error (slice_to b e) i = nth_error b i.
Proof.
  intros He Hi. rewrite slice_to_firstn by exact He. rewrite nth_error_firstn.
  replace (i <? Z.to_nat e)%nat with true; [reflexivity|].
  symmetry. apply Nat.ltb_lt. lia.
Qed.

Lemma expected_nonneg (h : BmpHeader) : hdr_wf h -> 0 <= expected h.
Proof.
  intros (_ & Ho & _ & Hw & _ & Hb). unfold expected.
  pose proof (row_nonneg (width h) (bpp h)). pose proof (Z.abs_nonneg (height h)).
  nia.
Qed.

(** ** The console *)

Lemma printed_app (w w' : world) (l : list string) :
  console w' = console w ++ l -> printed w w' = l.
Proof.
  intros H. unfold printed. rewrite H, skipn_app, skipn_all, Nat.sub_diag. reflexivity.
Qed.

Lemma header_lines_quiet (h : BmpHeader) (title : string) :
  ~ In truncation_warning (header_lines h title).
Proof.
  unfold header_lines, truncation_warning, nl. cbn.
  intros [H|[H|[H|[H|[H|[H|[H|[]]]]]]]]; discriminate H.
Qed.

Lemma finish_printed (p : string) (h0 : BmpHeader) (s : state) (w w1 : world) (l : list string) :
  console w1 = console w ++ l ->
  printed w (finish p h0 s w1) = l ++ report_lines p h0 (hdr s).
Proof.
  intros H. apply printed_app. unfold finish, report_lines. cbn [console].
  rewrite H, <- app_assoc. reflexivity.
Qed.

Lemma report_quiet (p : string) (h0 h : BmpHeader) :
  ~ In truncation_warning (report_lines p h0 h).
Proof.
  unfold report_lines. intros H. apply in_app_or in H. destruct H as [H|H].
  - exact (header_lines_quiet _ _ H).
  - apply in_app_or in H. destruct H as [H|[H|[]]].
    + exact (header_lines_quiet _ _ H).
    + unfold truncation_warning, nl in H. cbn in H. discriminate H.
Qed.

Lemma finish_lookup (p : string) (h0 : BmpHeader) (s : state) (w : world) :
  lookup p (files (finish p h0 s w)) = Some (buf s).
Proof.
  unfold finish. cbn. now rewrite String.eqb_refl.
Qed.

Lemma unpack_from_firstn (n : nat) (b : bytes) (o k : nat) :
  (o + n <= k)%nat -> (k <= length b)%nat ->
  unpack_from n (firstn k b) o = unpack_from n b o.
Proof.
  intros H1 H2. rewrite !unpack_from_ok by (rewrite ?length_firstn; lia).
  do 2 f_equal. apply nth_error_ext. intros i. rewrite !nth_error_field.
  destruct (i <? n)%nat eqn:E; [|reflexivity].
  apply Nat.ltb_lt in E. rewrite nth_error_firstn.
  replace (o + i <? k)%nat with true; [reflexivity|].
  symmetry. apply Nat.ltb_lt. lia.
Qed.

Lemma header_firstn (b : bytes) (k : nat) (h : BmpHeader) :
  (30 <= k)%nat -> (k <= length b)%nat ->
  header b = inr h -> header (firstn k b) = inr h.
Proof.
  intros H1 H2 Hh. apply header_inv in Hh. apply header_inv.
  unfold u32, u16 in *. rewrite !unpack_from_firstn by lia. exact Hh.
Qed.

Section RepairFacts.

Variable stem_of : string -> string.

Lemma fix_bmp_ok_inv (path : string) (w w' : world) (data : bytes)
      (p : string) (h : BmpHeader) (px : Z) :
  lookup path (files w) = Some data ->
  fix_bmp stem_of path w = (inr (p, h, px), w') ->
  exists h0 s s' w1,
    corrections data = inr (h0, s) /\ truncate s w = (inr s', w1) /\
    p = (stem_of path ++ "_fix.bmp")%string /\ h = hdr s' /\ px = bytes_px s' /\
    w' = finish p h0 s' w1.
Proof.
  intros Hl. rewrite fix_bmp_run, Hl.
  destruct (corrections data) as [e|[h0 s]]; [discriminate|].
  destruct (truncate s w) as [[e|s'] w1] eqn:Ht; [discriminate|].
  intros [= <- <- <- <-]. exists h0, s, s', w1. repeat split; auto.
Qed.

(** Whatever exception [fix] raises, it raises it before its only write:
    the world is as it was. *)
Lemma fix_bmp_error (path : string) (w w' : world) (e : exn) :
  fix_bmp stem_of path w = (inl e, w') -> w' = w.
Proof.
  rewrite fix_bmp_run.
  destruct (lookup path (files w)) as [data|]; [|now intros [= <- <-]].
  destruct (corrections data) as [e'|[h0 s]]; [now intros [= <- <-]|].
  destruct (truncate s w) as [[e'|s'] w1] eqn:Ht; [|discriminate].
  intros [= <- <-]. apply truncate_error in Ht. tauto.
Qed.

End RepairFacts.

(** * The truncation *)

(** The long case: the buffer is cut at [expected] and its size field is
    rewritten, provided the six bytes up to that field survive. *)
Lemma truncate_long (s : state) (w : world) :
  hdr_wf (hdr s) ->
  Z.of_nat (length (buf s)) > expected (hdr s) -> 6 <= expected (hdr s) ->
  Z.of_nat (length (buf s)) < 2 ^ 32 ->
  exists b',
    p32 (firstn (Z.to_nat (expected (hdr s))) (buf s)) 2 (expected (hdr s)) = inr b' /\
    truncate s w = (inr (mkState b' (set_file_size (expected (hdr s)) (hdr s)) true), w).
Proof.
  intros Hw Hl H6 Hs. unfold truncate.
  replace (Z.of_nat (length (buf s)) >? expected (hdr s)) with true
    by (symmetry; apply Z.gtb_lt; lia).
  rewrite slice_to_length, slice_to_firstn by lia.
  unfold p32. rewrite pack_into_ok.
  - eexists. split; [reflexivity|]. unfold bind, lift, ret. do 4 f_equal.
    rewrite !length_app, length_firstn, le_encode_length, length_skipn, length_firstn.
    lia.
  - rewrite length_firstn. lia.
  - change (256 ^ Z.of_nat 4) with (2 ^ 32). lia.
Qed.

(** Below six bytes the size field no longer fits: [pack_into] raises. *)
Lemma truncate_too_short (s : state) (w : world) :
  hdr_wf (hdr s) ->
  Z.of_nat (length (buf s)) > expected (hdr s) -> expected (hdr s) < 6 ->
  truncate s w = (inl (StructError PackShort), w).
Proof.
  intros Hw Hl H6. pose proof (expected_nonneg _ Hw) as H0. unfold truncate.
  replace (Z.of_nat (length (buf s)) >? expected (hdr s)) with true
    by (symmetry; apply Z.gtb_lt; lia).
  unfold p32, pack_into.
  replace (2 + 4 <=? length (slice_to (buf s) (expected (hdr s))))%nat with false.
  - reflexivity.
  - symmetry. apply Nat.leb_gt.
    pose proof (slice_to_length (buf s) (expected (hdr s))). lia.
Qed.

Lemma truncate_short (s : state) (w : world) :
  Z.of_nat (length (buf s)) < expected (hdr s) ->
  truncate s w =
    (inr s, mkWorld (files w) (dirs w) (console w ++ [truncation_warning])).
Proof.
  intros Hl. unfold truncate.
  replace (Z.of_nat (length (buf s)) >? expected (hdr s)) with false
    by (symmetry; rewrite Z.gtb_ltb; apply Z.ltb_ge; lia).
  replace (Z.of_nat (length (buf s)) <? expected (hdr s)) with true
    by (symmetry; apply Z.ltb_lt; lia).
  reflexivity.
Qed.

(** What every successful truncation step guarantees. *)
Lemma truncate_facts (s s' : state) (w w1 : world) :
  hdr_wf (hdr s) -> header (buf s) = inr (hdr s) ->
  truncate s w = (inr s', w1) ->
  (length (buf s') <= length (buf s))%nat /\
  (forall i, (i < length (buf s'))%nat -> (i < 2 \/ 6 <= i)%nat ->
             nth_error (buf s') i = nth_error (buf s) i) /\
  (forall f, f <> FileSize -> get_field f (hdr s') = get_field f (hdr s)) /\
  bpp (hdr s') = bpp (hdr s) /\
  (file_size (hdr s) = Z.of_nat (length (buf s)) ->
   file_size (hdr s') = Z.of_nat (length (buf s'))) /\
  hdr_wf (hdr s') /\
  ((30 <= length (buf s'))%nat -> header (buf s') = inr (hdr s')).
Proof.
  intros Hw Hh Ht. pose proof (expected_nonneg _ Hw) as H0.
  apply truncate_inv in Ht.
  destruct Ht as [(Hl & -> & b' & Hp & ->)|[(Hl & -> & ->)|(Hl & -> & ->)]];
    try solve [intuition auto with arith].
  pose proof (pack_into_length _ _ _ _ _ Hp) as HL.
  pose proof (slice_to_length (buf s) (expected (hdr s)) ltac:(lia)) as HS.
  cbn [buf hdr].
  split; [lia|]. split.
  { intros i Hi Hn. rewrite (pack_into_nth_other _ _ _ _ _ _ Hp) by lia.
    apply slice_to_nth; lia. }
  split. { intros f Hf. destruct f; try reflexivity. congruence. }
  split; [reflexivity|]. split; [reflexivity|]. split.
  { pose proof (pack_into_inv _ _ _ _ _ Hp) as (_ & Hv & _).
    change (256 ^ Z.of_nat 4) with (2 ^ 32) in Hv.
    unfold hdr_wf in *. cbn. intuition lia. }
  intros H30. rewrite HL.
  refine (p32_sync FileSize (slice_to (buf s) (expected (hdr s))) b' (hdr s) _ _ Hp).
  rewrite slice_to_firstn by lia. apply header_firstn; [lia|lia|exact Hh].
Qed.

(** * The outcome of a successful repair *)

Section Outcome.

Variable stem_of : string -> string.

Lemma fix_bmp_outcome (path : string) (w w' : world) (data : bytes)
      (p : string) (h : BmpHeader) (px : Z) :
  lookup path (files w) = Some data ->
  fix_bmp stem_of path w = (inr (p, h, px), w') ->
  exists h0 s out warn,
    corrections data = inr (h0, s) /\ repaired s out h warn /\
    p = (stem_of path ++ "_fix.bmp")%string /\
    files w' = (p, out) :: files w /\ dirs w' = dirs w /\
    printed w w' = (if warn then [truncation_warning] else []) ++ report_lines p h0 h /\
    px = Z.of_nat (length out) - offset h.
Proof.
  intros Hl Hf.
  destruct (fix_bmp_ok_inv _ _ _ _ _ _ _ _ Hl Hf) as (h0 & s & s' & w1 & Hc & Ht & -> & -> & -> & ->).
  pose proof (corrections_corrected _ _ _ Hc) as C.
  pose proof (truncate_facts _ _ _ _ (cor_wf _ _ _ C) (cor_sync _ _ _ C) Ht)
    as (F1 & F2 & F3 & F4 & F5 & F6 & F7).
  assert (F5' : file_size (hdr s') = Z.of_nat (length (buf s'))).
  { apply F5. rewrite (cor_file_size _ _ _ C), (cor_length _ _ _ C). reflexivity. }
  pose proof (expected_nonneg _ (cor_wf _ _ _ C)) as H0.
  apply truncate_inv in Ht.
  destruct Ht as [(Hlen & -> & b' & Hp & E)|[(Hlen & E & ->)|(Hlen & E & ->)]].
  - exists h0, s, (buf s'), false. split; [exact Hc|]. split.
    + constructor; auto. subst s'. cbn [buf hdr].
      unfold p32 in Hp. rewrite (pack_into_length _ _ _ _ _ Hp).
      rewrite slice_to_length by lia. reflexivity.
    + repeat split; auto. apply finish_printed with (l := []). now rewrite app_nil_r.
  - subst s'. exists h0, s, (buf s), true. split; [exact Hc|]. split.
    + constructor; auto.
    + repeat split; auto. now apply finish_printed.
  - subst s'. exists h0, s, (buf s), false. split; [exact Hc|]. split.
    + constructor; auto.
    + repeat split; auto. apply finish_printed with (l := []). now rewrite app_nil_r.
Qed.

End Outcome.

Section ShortFiles.

Variable stem_of : string -> string.

(** A corrected buffer shorter than [expected] is written as it is, after
    the warning. *)
Lemma fix_bmp_short (path : string) (w : world) (data : bytes)
      (h0 : BmpHeader) (s : state) :
  lookup path (files w) = Some data ->
  corrections data = inr (h0, s) ->
  Z.of_nat (length (buf s)) < expected (hdr s) ->
  exists w',
    fix_bmp stem_of path w
      = (inr ((stem_of path ++ "_fix.bmp")%string, hdr s, bytes_px s), w') /\
    files w' = ((stem_of path ++ "_fix.bmp")%string, buf s) :: files w /\
    printed w w'
      = truncation_warning :: report_lines (stem_of path ++ "_fix.bmp") h0 (hdr s).
Proof.
  intros Hl Hc Hlt. rewrite fix_bmp_run, Hl, Hc, (truncate_short _ _ Hlt).
  eexists. split; [reflexivity|]. split; [reflexivity|].
  erewrite finish_printed by reflexivity. reflexivity.
Qed.

End ShortFiles.

(** * The claims *)

Lemma lookup_cons (p q : string) (d : bytes) (fs : list (string * bytes)) :
  lookup p ((q, d) :: fs) = if String.eqb p q then Some d else lookup p fs.
Proof. reflexivity. Qed.

Lemma lookup_head (p : string) (d : bytes) (fs : list (string * bytes)) :
  lookup p ((p, d) :: fs) = Some d.
Proof. cbn. now rewrite String.eqb_refl. Qed.

Section Claims.

Variable stem_of : string -> string.

(** C1 (stride invariant).  When [fix] finishes without an exception and
    without printing the truncation warning, the header it returns and the
    buffer it wrote satisfy
    [row(width, bpp) * height = len(buffer) - pixel_offset] exactly, where
    [row(w, bpp)] is [ceil(w * (bpp // 8) / 4) * 4], which for a depth of
    whole bytes is the exact [ceil(w * bpp / 8 / 4) * 4]; the returned
    pixel-byte count is that same number, and the header returned is the
    one the written buffer carries. *)
Theorem stride_invariant (path : string) (w w' : world) (data : bytes)
        (p : string) (h : BmpHeader) (px : Z) :
  lookup path (files w) = Some data ->
  fix_bmp stem_of path w = (inr (p, h, px), w') ->
  ~ In truncation_warning (printed w w') ->
  exists out,
    lookup p (files w') = Some out /\
    row (width h) (bpp h) * height h = Z.of_nat (length out) - offset h /\
    row (width h) (bpp h) = cdiv (width h * (bpp h / 8)) 4 * 4 /\
    (bpp h mod 8 = 0 -> row (width h) (bpp h) = cdiv (width h * bpp h) 32 * 4) /\
    px = row (width h) (bpp h) * height h /\
    ((30 <= length out)%nat -> header out = inr h).
Proof.
  intros Hl Hf Hq.
  destruct (fix_bmp_outcome _ _ _ _ _ _ _ _ Hl Hf)
    as (h0 & s & out & warn & Hc & R & -> & Hfs & _ & Hp & ->).
  destruct warn.
  { exfalso. apply Hq. rewrite Hp. cbn. now left. }
  pose proof (rep_fit _ _ _ _ R) as Hfit. cbn in Hfit.
  pose proof (rep_wf _ _ _ _ R) as (_ & _ & _ & _ & Hh & _).
  unfold expected in Hfit. rewrite Z.abs_eq in Hfit by lia.
  exists out. rewrite Hfs, lookup_head.
  split; [reflexivity|]. split; [lia|]. split; [apply row_ceil|].
  split; [apply row_rational|].
  split; [lia|]. exact (rep_sync _ _ _ _ R).
Qed.

(** C5 (truncated input).  When the buffer that leaves the corrections is
    shorter than [expected], [fix] changes nothing more: it prints the
    truncation warning, writes that buffer as it is, and returns the
    corrected header. *)
Theorem truncation_reported (path : string) (w : world) (data : bytes)
        (h0 : BmpHeader) (s : state) :
  lookup path (files w) = Some data ->
  corrections data = inr (h0, s) ->
  Z.of_nat (length (buf s)) < expected (hdr s) ->
  exists w',
    fix_bmp stem_of path w
      = (inr ((stem_of path ++ "_fix.bmp")%string, hdr s, bytes_px s), w') /\
    files w' = ((stem_of path ++ "_fix.bmp")%string, buf s) :: files w /\
    length (buf s) = length data /\
    In truncation_warning (printed w w').
Proof.
  intros Hl Hc Hlt.
  destruct (fix_bmp_short stem_of _ _ _ _ _ Hl Hc Hlt) as (w' & Hf & Hfs & Hp).
  exists w'. split; [exact Hf|]. split; [exact Hfs|].
  split; [exact (cor_length _ _ _ (corrections_corrected _ _ _ Hc))|].
  rewrite Hp. now left.
Qed.

(** C7 (offset rule).  The offset returned by [fix] is 54 when [bpp > 8]
    and the parsed offset was not 54, and the parsed offset otherwise; so
    with [bpp <= 8] the offset is returned as parsed, and the four bytes of
    the field that remain in the written buffer are those of the input. *)
Theorem offset_untouched (path : string) (w w' : world) (data : bytes)
        (h0 : BmpHeader) (p : string) (h : BmpHeader) (px : Z) :
  lookup path (files w) = Some data ->
  header data = inr h0 ->
  fix_bmp stem_of path w = (inr (p, h, px), w') ->
  offset h = (if (8 <? bpp h0) && negb (offset h0 =? 54) then 54 else offset h0) /\
  (bpp h0 <= 8 ->
   offset h = offset h0 /\
   exists out, lookup p (files w') = Some out /\
     forall i, (10 <= i < 14)%nat -> (i < length out)%nat ->
               nth_error out i = nth_error data i).
Proof.
  intros Hl Hh Hf.
  destruct (fix_bmp_outcome _ _ _ _ _ _ _ _ Hl Hf)
    as (h1 & s & out & warn & Hc & R & -> & Hfs & _ & _ & _).
  pose proof (corrections_corrected _ _ _ Hc) as C.
  assert (h1 = h0) as -> by (pose proof (cor_parse _ _ _ C); congruence).
  assert (Ho : offset h = offset (hdr s))
    by (exact (rep_fields _ _ _ _ R Offset ltac:(discriminate))).
  split; [rewrite Ho; exact (cor_offset _ _ _ C)|].
  intros Hb.
  assert (Ho' : offset (hdr s) = offset h0).
  { rewrite (cor_offset _ _ _ C).
    replace (8 <? bpp h0) with false by (symmetry; apply Z.ltb_ge; lia).
    reflexivity. }
  split; [congruence|].
  exists out. rewrite Hfs, lookup_head. split; [reflexivity|].
  intros i Hi Hlen.
  rewrite (rep_frame _ _ _ _ R i Hlen) by lia.
  exact (cor_offset_bytes _ _ _ C Ho' i Hi).
Qed.

(** C8 (frame).  A run of [fix] that raises nothing writes exactly one
    file; its content is no longer than the input and agrees with the input
    at every position it still has outside the header fields at offsets 2,
    10, 14, 18, 22 and 28, in particular at every position from 30 on, and
    at every position of the pixel data when these start past the fields
    that [fix] writes. *)
Theorem repair_frame (path : string) (w w' : world) (data : bytes)
        (p : string) (h : BmpHeader) (px : Z) :
  lookup path (files w) = Some data ->
  fix_bmp stem_of path w = (inr (p, h, px), w') ->
  exists out,
    files w' = (p, out) :: files w /\
    (length out <= length data)%nat /\
    (forall i, (i < length out)%nat -> in_field i = false ->
               nth_error out i = nth_error data i) /\
    (forall i, (30 <= i < length out)%nat -> nth_error out i = nth_error data i) /\
    (26 <= offset h ->
     forall i, offset h <= Z.of_nat i -> (i < length out)%nat ->
               nth_error out i = nth_error data i).
Proof.
  intros Hl Hf.
  destruct (fix_bmp_outcome _ _ _ _ _ _ _ _ Hl Hf)
    as (h0 & s & out & warn & Hc & R & -> & Hfs & _ & _ & _).
  pose proof (corrections_corrected _ _ _ Hc) as C.
  assert (Fr : forall i, (i < length out)%nat -> in_written i = false ->
                         nth_error out i = nth_error data i).
  { intros i Hi Hn.
    rewrite (rep_frame _ _ _ _ R i Hi) by (exact (in_written_out FileSize i Hn)).
    exact (cor_frame _ _ _ C i Hn). }
  exists out. split; [exact Hfs|]. split.
  { rewrite <- (cor_length _ _ _ C). exact (rep_length _ _ _ _ R). }
  split; [intros i Hi Hn; apply Fr; [exact Hi|exact (in_field_written i Hn)]|].
  split.
  - intros i [Hi1 Hi2]. apply Fr; [exact Hi2|]. apply past_fields_written. lia.
  - intros Ho i Hi Hlen. apply Fr; [exact Hlen|]. apply past_fields_written. lia.
Qed.

End Claims.

(** * Failures *)

Lemma bytes_eqb_eq (a b : bytes) : bytes_eqb a b = true <-> a = b.
Proof.
  revert b. induction a as [|x a IH]; intros [|y b]; cbn; try (split; congruence).
  rewrite andb_true_iff, IH. split.
  - intros [H ->]. apply Byte.byte_dec_bl in H. now subst.
  - intros [= -> ->]. split; [now apply Byte.byte_dec_lb | reflexivity].
Qed.

Lemma slice_to_2 (data : bytes) : slice_to data 2 = firstn 2 data.
Proof.
  unfold slice_to. cbn [Z.ltb Z.compare].
  destruct (Z.min_spec 2 (Z.of_nat (length data))) as [[H ->]|[H ->]].
  - reflexivity.
  - rewrite Nat2Z.id. rewrite firstn_all. symmetry. apply firstn_all2. lia.
Qed.

Lemma signature_test (data : bytes) :
  bytes_eqb (slice_to data 2) BM = true <-> firstn 2 data = BM.
Proof. rewrite bytes_eqb_eq, slice_to_2. reflexivity. Qed.

Lemma p32_error (b : bytes) (o : nat) (v : Z) (e : exn) :
  p32 b o v = inl e -> pack_error e.
Proof.
  unfold p32, pack_into, pack_error.
  destruct (negb _); [intros [= <-]; now left|].
  destruct (negb _); [intros [= <-]; now right|]. discriminate.
Qed.

Lemma p32_total (b : bytes) (o : nat) (v : Z) :
  (o + 4 <= length b)%nat -> 0 <= v < 2 ^ 32 -> exists b', p32 b o v = inr b'.
Proof.
  intros H1 H2. unfold p32. rewrite pack_into_ok by assumption. eauto.
Qed.

Lemma fix_offset_error (s : state) (e : exn) : fix_offset s = inl e -> pack_error e.
Proof.
  unfold fix_offset, rbind. destruct (_ && _); [|discriminate].
  destruct (p32 _ _ _) eqn:Hp; [|discriminate].
  intros [= <-]. exact (p32_error _ _ _ _ Hp).
Qed.

Lemma fix_dib_size_error (s : state) (e : exn) : fix_dib_size s = inl e -> pack_error e.
Proof.
  unfold fix_dib_size, rbind. destruct (negb _); [|discriminate].
  destruct (p32 _ _ _) eqn:Hp; [|discriminate].
  intros [= <-]. exact (p32_error _ _ _ _ Hp).
Qed.

Lemma fix_file_size_error (s : state) (e : exn) : fix_file_size s = inl e -> pack_error e.
Proof.
  unfold fix_file_size, rbind. destruct (negb _); [|discriminate].
  destruct (p32 _ _ _) eqn:Hp; [|discriminate].
  intros [= <-]. exact (p32_error _ _ _ _ Hp).
Qed.

Lemma fix_width_error (bb : Z) (s : state) (e : exn) :
  fix_width bb s = inl e -> pack_error e.
Proof.
  unfold fix_width, rbind. destruct (_ && _); [|discriminate].
  destruct (_ =? 0); [|discriminate]. destruct (_ && _); [|discriminate].
  destruct (p32 _ _ _) eqn:Hp; [|discriminate].
  intros [= <-]. exact (p32_error _ _ _ _ Hp).
Qed.

Lemma fix_height_error (s : state) (e : exn) : fix_height s = inl e -> pack_error e.
Proof.
  unfold fix_height, rbind. destruct (_ && _); [|discriminate].
  destruct (_ && _); [|discriminate].
  destruct (p32 _ _ _) eqn:Hp; [|discriminate].
  intros [= <-]. exact (p32_error _ _ _ _ Hp).
Qed.

(** The four ways the corrections fail. *)
Lemma corrections_error (data : bytes) (e : exn) :
  corrections data = inl e ->
  (firstn 2 data <> BM /\ e = ValueError "Not a BMP file") \/
  (firstn 2 data = BM /\ (length data < 30)%nat /\ e = StructError UnpackShort) \/
  (firstn 2 data = BM /\ (30 <= length data)%nat /\ pack_error e) \/
  (firstn 2 data = BM /\ Z.of_nat (length data) < 2 ^ 32 /\ e = invalid_bpp /\
   exists h0, header data = inr h0 /\ bpp h0 < 8).
Proof.
  unfold corrections.
  destruct (bytes_eqb (slice_to data 2) BM) eqn:Es; cbn [negb].
  2:{ intros [= <-]. left. split; [|reflexivity].
      intros H. apply signature_test in H. congruence. }
  apply signature_test in Es. unfold rbind.
  destruct (header data) as [e0|h0] eqn:Eh.
  { intros [= <-]. right; left.
    destruct (Nat.lt_ge_cases (length data) 30) as [Hlt|Hge].
    - rewrite (header_short _ Hlt) in Eh. injection Eh as <-. auto.
    - apply header_ok_iff in Hge. destruct Hge as [h Hh]. congruence. }
  assert (H30 : (30 <= length data)%nat) by (apply header_ok_iff; eauto).
  pose proof (header_wf _ _ Eh) as W0.
  destruct (fix_offset _) as [e1|s1] eqn:E1.
  { intros [= <-]. right; right; left. eauto using fix_offset_error. }
  destruct (fix_dib_size s1) as [e2|s2] eqn:E2.
  { intros [= <-]. right; right; left. eauto using fix_dib_size_error. }
  destruct (fix_file_size s2) as [e3|s3] eqn:E3.
  { intros [= <-]. right; right; left. eauto using fix_file_size_error. }
  pose proof (fix_offset_updates _ _ E1) as U1.
  pose proof (fix_dib_size_updates _ _ E2) as U2.
  pose proof (fix_file_size_updates _ _ E3) as U3.
  destruct (bpp (hdr s3) / 8 =? 0) eqn:Eb.
  { intros [= <-]. right; right; right.
    assert (W2 : hdr_wf (hdr s2)) by (eapply updates_wf; eauto using updates_wf).
    destruct (fix_file_size_value _ _ W2 E3) as [_ Hs].
    rewrite (updates_length _ _ _ U3), (updates_length _ _ _ U2),
      (updates_length _ _ _ U1) in Hs. cbn [buf] in Hs.
    split; [exact Es|]. split; [exact Hs|]. split; [reflexivity|].
    exists h0. split; [reflexivity|].
    rewrite (updates_bpp _ _ _ U3), (updates_bpp _ _ _ U2), (updates_bpp _ _ _ U1) in Eb.
    cbn [hdr] in Eb. apply Z.eqb_eq in Eb.
    destruct W0 as (_ & _ & _ & _ & _ & Hb).
    apply Z.div_small_iff in Eb; lia. }
  destruct (fix_width _ s3) as [e4|s4] eqn:E4.
  { intros [= <-]. right; right; left. eauto using fix_width_error. }
  destruct (fix_height s4) as [e5|s5] eqn:E5.
  { intros [= <-]. right; right; left. eauto using fix_height_error. }
  discriminate.
Qed.

Lemma corrections_bad_signature (data : bytes) :
  firstn 2 data <> BM -> corrections data = inl (ValueError "Not a BMP file").
Proof.
  intros H. unfold corrections.
  destruct (bytes_eqb (slice_to data 2) BM) eqn:E; [|reflexivity].
  apply signature_test in E. contradiction.
Qed.

Lemma corrections_short (data : bytes) :
  firstn 2 data = BM -> (length data < 30)%nat ->
  corrections data = inl (StructError UnpackShort).
Proof.
  intros Hs Hl. unfold corrections. apply signature_test in Hs. rewrite Hs.
  cbn [negb]. now rewrite (header_short _ Hl).
Qed.

Lemma fix_dib_size_total (s : state) :
  (18 <= length (buf s))%nat -> exists s', fix_dib_size s = inr s'.
Proof.
  intros H. unfold fix_dib_size. destruct (negb _); [|eauto].
  destruct (p32_total (buf s) 14 40) as [b' ->]; [lia|lia|]. cbn. eauto.
Qed.

Lemma fix_file_size_total (s : state) :
  (6 <= length (buf s))%nat -> Z.of_nat (length (buf s)) < 2 ^ 32 ->
  exists s', fix_file_size s = inr s'.
Proof.
  intros H1 H2. unfold fix_file_size. destruct (negb _); [|eauto].
  destruct (p32_total (buf s) 2 (Z.of_nat (length (buf s)))) as [b' ->]; [lia|lia|].
  cbn. eauto.
Qed.

Lemma corrections_invalid_bpp (data : bytes) (h0 : BmpHeader) :
  firstn 2 data = BM -> header data = inr h0 ->
  Z.of_nat (length data) < 2 ^ 32 -> bpp h0 < 8 ->
  corrections data = inl invalid_bpp.
Proof.
  intros Hs Hh Hl Hb. unfold corrections. apply signature_test in Hs. rewrite Hs.
  cbn [negb]. rewrite Hh. cbn [rbind].
  assert (H30 : (30 <= length data)%nat) by (apply header_ok_iff; eauto).
  pose proof (header_wf _ _ Hh) as (_ & _ & _ & _ & _ & Hb0).
  unfold fix_offset. cbn [hdr buf].
  replace (8 <? bpp h0) with false by (symmetry; apply Z.ltb_ge; lia).
  cbn [andb rbind].
  destruct (fix_dib_size_total (mkState data h0 false)) as [s2 E2]; [cbn; lia|].
  rewrite E2. cbn [rbind]. pose proof (fix_dib_size_updates _ _ E2) as U2.
  pose proof (updates_length _ _ _ U2) as L2. cbn [buf] in L2.
  destruct (fix_file_size_total s2) as [s3 E3]; [lia|lia|].
  rewrite E3. cbn [rbind]. pose proof (fix_file_size_updates _ _ E3) as U3.
  rewrite (updates_bpp _ _ _ U3), (updates_bpp _ _ _ U2). cbn [hdr].
  rewrite Z.div_small by lia. reflexivity.
Qed.


(** * Inputs that are already correct *)

Lemma fix_width_stable (s : state) :
  hdr_wf (hdr s) -> 1 <= bpp (hdr s) / 8 ->
  row (width (hdr s)) (bpp (hdr s)) * Z.abs (height (hdr s)) = bytes_px s ->
  height (hdr s) = 0 \/ width (hdr s) = 0 \/
  row (width (hdr s)) (bpp (hdr s)) / (bpp (hdr s) / 8) = width (hdr s) ->
  fix_width (bpp (hdr s) / 8) s = inr s.
Proof.
  intros (_ & _ & _ & Hw & Hh & _) Hb Hpx Hc. unfold fix_width.
  destruct (height (hdr s) =? 0) eqn:E0; cbn [negb andb]; [reflexivity|].
  apply Z.eqb_neq in E0. rewrite Z.abs_eq in Hpx by lia.
  rewrite <- Hpx. rewrite Z.mod_mul, Z.div_mul by exact E0. cbn [Z.eqb].
  rewrite row_mod4. cbn [Z.eqb].
  destruct Hc as [Hc|[Hc|Hc]]; [contradiction| |].
  - rewrite Hc. unfold row. rewrite Z.mul_0_l. cbn. reflexivity.
  - rewrite Hc, (Z.eqb_refl (width (hdr s))), andb_false_r. reflexivity.
Qed.

Lemma fix_height_stable (s : state) :
  hdr_wf (hdr s) ->
  row (width (hdr s)) (bpp (hdr s)) * Z.abs (height (hdr s)) = bytes_px s ->
  fix_height s = inr s.
Proof.
  intros (_ & _ & _ & _ & Hh & _) Hpx. unfold fix_height.
  destruct (row (width (hdr s)) (bpp (hdr s)) =? 0) eqn:E0; cbn [negb andb]; [reflexivity|].
  apply Z.eqb_neq in E0. rewrite Z.abs_eq in Hpx by lia.
  rewrite <- Hpx, Z.mul_comm. rewrite Z.mod_mul, Z.div_mul by exact E0. cbn [Z.eqb].
  rewrite (Z.eqb_refl (height (hdr s))), andb_false_r. reflexivity.
Qed.

Lemma corrections_fixpoint (data : bytes) (h0 : BmpHeader) :
  firstn 2 data = BM -> header data = inr h0 -> consistent data h0 ->
  8 <= bpp h0 ->
  height h0 = 0 \/ width h0 = 0 \/
  row (width h0) (bpp h0) / (bpp h0 / 8) = width h0 ->
  corrections data = inr (h0, mkState data h0 false).
Proof.
  intros Hs Hh (Ho & Hd & Hf & Hr) Hb Hc.
  pose proof (header_wf _ _ Hh) as W.
  assert (Hbb : 1 <= bpp h0 / 8) by (apply Z.div_le_lower_bound; lia).
  unfold corrections. apply signature_test in Hs. rewrite Hs. cbn [negb].
  rewrite Hh. cbn [rbind].
  assert (E1 : fix_offset (mkState data h0 false) = inr (mkState data h0 false)).
  { unfold fix_offset. cbn [hdr buf].
    destruct (8 <? bpp h0) eqn:E; [|reflexivity].
    apply Z.ltb_lt in E. rewrite (Ho E). reflexivity. }
  rewrite E1. cbn [rbind].
  assert (E2 : fix_dib_size (mkState data h0 false) = inr (mkState data h0 false)).
  { unfold fix_dib_size. cbn [hdr buf]. rewrite Hd. reflexivity. }
  rewrite E2. cbn [rbind].
  assert (E3 : fix_file_size (mkState data h0 false) = inr (mkState data h0 false)).
  { unfold fix_file_size. cbn [hdr buf]. rewrite Hf, Z.eqb_refl. reflexivity. }
  rewrite E3. cbn [rbind hdr].
  replace (bpp h0 / 8 =? 0) with false by (symmetry; apply Z.eqb_neq; lia).
  assert (E4 : fix_width (bpp h0 / 8) (mkState data h0 false)
               = inr (mkState data h0 false))
    by (apply (fix_width_stable (mkState data h0 false)); cbn; auto).
  rewrite E4. cbn [rbind].
  rewrite (fix_height_stable (mkState data h0 false)) by (cbn; auto).
  reflexivity.
Qed.

(** The side condition is needed: when the row has room for one more
    pixel, the corrections do not return the state they were given. *)
Lemma corrections_loose (data : bytes) (h0 : BmpHeader) :
  firstn 2 data = BM -> header data = inr h0 -> consistent data h0 ->
  8 <= bpp h0 ->
  corrections data = inr (h0, mkState data h0 false) ->
  height h0 = 0 \/ width h0 = 0 \/
  row (width h0) (bpp h0) / (bpp h0 / 8) = width h0.
Proof.
  intros Hs Hh (Ho & Hd & Hf & Hr) Hb Hc.
  destruct (Z.eq_dec (height h0) 0) as [|Hh0]; [now left|].
  destruct (Z.eq_dec (width h0) 0) as [|Hw0]; [now right; left|].
  destruct (Z.eq_dec (row (width h0) (bpp h0) / (bpp h0 / 8)) (width h0)) as [|Hne];
    [now right; right|].
  exfalso.
  pose proof (header_wf _ _ Hh) as W.
  destruct W as (_ & _ & _ & Hw & Hhh & _).
  assert (Hbb : 1 <= bpp h0 / 8) by (apply Z.div_le_lower_bound; lia).
  apply corrections_inv in Hc.
  destruct Hc as (_ & _ & s1 & s2 & s3 & s4 & E1 & E2 & E3 & _ & E4 & E5).
  assert (s1 = mkState data h0 false) as ->.
  { revert E1. unfold fix_offset. cbn [hdr buf].
    destruct (8 <? bpp h0) eqn:E; [|now intros [= <-]].
    apply Z.ltb_lt in E. rewrite (Ho E). now intros [= <-]. }
  assert (s2 = mkState data h0 false) as ->.
  { revert E2. unfold fix_dib_size. cbn [hdr buf]. rewrite Hd. now intros [= <-]. }
  assert (s3 = mkState data h0 false) as ->.
  { revert E3. unfold fix_file_size. cbn [hdr buf].
    rewrite Hf, Z.eqb_refl. now intros [= <-]. }
  cbn [hdr] in E4.
  assert (Hw4 : width (hdr s4) = row (width h0) (bpp h0) / (bpp h0 / 8)).
  { revert E4. unfold fix_width, bytes_px. cbn [hdr buf].
    rewrite Z.abs_eq in Hr by lia. rewrite <- Hr.
    rewrite Z.mod_mul, Z.div_mul by exact Hh0.
    replace (height h0 =? 0) with false by (symmetry; apply Z.eqb_neq; exact Hh0).
    cbn [negb andb Z.eqb]. rewrite row_mod4. cbn [Z.eqb].
    assert (1 <= row (width h0) (bpp h0) / (bpp h0 / 8)).
    { apply Z.div_le_lower_bound; [lia|].
      pose proof (row_bounds (width h0) (bpp h0)). nia. }
    replace (row (width h0) (bpp h0) / (bpp h0 / 8) =? 0) with false
      by (symmetry; apply Z.eqb_neq; lia).
    replace (row (width h0) (bpp h0) / (bpp h0 / 8) =? width h0) with false
      by (symmetry; apply Z.eqb_neq; exact Hne).
    cbn [negb andb]. unfold rbind. destruct (p32 _ _ _); [discriminate|].
    now intros [= <-]. }
  pose proof (updates_other _ Width _ _ (fix_height_updates _ _ E5) ltac:(discriminate)) as Hk.
  cbn [get_field hdr] in Hk. congruence.
Qed.

Lemma truncate_fit (s : state) (w : world) :
  Z.of_nat (length (buf s)) = expected (hdr s) -> truncate s w = (inr s, w).
Proof.
  intros H. unfold truncate. rewrite H.
  rewrite Z.gtb_ltb, Z.ltb_irrefl. reflexivity.
Qed.

Section Idempotence.

Variable stem_of : string -> string.

(** C2, amended (idempotence).  Let the file start with [BM] and its
    header satisfy the four invariants of the data model.  If moreover
    [bpp >= 8] and the row has no room for one more whole pixel, that is
    [row(width, bpp) // (bpp // 8) = width] (or the width or the height is
    zero), then the corrections change nothing and set no [changed] flag,
    and [fix] writes the input bytes back, returns and reports the parsed
    header, and prints no warning. *)
Theorem idempotent_when_tight (path : string) (w : world) (data : bytes) (h0 : BmpHeader) :
  lookup path (files w) = Some data ->
  firstn 2 data = BM -> header data = inr h0 -> consistent data h0 ->
  8 <= bpp h0 ->
  height h0 = 0 \/ width h0 = 0 \/
  row (width h0) (bpp h0) / (bpp h0 / 8) = width h0 ->
  corrections data = inr (h0, mkState data h0 false) /\
  exists w',
    fix_bmp stem_of path w
      = (inr ((stem_of path ++ "_fix.bmp")%string, h0,
              Z.of_nat (length data) - offset h0), w') /\
    files w' = ((stem_of path ++ "_fix.bmp")%string, data) :: files w /\
    printed w w' = report_lines (stem_of path ++ "_fix.bmp") h0 h0 /\
    ~ In truncation_warning (printed w w').
Proof.
  intros Hl Hs Hh Hc Hb Ht.
  pose proof (corrections_fixpoint _ _ Hs Hh Hc Hb Ht) as Hfix.
  split; [exact Hfix|].
  rewrite fix_bmp_run, Hl, Hfix.
  rewrite truncate_fit.
  - eexists. split; [reflexivity|]. split; [reflexivity|].
    rewrite (finish_printed _ _ _ w w []) by (now rewrite app_nil_r).
    cbn [app hdr]. split; [reflexivity|]. apply report_quiet.
  - cbn [buf hdr]. destruct Hc as (_ & _ & _ & Hr). unfold expected. lia.
Qed.

End Idempotence.

(** * The variant generator *)

Lemma variant_of_fields (f : field) (v : Z) (nb nbv : bytes) :
  f <> FileSize -> variant_of f v nb nbv ->
  length nbv = length nb /\
  unpack_from 4 nbv (field_off f) = inr v /\
  u32 nbv 2 = inr (Z.of_nat (length nb)) /\
  (forall i, (i < 2 \/ 6 <= i)%nat -> (i < field_off f \/ field_off f + 4 <= i)%nat ->
             nth_error nbv i = nth_error nb i).
Proof.
  intros Hf (nb1 & H1 & H2). unfold p32 in *.
  pose proof (pack_into_length _ _ _ _ _ H1) as L1.
  pose proof (pack_into_length _ _ _ _ _ H2) as L2.
  split; [congruence|]. split.
  { rewrite (unpack_pack_other _ _ _ _ _ _ _ H2) by (destruct f; cbn; try congruence; lia).
    exact (unpack_pack_same _ _ _ _ _ H1). }
  split.
  { unfold u32. rewrite <- L1. exact (unpack_pack_same _ _ _ _ _ H2). }
  intros i Hi1 Hi2.
  rewrite (pack_into_nth_other _ _ _ _ _ _ H2) by lia.
  exact (pack_into_nth_other _ _ _ _ _ _ H1 Hi2).
Qed.

Section Variants.

Variable stem_of : string -> string.

Lemma height_variant_inv (fp : string) (hdr : BmpHeader) (px : Z)
      (vs vs' : list string) (w w1 : world) :
  height_variant stem_of fp hdr px vs w = (inr vs', w1) ->
  (vs' = vs /\ w1 = w) \/
  exists hv nb nbh,
    height_guess hdr px hv /\ lookup fp (files w) = Some nb /\
    variant_of Height hv nb nbh /\
    vs' = vs ++ [variant_path (stem_of fp) "_h" hv] /\
    w1 = add_file (variant_path (stem_of fp) "_h" hv) nbh w.
Proof.
  unfold height_variant.
  destruct (row (width hdr) (bpp hdr) =? 0) eqn:E0; cbn [negb andb];
    [intros [= <- <-]; now left|].
  destruct (px mod row (width hdr) (bpp hdr) =? 0) eqn:E1;
    [|intros [= <- <-]; now left].
  destruct (px / row (width hdr) (bpp hdr) =? height hdr) eqn:E2; cbn [negb];
    [intros [= <- <-]; now left|].
  apply Z.eqb_neq in E0, E2. apply Z.eqb_eq in E1.
  unfold bind, read_bytes, lift, write_bytes, ret.
  destruct (lookup fp (files w)) as [nb|] eqn:El; [|discriminate].
  destruct (p32 nb 22 _) as [e|nb1] eqn:P1; [discriminate|].
  destruct (p32 nb1 2 _) as [e|nbh] eqn:P2; [discriminate|].
  intros [= <- <-]. right.
  exists (px / row (width hdr) (bpp hdr)), nb, nbh.
  repeat split; auto. exists nb1. auto.
Qed.

Lemma width_variant_inv (fp : string) (hdr : BmpHeader) (px : Z)
      (vs vs' : list string) (w w1 : world) :
  width_variant stem_of fp hdr px (bpp hdr / 8) vs w = (inr vs', w1) ->
  (vs' = vs /\ w1 = w) \/
  exists wv nb nbw,
    width_guess hdr px wv /\ lookup fp (files w) = Some nb /\
    variant_of Width wv nb nbw /\
    vs' = vs ++ [variant_path (stem_of fp) "_w" wv] /\
    w1 = add_file (variant_path (stem_of fp) "_w" wv) nbw w.
Proof.
  unfold width_variant.
  destruct (height hdr =? 0) eqn:E0; cbn [negb andb];
    [intros [= <- <-]; now left|].
  destruct (px mod height hdr =? 0) eqn:E1; [|intros [= <- <-]; now left].
  destruct (px / height hdr mod 4 =? 0) eqn:E2; [|intros [= <- <-]; now left].
  unfold bind at 1.
  destruct (bpp hdr / 8 =? 0) eqn:E3; [discriminate|]. unfold ret at 1.
  destruct (px / height hdr / (bpp hdr / 8) =? width hdr) eqn:E4; cbn [negb];
    [intros [= <- <-]; now left|].
  apply Z.eqb_neq in E0, E3, E4. apply Z.eqb_eq in E1, E2.
  unfold bind, read_bytes, lift, write_bytes, ret.
  destruct (lookup fp (files w)) as [nb|] eqn:El; [|discriminate].
  destruct (p32 nb 18 _) as [e|nb1] eqn:P1; [discriminate|].
  destruct (p32 nb1 2 _) as [e|nbw] eqn:P2; [discriminate|].
  intros [= <- <-]. right.
  exists (px / height hdr / (bpp hdr / 8)), nb, nbw.
  repeat split; auto. exists nb1. auto.
Qed.

Lemma print_lines_files (vs : list string) (w : world) :
  exists w',
    fold_right (fun v k => bind (print ("  " ++ v)) (fun _ => k)) (ret tt) vs w = (inr tt, w') /\
    files w' = files w.
Proof.
  revert w. induction vs as [|v vs IH]; intros w.
  - exists w. split; reflexivity.
  - cbn [fold_right]. unfold bind at 1. unfold print at 1.
    destruct (IH (mkWorld (files w) (dirs w) (console w ++ [("  " ++ v)%string])))
      as (w' & -> & Hf).
    exists w'. split; [reflexivity|exact Hf].
Qed.

Lemma print_variants_files (vs : list string) (w : world) :
  exists w', print_variants vs w = (inr tt, w') /\ files w' = files w.
Proof.
  unfold print_variants. destruct vs as [|v vs].
  - unfold print. eauto.
  - unfold bind at 1. unfold print at 1.
    destruct (print_lines_files (v :: vs)
                (mkWorld (files w) (dirs w) (console w ++ ["Variants saved:"%string])))
      as (w' & H & Hf).
    exists w'. split; [exact H|exact Hf].
Qed.

(** What a run of [brute_variants] that raises nothing has written. *)
Lemma brute_variants_inv (fp : string) (hdr : BmpHeader) (px : Z) (w w' : world) :
  brute_variants stem_of fp hdr px w = (inr tt, w') ->
  exists wh ww,
    (wh = [] \/
     exists hv nb nbh, height_guess hdr px hv /\ lookup fp (files w) = Some nb /\
       variant_of Height hv nb nbh /\
       wh = [(variant_path (stem_of fp) "_h" hv, nbh)]) /\
    (ww = [] \/
     exists wv nb nbw, width_guess hdr px wv /\ lookup fp (wh ++ files w) = Some nb /\
       variant_of Width wv nb nbw /\
       ww = [(variant_path (stem_of fp) "_w" wv, nbw)]) /\
    files w' = ww ++ wh ++ files w.
Proof.
  unfold brute_variants. unfold bind at 1. unfold mkdir at 1.
  unfold bind at 1.
  destruct (height_variant _ _ _ _ _ _) as [[e|vs1] w1] eqn:Eh; [discriminate|].
  unfold bind at 1.
  destruct (width_variant _ _ _ _ _ _ _) as [[e|vs2] w2] eqn:Ew; [discriminate|].
  intros Hp.
  destruct (print_variants_files vs2 w2) as (w3 & Hp' & Hf3).
  rewrite Hp' in Hp. injection Hp as <-.
  apply height_variant_inv in Eh. apply width_variant_inv in Ew.
  destruct Eh as [[-> ->]|(hv & nb & nbh & Gh & Lh & Vh & -> & ->)];
    destruct Ew as [[-> ->]|(wv & nb' & nbw & Gw & Lw & Vw & -> & ->)].
  - exists [], []. rewrite Hf3. cbn. auto.
  - exists [], [(variant_path (stem_of fp) "_w" wv, nbw)]. rewrite Hf3.
    split; [now left|]. split; [|reflexivity]. right. exists wv, nb', nbw. auto.
  - exists [(variant_path (stem_of fp) "_h" hv, nbh)], []. rewrite Hf3.
    split; [|split; [now left|reflexivity]]. right. exists hv, nb, nbh. auto.
  - exists [(variant_path (stem_of fp) "_h" hv, nbh)],
           [(variant_path (stem_of fp) "_w" wv, nbw)]. rewrite Hf3.
    split; [right; exists hv, nb, nbh; auto|].
    split; [|reflexivity]. right. exists wv, nb', nbw. auto.
Qed.

End Variants.

(** * The whole run *)

Section Run.

Variable stem_of : string -> string.

Lemma height_variant_error (fp : string) (hdr : BmpHeader) (px : Z)
      (vs : list string) (w w1 : world) (e : exn) :
  height_variant stem_of fp hdr px vs w = (inl e, w1) -> variant_error e.
Proof.
  unfold height_variant, variant_error.
  destruct (_ && _); [|discriminate]. destruct (negb _); [|discriminate].
  unfold bind, read_bytes, lift, write_bytes, ret.
  destruct (lookup fp (files w)) as [nb|]; [|intros [= <- <-]; auto].
  destruct (p32 nb 22 _) as [e1|nb1] eqn:P1;
    [intros [= <- <-]; eauto using p32_error|].
  destruct (p32 nb1 2 _) as [e2|nb2] eqn:P2;
    [intros [= <- <-]; eauto using p32_error|].
  discriminate.
Qed.

Lemma width_variant_error (fp : string) (hdr : BmpHeader) (px bb : Z)
      (vs : list string) (w w1 : world) (e : exn) :
  width_variant stem_of fp hdr px bb vs w = (inl e, w1) -> variant_error e.
Proof.
  unfold width_variant, variant_error.
  destruct (_ && _); [|discriminate]. destruct (_ =? 0); [|discriminate].
  unfold bind at 1. destruct (bb =? 0).
  { unfold raise. intros [= <- <-]. auto. }
  unfold ret at 1. destruct (negb _); [|discriminate].
  unfold bind, read_bytes, lift, write_bytes, ret.
  destruct (lookup fp (files w)) as [nb|]; [|intros [= <- <-]; auto].
  destruct (p32 nb 18 _) as [e1|nb1] eqn:P1;
    [intros [= <- <-]; eauto using p32_error|].
  destruct (p32 nb1 2 _) as [e2|nb2] eqn:P2;
    [intros [= <- <-]; eauto using p32_error|].
  discriminate.
Qed.

Lemma brute_variants_error (fp : string) (hdr : BmpHeader) (px : Z)
      (w w' : world) (e : exn) :
  brute_variants stem_of fp hdr px w = (inl e, w') -> variant_error e.
Proof.
  unfold brute_variants. unfold bind at 1. unfold mkdir at 1. unfold bind at 1.
  destruct (height_variant _ _ _ _ _ _) as [[e1|vs1] w1] eqn:Eh.
  { intros [= <- <-]. exact (height_variant_error _ _ _ _ _ _ _ Eh). }
  unfold bind at 1.
  destruct (width_variant _ _ _ _ _ _ _) as [[e2|vs2] w2] eqn:Ew.
  { intros [= <- <-]. exact (width_variant_error _ _ _ _ _ _ _ _ Ew). }
  destruct (print_variants_files vs2 w2) as (w3 & -> & _). discriminate.
Qed.

Lemma variant_error_other (e : exn) :
  variant_error e -> ~ (format_error e \/ e = invalid_bpp).
Proof.
  unfold variant_error, pack_error, format_error, invalid_bpp.
  intros [->|[->|[->| ->]]] [[H|H]|H]; discriminate H.
Qed.

(** In a whole run of [main] a format error or an invalid depth leaves
    every file as it was, whatever the flags. *)
Lemma main_fatal (bmp : string) (brute info : bool) (w w' : world) (e : exn) :
  main stem_of bmp brute info w = (inl e, w') ->
  format_error e \/ e = invalid_bpp -> files w' = files w.
Proof.
  unfold main. unfold bind at 1. unfold read_bytes at 1.
  destruct (lookup bmp (files w)) as [data|]; [|now intros [= <- <-]].
  unfold bind at 1. unfold lift at 1.
  destruct (header data) as [e0|h]; [now intros [= <- <-]|].
  unfold bind at 1. rewrite print_header_run.
  destruct info; [discriminate|].
  unfold bind at 1.
  destruct (fix_bmp stem_of bmp _) as [[e1|[[fp hf] px]] w1] eqn:Ef.
  { intros [= <- <-] _. apply fix_bmp_error in Ef. subst w1. reflexivity. }
  destruct brute; [|discriminate].
  intros Hb He. apply brute_variants_error in Hb.
  exfalso. exact (variant_error_other _ Hb He).
Qed.

End Run.

Section Fatal.

Variable stem_of : string -> string.

(** C6 (format errors).  On the bytes of the file it reads, [fix] stops
    with a format error, that is the [ValueError] of the signature test or
    the [struct.error] of a read past the end in [header], exactly when
    the file has fewer than thirty bytes or does not start with [BM]; and
    whatever exception [fix] raises, the world is then as it was: nothing
    has been written or printed.  In a whole run of [main], with or
    without variants, a format error or an invalid depth leaves every file
    as it was. *)
Theorem format_error_iff (path : string) (w : world) (data : bytes) :
  lookup path (files w) = Some data ->
  ((exists e, fix_bmp stem_of path w = (inl e, w) /\ format_error e) <->
   ((length data < 30)%nat \/ firstn 2 data <> BM)) /\
  (forall e w', fix_bmp stem_of path w = (inl e, w') -> w' = w) /\
  (forall brute info e w',
     main stem_of path brute info w = (inl e, w') ->
     format_error e \/ e = invalid_bpp -> files w' = files w).
Proof.
  intros Hl. split; [|split; [intros e w'; apply fix_bmp_error
                             |intros brute info e w'; apply main_fatal]].
  rewrite fix_bmp_run, Hl. split.
  - intros (e & He & Hf).
    destruct (corrections data) as [e'|[h0 s]] eqn:Ec.
    + injection He as ->.
      apply corrections_error in Ec.
      destruct Ec as [(Hs & _)|[(_ & Hlen & _)|[(_ & _ & Hp)|(_ & _ & -> & _)]]]; auto.
      * destruct Hf as [->| ->]; destruct Hp; discriminate.
      * destruct Hf; discriminate.
    + destruct (truncate s w) as [[e'|s'] w1] eqn:Et; [|discriminate].
      injection He as -> ->. apply truncate_error in Et.
      destruct Et as (_ & f & -> & Hn). destruct Hf as [Hf|Hf]; [discriminate|].
      injection Hf as ->. contradiction.
  - intros H.
    assert (firstn 2 data <> BM \/ (firstn 2 data = BM /\ (length data < 30)%nat)) as [Hs|[Hs Hlen]].
    { destruct (bytes_eqb (slice_to data 2) BM) eqn:E.
      - apply signature_test in E. destruct H as [H|H]; [auto|contradiction].
      - left. intros Hs. apply signature_test in Hs. congruence. }
    + rewrite (corrections_bad_signature _ Hs). eexists. split; [reflexivity|now left].
    + rewrite (corrections_short _ Hs Hlen). eexists. split; [reflexivity|now right].
Qed.

(** C3, amended (invalid depth).  [fix] raises the [ValueError] of an
    invalid bits-per-pixel value exactly when the file starts with [BM],
    parses, is shorter than 2^32 bytes and has [bpp < 8], that is
    [bpp // 8 = 0]; the world is then as it was.  A depth of eight or more
    that is no multiple of eight is not refused. *)
Theorem invalid_bpp_iff (path : string) (w : world) (data : bytes) :
  lookup path (files w) = Some data ->
  (fix_bmp stem_of path w = (inl invalid_bpp, w) <->
   (firstn 2 data = BM /\ Z.of_nat (length data) < 2 ^ 32 /\
    exists h0, header data = inr h0 /\ bpp h0 < 8)) /\
  (forall w', fix_bmp stem_of path w = (inl invalid_bpp, w') -> w' = w).
Proof.
  intros Hl. split; [|intros w'; apply fix_bmp_error].
  rewrite fix_bmp_run, Hl. split.
  - destruct (corrections data) as [e'|[h0 s]] eqn:Ec.
    + intros [= ->]. apply corrections_error in Ec.
      destruct Ec as [(_ & He)|[(_ & _ & He)|[(_ & _ & [He|He])|(Hs & Hlen & _ & Hh)]]];
        try discriminate He. auto.
    + destruct (truncate s w) as [[e'|s'] w1] eqn:Et; [|discriminate].
      intros [= -> ->]. apply truncate_error in Et.
      destruct Et as (_ & f & Hf & _). discriminate Hf.
  - intros (Hs & Hlen & h0 & Hh & Hb).
    now rewrite (corrections_invalid_bpp _ _ Hs Hh Hlen Hb).
Qed.

End Fatal.

(** The stride equation read backwards: from the width that the width
    block infers, the height formula gives the height back. *)
Lemma width_round_trip (hdr : BmpHeader) (px wv : Z) :
  width_guess hdr px wv -> px <> 0 -> 0 < bpp hdr / 8 <= 4 ->
  row wv (bpp hdr) = px / height hdr /\
  row wv (bpp hdr) <> 0 /\ px mod row wv (bpp hdr) = 0 /\
  px / row wv (bpp hdr) = height hdr.
Proof.
  intros (Hh & Hm & H4 & _ & -> & _) Hpx Hbb.
  set (bb := bpp hdr / 8) in *. set (r := px / height hdr) in *.
  assert (Hpr : px = r * height hdr).
  { pose proof (Z.div_mod px (height hdr) Hh). fold r in H. lia. }
  assert (Hr : row (r / bb) (bpp hdr) = r).
  { unfold row. fold bb.
    pose proof (Z.div_mod r bb ltac:(lia)). pose proof (Z.mod_pos_bound r bb ltac:(lia)).
    pose proof (Z.div_mod r 4 ltac:(lia)).
    pose proof (Z.div_mod (r / bb * bb + 3) 4 ltac:(lia)).
    pose proof (Z.mod_pos_bound (r / bb * bb + 3) 4 ltac:(lia)).
    lia. }
  rewrite Hr. assert (Hr0 : r <> 0) by (intros E; rewrite E in Hpr; lia).
  assert (Hpr' : px = height hdr * r) by lia.
  split; [reflexivity|]. split; [exact Hr0|].
  rewrite Hpr'. split; [apply Z.mod_mul; exact Hr0|apply Z.div_mul; exact Hr0].
Qed.

Lemma no_self_cons {A : Type} (x : A) (l : list A) : l <> x :: l.
Proof.
  intros H. apply (f_equal (@length A)) in H. cbn in H. lia.
Qed.

Section Duality.

Variable stem_of : string -> string.

(** C9, amended (variant duality).  When a run of [brute_variants] writes
    both variants, the height variant carries the height
    [px // row(width, bpp)], computed from the width it shares with the
    repaired file, and this height differs from the repaired height; the
    round trip to the repaired height goes through the width variant
    instead: for [px <> 0] and at most four bytes per pixel, the height
    formula applied to the width variant's width gives the repaired
    height. *)
Theorem variant_round_trip (fp : string) (hdr : BmpHeader) (px : Z) (w w' : world)
        (pw ph : string) (nbw nbh : bytes) :
  brute_variants stem_of fp hdr px w = (inr tt, w') ->
  files w' = (pw, nbw) :: (ph, nbh) :: files w ->
  exists hv wv,
    u32 nbh 22 = inr hv /\ u32 nbw 18 = inr wv /\
    (forall nb, lookup fp (files w) = Some nb -> u32 nbh 18 = u32 nb 18) /\
    hv = px / row (width hdr) (bpp hdr) /\ hv <> height hdr /\
    (px <> 0 -> 0 < bpp hdr / 8 <= 4 ->
     row wv (bpp hdr) <> 0 /\ px mod row wv (bpp hdr) = 0 /\
     px / row wv (bpp hdr) = height hdr).
Proof.
  intros Hb Hf. apply brute_variants_inv in Hb.
  destruct Hb as (wh & ww & Hh & Hw & Hfiles). rewrite Hfiles in Hf.
  destruct Hh as [->|(hv & nb & nbh' & Gh & Lh & Vh & ->)];
    destruct Hw as [->|(wv & nb' & nbw' & Gw & Lw & Vw & ->)]; cbn [app] in Hf.
  - exfalso. symmetry in Hf. assert (files w <> (ph, nbh) :: files w) by apply no_self_cons.
    apply (f_equal (@length _)) in Hf. cbn in Hf. lia.
  - exfalso. injection Hf as _ _ Hf. exact (no_self_cons _ _ Hf).
  - exfalso. injection Hf as _ _ Hf. exact (no_self_cons _ _ Hf).
  - injection Hf as <- <- <- <-.
    destruct (variant_of_fields Height hv nb nbh' ltac:(discriminate) Vh)
      as (_ & Hf22 & _ & Hfr).
    destruct (variant_of_fields Width wv nb' nbw' ltac:(discriminate) Vw)
      as (_ & Hf18 & _ & _).
    exists hv, wv. split; [exact Hf22|]. split; [exact Hf18|]. split.
    { intros nb0 Hnb0. assert (nb0 = nb) as -> by congruence.
      destruct Vh as (nb1 & P1 & P2). unfold u32, p32 in *.
      rewrite (unpack_pack_other _ _ _ _ _ _ _ P2) by lia.
      apply (unpack_pack_other _ _ _ _ _ _ _ P1). cbn. lia. }
    destruct Gh as (_ & _ & Hhv & Hne). split; [exact Hhv|]. split; [exact Hne|].
    intros Hpx Hbb. destruct (width_round_trip _ _ _ Gw Hpx Hbb) as (_ & H1 & H2 & H3).
    auto.
Qed.

End Duality.

(** * Trailing bytes *)

Section Trailing.

Variable stem_of : string -> string.

(** The intended case of the truncation: with at least six bytes to
    keep, [fix] cuts the corrected buffer at [expected], writes the new
    length into the size field and reports it, without a warning. *)
Lemma truncation_exact (path : string) (w : world) (data : bytes)
      (h0 : BmpHeader) (s : state) :
  lookup path (files w) = Some data ->
  corrections data = inr (h0, s) ->
  Z.of_nat (length (buf s)) > expected (hdr s) -> 6 <= expected (hdr s) ->
  exists out w',
    fix_bmp stem_of path w
      = (inr ((stem_of path ++ "_fix.bmp")%string,
              set_file_size (expected (hdr s)) (hdr s),
              expected (hdr s) - offset (hdr s)), w') /\
    files w' = ((stem_of path ++ "_fix.bmp")%string, out) :: files w /\
    Z.of_nat (length out) = expected (hdr s) /\
    u32 out 2 = inr (expected (hdr s)) /\
    (forall i, (i < length out)%nat -> (i < 2 \/ 6 <= i)%nat ->
               nth_error out i = nth_error (buf s) i) /\
    ~ In truncation_warning (printed w w').
Proof.
  intros Hl Hc Hgt H6.
  pose proof (corrections_corrected _ _ _ Hc) as C.
  assert (Hs : Z.of_nat (length (buf s)) < 2 ^ 32)
    by (rewrite (cor_length _ _ _ C); exact (cor_small _ _ _ C)).
  destruct (truncate_long s w (cor_wf _ _ _ C) Hgt H6 Hs) as (b' & Hp & Ht).
  pose proof (pack_into_length _ _ _ _ _ Hp) as HL.
  rewrite length_firstn in HL.
  assert (HL' : Z.of_nat (length b') = expected (hdr s)) by lia.
  exists b'. eexists. rewrite fix_bmp_run, Hl, Hc, Ht.
  split.
  { unfold bytes_px. cbn [buf hdr offset set_file_size]. rewrite HL'. reflexivity. }
  split; [reflexivity|]. split; [exact HL'|]. split.
  { exact (unpack_pack_same _ _ _ _ _ Hp). }
  split.
  { intros i Hi Hn. rewrite (pack_into_nth_other _ _ _ _ _ _ Hp) by lia.
    rewrite nth_error_firstn.
    replace (i <? Z.to_nat (expected (hdr s)))%nat with true; [reflexivity|].
    symmetry. apply Nat.ltb_lt. lia. }
  rewrite (finish_printed _ _ _ w w []) by (now rewrite app_nil_r).
  apply report_quiet.
Qed.

(** The missed case: when fewer than six bytes are to be kept, the size
    field no longer fits in the cut buffer, and [fix] ends in the
    [struct.error] of [pack_into], before its write. *)
Lemma truncation_crash (path : string) (w : world) (data : bytes)
      (h0 : BmpHeader) (s : state) :
  lookup path (files w) = Some data ->
  corrections data = inr (h0, s) ->
  Z.of_nat (length (buf s)) > expected (hdr s) -> expected (hdr s) < 6 ->
  fix_bmp stem_of path w = (inl (StructError PackShort), w).
Proof.
  intros Hl Hc Hgt H6.
  pose proof (corrections_corrected _ _ _ Hc) as C.
  rewrite fix_bmp_run, Hl, Hc.
  now rewrite (truncate_too_short s w (cor_wf _ _ _ C) Hgt H6).
Qed.

End Trailing.

(** * Running the variant generator *)

Lemma variant_of_total (f : field) (v : Z) (nb : bytes) :
  (26 <= length nb)%nat -> Z.of_nat (length nb) < 2 ^ 32 -> 0 <= v < 2 ^ 32 ->
  exists nbv, variant_of f v nb nbv.
Proof.
  intros Hl Hs Hv. unfold variant_of.
  destruct (p32_total nb (field_off f) v) as [nb1 H1]; [destruct f; cbn; lia|exact Hv|].
  pose proof (pack_into_length _ _ _ _ _ H1) as L1.
  destruct (p32_total nb1 2 (Z.of_nat (length nb1))) as [nbv H2]; [lia|lia|].
  exists nbv, nb1. auto.
Qed.

Section VariantRuns.

Variable stem_of : string -> string.

Lemma height_variant_run (fp : string) (hdr : BmpHeader) (px hv : Z)
      (vs : list string) (w : world) (nb nbh : bytes) :
  height_guess hdr px hv -> lookup fp (files w) = Some nb ->
  variant_of Height hv nb nbh ->
  height_variant stem_of fp hdr px vs w
    = (inr (vs ++ [variant_path (stem_of fp) "_h" hv]),
       add_file (variant_path (stem_of fp) "_h" hv) nbh w).
Proof.
  intros (H0 & H1 & -> & H2) Hl (nb1 & P1 & P2). unfold height_variant.
  apply Z.eqb_neq in H0, H2. apply Z.eqb_eq in H1.
  rewrite H0, H1, H2. cbn [negb andb].
  unfold bind, read_bytes, lift, write_bytes, ret. rewrite Hl.
  cbn [field_off] in P1. rewrite P1, P2. reflexivity.
Qed.

Lemma width_variant_run (fp : string) (hdr : BmpHeader) (px wv : Z)
      (vs : list string) (w : world) (nb nbw : bytes) :
  width_guess hdr px wv -> lookup fp (files w) = Some nb ->
  variant_of Width wv nb nbw ->
  width_variant stem_of fp hdr px (bpp hdr / 8) vs w
    = (inr (vs ++ [variant_path (stem_of fp) "_w" wv]),
       add_file (variant_path (stem_of fp) "_w" wv) nbw w).
Proof.
  intros (H0 & H1 & H2 & H3 & -> & H4) Hl (nb1 & P1 & P2). unfold width_variant.
  apply Z.eqb_neq in H0, H3, H4. apply Z.eqb_eq in H1, H2.
  rewrite H0, H1, H2. cbn [negb andb].
  unfold bind at 1. rewrite H3. unfold ret at 1. rewrite H4. cbn [negb].
  unfold bind, read_bytes, lift, write_bytes, ret. rewrite Hl.
  cbn [field_off] in P1. rewrite P1, P2. reflexivity.
Qed.

(** Both blocks fire: two files are written, the height variant first. *)
Lemma brute_variants_both (fp : string) (hdr : BmpHeader) (px hv wv : Z)
      (w : world) (nb nbh : bytes) :
  height_guess hdr px hv -> width_guess hdr px wv ->
  lookup fp (files w) = Some nb -> variant_of Height hv nb nbh ->
  (forall nb', lookup fp ((variant_path (stem_of fp) "_h" hv, nbh) :: files w) = Some nb' ->
               exists nbw, variant_of Width wv nb' nbw) ->
  exists w' nbw,
    brute_variants stem_of fp hdr px w = (inr tt, w') /\
    files w' = (variant_path (stem_of fp) "_w" wv, nbw)
                 :: (variant_path (stem_of fp) "_h" hv, nbh) :: files w.
Proof.
  intros Gh Gw Hl Vh Hw.
  unfold brute_variants. unfold bind at 1. unfold mkdir at 1.
  unfold bind at 1.
  rewrite (height_variant_run fp hdr px hv []
             (mkWorld (files w) ("variants"%string :: dirs w) (console w)) nb nbh Gh Hl Vh).
  unfold bind at 1.
  destruct (lookup fp ((variant_path (stem_of fp) "_h" hv, nbh) :: files w))
    as [nb'|] eqn:El.
  2:{ exfalso. cbn in El. destruct (String.eqb fp _); [discriminate|]. congruence. }
  destruct (Hw nb' eq_refl) as (nbw & Vw).
  rewrite (width_variant_run fp hdr px wv _
             (add_file (variant_path (stem_of fp) "_h" hv) nbh
                (mkWorld (files w) ("variants"%string :: dirs w) (console w)))
             nb' nbw Gw El Vw).
  match goal with
  | |- context [print_variants ?vs ?w0] =>
      destruct (print_variants_files vs w0) as (w' & Hp & Hf)
  end.
  exists w', nbw. split; [exact Hp|]. rewrite Hf. reflexivity.
Qed.

(** C10 (height variant of height zero).  [fix] repairs the 54-byte
    true-colour file [sample_short] to a header of width one and height
    one with no pixel bytes, because its own height inference refuses a
    zero height; from that state [brute_variants] does write a height
    variant, and the height field of that file is zero. *)
Theorem height_variant_zero :
  exists p h w1 w2 vb,
    fix_bmp stem_of "img.bmp" (disk sample_short) = (inr (p, h, 0), w1) /\
    width h = 1 /\ height h = 1 /\
    brute_variants stem_of p h 0 w1 = (inr tt, w2) /\
    In (variant_path (stem_of p) "_h" 0, vb) (files w2) /\
    ~ In (variant_path (stem_of p) "_h" 0, vb) (files w1) /\
    u32 vb 22 = inr 0.
Proof.
  assert (Hc : corrections sample_short
               = inr (mkHeader 0 54 40 1 1 24,
                      mkState (bmp_file 54 54 40 1 1 24 24)
                              (mkHeader 54 54 40 1 1 24) true))
    by (vm_compute; reflexivity).
  destruct (fix_bmp_short stem_of "img.bmp" (disk sample_short) sample_short _ _
              eq_refl Hc ltac:(vm_compute; reflexivity)) as (w1 & Hf & Hfiles & _).
  cbn [hdr buf] in Hf, Hfiles. change (bytes_px _) with 0 in Hf.
  set (p := (stem_of "img.bmp" ++ "_fix.bmp")%string) in *.
  set (fixed := bmp_file 54 54 40 1 1 24 24) in *.
  set (h := mkHeader 54 54 40 1 1 24) in *.
  assert (Gh : height_guess h 0 0) by (vm_compute; repeat split; discriminate).
  assert (Gw : width_guess h 0 0) by (vm_compute; repeat split; discriminate).
  assert (Hl : lookup p (files w1) = Some fixed) by (rewrite Hfiles; apply lookup_head).
  destruct (variant_of_total Height 0 fixed) as (nbh & Vh);
    [vm_compute; lia | vm_compute; reflexivity | lia |].
  destruct (variant_of_fields Height 0 fixed nbh ltac:(discriminate) Vh)
    as (Lh & F22 & _ & _).
  destruct (brute_variants_both p h 0 0 0 w1 fixed nbh Gh Gw Hl Vh) as (w2 & nbw & Hb & Hf2).
  { intros nb' Hnb'.
    assert (Hlen : length nb' = 54%nat).
    { rewrite lookup_cons in Hnb'. destruct (String.eqb p _).
      - injection Hnb' as <-. rewrite Lh. reflexivity.
      - rewrite Hl in Hnb'. injection Hnb' as <-. reflexivity. }
    apply variant_of_total; rewrite ?Hlen; [lia|reflexivity|lia]. }
  exists p, h, w1, w2, nbh.
  split; [exact Hf|]. split; [reflexivity|]. split; [reflexivity|].
  split; [exact Hb|]. split; [rewrite Hf2; right; now left|].
  split; [|exact F22].
  rewrite Hfiles. cbn [In files disk]. intros [H|[H|[]]].
  - apply (f_equal snd) in H. cbn [snd] in H.
    rewrite <- H in F22. vm_compute in F22. discriminate F22.
  - apply (f_equal snd) in H. cbn [snd] in H.
    rewrite <- H in F22. vm_compute in F22. discriminate F22.
Qed.

End VariantRuns.

(** * Worked examples *)

(** C4 (truncation below the size field).  [sample_tiny] has thirty bytes
    and eight bits per pixel; its corrected header has offset, width and
    height zero, so [expected] is zero and the buffer is longer.  [fix]
    cuts the buffer to nothing, the write of the size field then raises
    [struct.error], and no file is written: the buffer is not truncated
    to [expected] with its size field set. *)
Theorem truncation_below_size_field (stem_of : string -> string) :
  (exists h0 s, corrections sample_tiny = inr (h0, s) /\
                Z.of_nat (length (buf s)) = 30 /\ expected (hdr s) = 0) /\
  fix_bmp stem_of "img.bmp" (disk sample_tiny)
    = (inl (StructError PackShort), disk sample_tiny).
Proof.
  split.
  - do 2 eexists. split; [vm_compute; reflexivity|]. split; reflexivity.
  - rewrite fix_bmp_run. reflexivity.
Qed.

(** The stride invariant on a correct two by two image. *)
Lemma stride_invariant_witness :
  exists out,
    lookup "img_fix.bmp"
      (files (snd (fix_bmp sample_stem "img.bmp" (disk sample_tight)))) = Some out /\
    row 2 24 * 2 = Z.of_nat (length out) - 54 /\
    row 2 24 = cdiv (2 * (24 / 8)) 4 * 4 /\
    (24 mod 8 = 0 -> row 2 24 = cdiv (2 * 24) 32 * 4) /\
    16 = row 2 24 * 2 /\
    ((30 <= length out)%nat -> header out = inr (mkHeader 70 54 40 2 2 24)).
Proof.
  apply (stride_invariant sample_stem "img.bmp" (disk sample_tight)
           (snd (fix_bmp sample_stem "img.bmp" (disk sample_tight)))
           sample_tight "img_fix.bmp" (mkHeader 70 54 40 2 2 24) 16).
  - reflexivity.
  - vm_compute. reflexivity.
  - vm_compute. intros H.
    repeat (destruct H as [H|H]; [discriminate H|]). exact H.
Defined.

(** The warning on a header without pixel data. *)
Lemma truncation_reported_witness :
  exists w',
    fix_bmp sample_stem "img.bmp" (disk sample_short)
      = (inr ("img_fix.bmp"%string, mkHeader 54 54 40 1 1 24, 0), w') /\
    files w' = ("img_fix.bmp"%string, bmp_file 54 54 40 1 1 24 24)
                 :: files (disk sample_short) /\
    length (bmp_file 54 54 40 1 1 24 24) = length sample_short /\
    In truncation_warning (printed (disk sample_short) w').
Proof.
  apply (truncation_reported sample_stem "img.bmp" (disk sample_short) sample_short
           (mkHeader 0 54 40 1 1 24)
           (mkState (bmp_file 54 54 40 1 1 24 24) (mkHeader 54 54 40 1 1 24) true)).
  - reflexivity.
  - vm_compute. reflexivity.
  - vm_compute. reflexivity.
Defined.

(** The offset 58 of an indexed image is kept. *)
Lemma offset_untouched_witness :
  58 = (if (8 <? 8) && negb (58 =? 54) then 54 else 58) /\
  (8 <= 8 ->
   58 = 58 /\
   exists out,
     lookup "img_fix.bmp"
       (files (snd (fix_bmp sample_stem "img.bmp" (disk sample_indexed)))) = Some out /\
     forall i, (10 <= i < 14)%nat -> (i < length out)%nat ->
               nth_error out i = nth_error sample_indexed i).
Proof.
  apply (offset_untouched sample_stem "img.bmp" (disk sample_indexed)
           (snd (fix_bmp sample_stem "img.bmp" (disk sample_indexed)))
           sample_indexed (mkHeader 66 58 40 4 2 8)
           "img_fix.bmp" (mkHeader 66 58 40 4 2 8) 8).
  - reflexivity.
  - vm_compute. reflexivity.
  - vm_compute. reflexivity.
Defined.

(** The frame on an image followed by fifty more bytes. *)
Lemma repair_frame_witness :
  exists out,
    files (snd (fix_bmp sample_stem "img.bmp" (disk sample_trailing)))
      = ("img_fix.bmp"%string, out) :: files (disk sample_trailing) /\
    (length out <= length sample_trailing)%nat /\
    (forall i, (i < length out)%nat -> in_field i = false ->
               nth_error out i = nth_error sample_trailing i) /\
    (forall i, (30 <= i < length out)%nat ->
               nth_error out i = nth_error sample_trailing i) /\
    (26 <= 54 ->
     forall i, 54 <= Z.of_nat i -> (i < length out)%nat ->
               nth_error out i = nth_error sample_trailing i).
Proof.
  apply (repair_frame sample_stem "img.bmp" (disk sample_trailing)
           (snd (fix_bmp sample_stem "img.bmp" (disk sample_trailing)))
           sample_trailing "img_fix.bmp" (mkHeader 70 54 40 2 2 24) 16).
  - reflexivity.
  - vm_compute. reflexivity.
Defined.

(** The format error of a file of two bytes. *)
Lemma format_error_iff_witness :
  ((exists e, fix_bmp sample_stem "img.bmp" (disk BM) = (inl e, disk BM) /\
              format_error e) <->
   ((length BM < 30)%nat \/ firstn 2 BM <> BM)) /\
  (forall e w', fix_bmp sample_stem "img.bmp" (disk BM) = (inl e, w') ->
                w' = disk BM) /\
  (forall brute info e w',
     main sample_stem "img.bmp" brute info (disk BM) = (inl e, w') ->
     format_error e \/ e = invalid_bpp -> files w' = files (disk BM)).
Proof.
  apply (format_error_iff sample_stem "img.bmp" (disk BM) BM).
  reflexivity.
Defined.

(** The refusal of four bits per pixel. *)
Lemma invalid_bpp_iff_witness :
  (fix_bmp sample_stem "img.bmp" (disk sample_bpp4)
     = (inl invalid_bpp, disk sample_bpp4) <->
   (firstn 2 sample_bpp4 = BM /\ Z.of_nat (length sample_bpp4) < 2 ^ 32 /\
    exists h0, header sample_bpp4 = inr h0 /\ bpp h0 < 8)) /\
  (forall w', fix_bmp sample_stem "img.bmp" (disk sample_bpp4) = (inl invalid_bpp, w') ->
              w' = disk sample_bpp4).
Proof.
  apply (invalid_bpp_iff sample_stem "img.bmp" (disk sample_bpp4) sample_bpp4).
  reflexivity.
Defined.

(** Twelve bits per pixel, no multiple of eight, are not refused. *)
Lemma invalid_bpp_counterexample :
  header sample_bpp12 = inr (mkHeader 58 54 40 4 1 12) /\
  12 mod 8 <> 0 /\
  fst (fix_bmp sample_stem "img.bmp" (disk sample_bpp12))
    = inr ("img_fix.bmp"%string, mkHeader 58 54 40 4 1 12, 4).
Proof.
  split; [vm_compute; reflexivity|]. split; [discriminate|].
  vm_compute. reflexivity.
Qed.

(** A correct image that [fix] leaves alone. *)
Lemma idempotent_when_tight_witness :
  corrections sample_tight
    = inr (mkHeader 70 54 40 2 2 24, mkState sample_tight (mkHeader 70 54 40 2 2 24) false) /\
  exists w',
    fix_bmp sample_stem "img.bmp" (disk sample_tight)
      = (inr ("img_fix.bmp"%string, mkHeader 70 54 40 2 2 24, 16), w') /\
    files w' = ("img_fix.bmp"%string, sample_tight) :: files (disk sample_tight) /\
    printed (disk sample_tight) w'
      = report_lines "img_fix.bmp" (mkHeader 70 54 40 2 2 24) (mkHeader 70 54 40 2 2 24) /\
    ~ In truncation_warning (printed (disk sample_tight) w').
Proof.
  apply (idempotent_when_tight sample_stem "img.bmp" (disk sample_tight) sample_tight
           (mkHeader 70 54 40 2 2 24)).
  - reflexivity.
  - reflexivity.
  - vm_compute. reflexivity.
  - vm_compute. repeat split; intros; reflexivity.
  - vm_compute. discriminate.
  - right; right. vm_compute. reflexivity.
Defined.

(** A correct three by one image: all four invariants hold, and [fix]
    still rewrites the width to four, the number of whole pixels that fit
    the padded row. *)
Lemma idempotence_counterexample :
  firstn 2 sample_loose = BM /\
  header sample_loose = inr (mkHeader 66 54 40 3 1 24) /\
  consistent sample_loose (mkHeader 66 54 40 3 1 24) /\
  fst (fix_bmp sample_stem "img.bmp" (disk sample_loose))
    = inr ("img_fix.bmp"%string, mkHeader 66 54 40 4 1 24, 12) /\
  lookup "img_fix.bmp" (files (snd (fix_bmp sample_stem "img.bmp" (disk sample_loose))))
    = Some (bmp_file 66 54 40 4 1 24 36) /\
  bmp_file 66 54 40 4 1 24 36 <> sample_loose.
Proof.
  split; [reflexivity|]. split; [vm_compute; reflexivity|].
  split; [vm_compute; repeat split; intros; reflexivity|].
  split; [vm_compute; reflexivity|]. split; [vm_compute; reflexivity|].
  vm_compute. discriminate.
Qed.

(** Both variants of an ambiguous image, and the round trip through the
    width variant. *)
Lemma variant_round_trip_witness :
  exists hv wv,
    u32 (bmp_file 102 54 40 3 12 8 72) 22 = inr hv /\
    u32 (bmp_file 102 54 40 12 4 8 72) 18 = inr wv /\
    (forall nb, lookup "img_fix.bmp" [("img_fix.bmp"%string, sample_ambiguous)] = Some nb ->
                u32 (bmp_file 102 54 40 3 12 8 72) 18 = u32 nb 18) /\
    hv = 48 / row 3 8 /\ hv <> 4 /\
    (48 <> 0 -> 0 < 8 / 8 <= 4 ->
     row wv 8 <> 0 /\ 48 mod row wv 8 = 0 /\ 48 / row wv 8 = 4).
Proof.
  apply (variant_round_trip sample_stem "img_fix.bmp" (mkHeader 102 54 40 3 4 8) 48
           (mkWorld [("img_fix.bmp"%string, sample_ambiguous)] [] [])
           (snd (brute_variants sample_stem "img_fix.bmp" (mkHeader 102 54 40 3 4 8) 48
                   (mkWorld [("img_fix.bmp"%string, sample_ambiguous)] [] [])))
           "variants/img_fix_w12.bmp" "variants/img_fix_h12.bmp"
           (bmp_file 102 54 40 12 4 8 72) (bmp_file 102 54 40 3 12 8 72)).
  - vm_compute. reflexivity.
  - vm_compute. reflexivity.
Defined.

(** The state that [fix] leaves for [sample_short]: both variants are
    written, the height variant keeps the width one, and the height
    formula at that width gives zero, not the repaired height one. *)
Lemma variant_duality_counterexample :
  fst (fix_bmp sample_stem "img.bmp" (disk sample_short))
    = inr ("img_fix.bmp"%string, mkHeader 54 54 40 1 1 24, 0) /\
  exists w2 nbw nbh,
    brute_variants sample_stem "img_fix.bmp" (mkHeader 54 54 40 1 1 24) 0
      (snd (fix_bmp sample_stem "img.bmp" (disk sample_short))) = (inr tt, w2) /\
    files w2 = ("variants/img_fix_w0.bmp"%string, nbw)
                 :: ("variants/img_fix_h0.bmp"%string, nbh)
                 :: files (snd (fix_bmp sample_stem "img.bmp" (disk sample_short))) /\
    u32 nbh 18 = inr 1 /\
    0 / row 1 24 <> height (mkHeader 54 54 40 1 1 24).
Proof.
  split; [vm_compute; reflexivity|].
  do 3 eexists. split; [vm_compute; reflexivity|].
  split; [vm_compute; reflexivity|]. split; [vm_compute; reflexivity|].
  vm_compute. discriminate.
Qed.

(** * Further properties: the [struct] helpers, [row] and [header] *)

(** X1.  What [p32] writes, [u32] reads back: after a successful
    [p32(b, o, v)] the buffer has its old length, [u32] at [o] gives [v],
    every byte outside the four written ones is as before, and so is every
    32-bit or 16-bit field that does not overlap them. *)
Theorem p32_u32_round_trip (b b' : bytes) (o : nat) (v : Z) :
  p32 b o v = inr b' ->
  u32 b' o = inr v /\
  length b' = length b /\
  (forall i, (i < o \/ o + 4 <= i)%nat -> nth_error b' i = nth_error b i) /\
  (forall o', (o' + 4 <= o \/ o + 4 <= o')%nat -> u32 b' o' = u32 b o') /\
  (forall o', (o' + 2 <= o \/ o + 4 <= o')%nat -> u16 b' o' = u16 b o').
Proof.
  intros H. unfold p32, u32, u16 in *.
  split; [exact (unpack_pack_same _ _ _ _ _ H)|].
  split; [exact (pack_into_length _ _ _ _ _ H)|].
  split; [intros i Hi; exact (pack_into_nth_other _ _ _ _ _ _ H Hi)|].
  split; intros o' Ho'; exact (unpack_pack_other _ _ _ _ _ _ _ H Ho').
Qed.

Lemma p32_u32_round_trip_witness :
  u32 (bmp_file 30 0 0 0 0 8 0) 2 = inr 30 /\
  length (bmp_file 30 0 0 0 0 8 0) = length sample_tiny /\
  (forall i, (i < 2 \/ 2 + 4 <= i)%nat ->
             nth_error (bmp_file 30 0 0 0 0 8 0) i = nth_error sample_tiny i) /\
  (forall o', (o' + 4 <= 2 \/ 2 + 4 <= o')%nat ->
              u32 (bmp_file 30 0 0 0 0 8 0) o' = u32 sample_tiny o') /\
  (forall o', (o' + 2 <= 2 \/ 2 + 4 <= o')%nat ->
              u16 (bmp_file 30 0 0 0 0 8 0) o' = u16 sample_tiny o').
Proof.
  apply (p32_u32_round_trip sample_tiny (bmp_file 30 0 0 0 0 8 0) 2 30).
  vm_compute. reflexivity.
Defined.



(** X4.  [row(w, bpp)] is the least multiple of four that holds
    [w * (bpp // 8)] bytes. *)
Theorem row_least_multiple (w bpp : Z) :
  row w bpp mod 4 = 0 /\
  w * (bpp / 8) <= row w bpp < w * (bpp / 8) + 4 /\
  (forall m, m mod 4 = 0 -> w * (bpp / 8) <= m -> row w bpp <= m).
Proof.
  split; [apply row_mod4|]. split; [apply row_bounds|].
  intros m Hm Hle. pose proof (row_bounds w bpp) as Hb.
  pose proof (row_mod4 w bpp) as Hr.
  pose proof (Z.div_mod m 4 ltac:(lia)). pose proof (Z.div_mod (row w bpp) 4 ltac:(lia)).
  lia.
Qed.

(** X5.  [header] checks no signature: it succeeds exactly on buffers of
    thirty bytes or more, raises [struct.error] on shorter ones, returns
    fields within their widths, and reads nothing past byte thirty. *)
Theorem header_needs_thirty_bytes (b : bytes) :
  ((exists h, header b = inr h) <-> (30 <= length b)%nat) /\
  ((length b < 30)%nat <-> header b = inl (StructError UnpackShort)) /\
  (forall h, header b = inr h -> hdr_wf h) /\
  (forall k, (30 <= k <= length b)%nat -> header (firstn k b) = header b) /\
  (forall extra, (30 <= length b)%nat -> header (b ++ extra) = header b).
Proof.
  split; [apply header_ok_iff|]. split.
  { split; [apply header_short|]. intros H.
    destruct (Nat.lt_ge_cases (length b) 30) as [Hlt|Hge]; [exact Hlt|].
    apply header_ok_iff in Hge. destruct Hge as [h Hh]. congruence. }
  split; [intros h; apply header_wf|]. split.
  { intros k [Hk1 Hk2].
    destruct (proj2 (header_ok_iff b) ltac:(lia)) as [h Hh].
    rewrite Hh. apply header_firstn; assumption. }
  intros extra Hl.
  destruct (proj2 (header_ok_iff (b ++ extra)) ltac:(rewrite length_app; lia)) as [h Hh].
  rewrite Hh. symmetry.
  pose proof (header_firstn (b ++ extra) (length b) h Hl ltac:(rewrite length_app; lia) Hh) as H.
  rewrite firstn_app, Nat.sub_diag, firstn_all, firstn_O, app_nil_r in H. exact H.
Qed.

(** X6.  Writing one of the five fields with [p32] at its offset changes
    that field of the parsed header to the value written and no other
    field. *)
Theorem header_after_p32 (f : field) (b b' : bytes) (h : BmpHeader) (v : Z) :
  header b = inr h -> p32 b (field_off f) v = inr b' ->
  header b' = inr (set_field f v h) /\
  get_field f (set_field f v h) = v /\
  bpp (set_field f v h) = bpp h /\
  (forall g, g <> f -> get_field g (set_field f v h) = get_field g h).
Proof.
  intros Hh Hp. split; [exact (p32_sync _ _ _ _ _ Hh Hp)|].
  split; [destruct f; reflexivity|]. split; [destruct f; reflexivity|].
  intros g Hg. destruct f, g; try reflexivity; congruence.
Qed.

Lemma header_after_p32_witness :
  header (bmp_file 70 54 40 5 2 24 40) = inr (set_field Width 5 (mkHeader 70 54 40 2 2 24)) /\
  get_field Width (set_field Width 5 (mkHeader 70 54 40 2 2 24)) = 5 /\
  bpp (set_field Width 5 (mkHeader 70 54 40 2 2 24)) = bpp (mkHeader 70 54 40 2 2 24) /\
  (forall g, g <> Width ->
     get_field g (set_field Width 5 (mkHeader 70 54 40 2 2 24))
       = get_field g (mkHeader 70 54 40 2 2 24)).
Proof.
  apply (header_after_p32 Width sample_tight (bmp_file 70 54 40 5 2 24 40)
           (mkHeader 70 54 40 2 2 24) 5).
  - vm_compute. reflexivity.
  - vm_compute. reflexivity.
Defined.

(** * Further properties: the repair engine *)

Lemma fix_offset_total (s : state) :
  (14 <= length (buf s))%nat -> exists s', fix_offset s = inr s'.
Proof.
  intros H. unfold fix_offset. destruct (_ && _); [|eauto].
  destruct (p32_total (buf s) 10 54) as [b' ->]; [lia|lia|]. cbn. eauto.
Qed.

(** With a pixel-byte count that is not negative, the width written is
    within range. *)
Lemma fix_width_total (bb : Z) (s : state) :
  hdr_wf (hdr s) -> 0 < bb -> 0 <= bytes_px s ->
  (22 <= length (buf s))%nat -> Z.of_nat (length (buf s)) < 2 ^ 32 ->
  exists s', fix_width bb s = inr s'.
Proof.
  intros (_ & Ho & _ & _ & Hh & _) Hbb Hpx Hl Hs. unfold fix_width.
  destruct (height (hdr s) =? 0) eqn:E; cbn [negb andb]; [eauto|].
  destruct (bytes_px s mod height (hdr s) =? 0); [|eauto].
  destruct (bytes_px s / height (hdr s) mod 4 =? 0); [|eauto].
  destruct (_ && _); [|eauto].
  apply Z.eqb_neq in E.
  assert (0 <= bytes_px s / height (hdr s) <= bytes_px s).
  { split; [apply Z.div_pos; lia|].
    apply Z.div_le_upper_bound; [lia|]. nia. }
  assert (0 <= bytes_px s / height (hdr s) / bb <= bytes_px s / height (hdr s)).
  { split; [apply Z.div_pos; lia|].
    apply Z.div_le_upper_bound; [lia|]. nia. }
  unfold bytes_px in *.
  destruct (p32_total (buf s) 18
              ((Z.of_nat (length (buf s)) - offset (hdr s)) / height (hdr s) / bb))
    as [b' ->]; [lia|lia|]. cbn. eauto.
Qed.

Lemma fix_height_total (s : state) :
  hdr_wf (hdr s) -> 0 <= bytes_px s ->
  (26 <= length (buf s))%nat -> Z.of_nat (length (buf s)) < 2 ^ 32 ->
  exists s', fix_height s = inr s'.
Proof.
  intros (_ & Ho & _ & Hw & _ & Hb) Hpx Hl Hs. unfold fix_height.
  destruct (row (width (hdr s)) (bpp (hdr s)) =? 0) eqn:E; cbn [negb andb]; [eauto|].
  destruct (bytes_px s mod row (width (hdr s)) (bpp (hdr s)) =? 0); [|eauto].
  destruct (_ && _); [|eauto].
  apply Z.eqb_neq in E.
  pose proof (row_nonneg (width (hdr s)) (bpp (hdr s)) ltac:(lia) ltac:(lia)).
  assert (0 <= bytes_px s / row (width (hdr s)) (bpp (hdr s)) <= bytes_px s).
  { split; [apply Z.div_pos; lia|].
    apply Z.div_le_upper_bound; [lia|]. nia. }
  unfold bytes_px in *.
  destruct (p32_total (buf s) 22
              ((Z.of_nat (length (buf s)) - offset (hdr s))
                 / row (width (hdr s)) (bpp (hdr s))))
    as [b' ->]; [lia|lia|]. cbn. eauto.
Qed.

(** When the pixel bytes are a whole, non-zero number of rows, the height
    that leaves the height inference is that number. *)
Lemma fix_height_post (s s' : state) :
  fix_height s = inr s' ->
  row (width (hdr s)) (bpp (hdr s)) <> 0 ->
  bytes_px s mod row (width (hdr s)) (bpp (hdr s)) = 0 ->
  bytes_px s / row (width (hdr s)) (bpp (hdr s)) <> 0 ->
  height (hdr s') = bytes_px s / row (width (hdr s)) (bpp (hdr s)) /\
  width (hdr s') = width (hdr s) /\ bpp (hdr s') = bpp (hdr s) /\
  offset (hdr s') = offset (hdr s) /\ length (buf s') = length (buf s).
Proof.
  intros H Hr Hm Hq. revert H. unfold fix_height.
  apply Z.eqb_neq in Hr, Hq. apply Z.eqb_eq in Hm. rewrite Hr, Hm, Hq.
  cbn [negb andb].
  destruct (_ =? height (hdr s)) eqn:E; cbn [negb].
  - intros [= <-]. apply Z.eqb_eq in E. auto.
  - unfold rbind. destruct (p32 _ _ _) as [e|b'] eqn:Hp; [discriminate|].
    intros [= <-]. cbn. repeat split. exact (pack_into_length _ _ _ _ _ Hp).
Qed.

(** The first three corrections cannot fail on a parsed file below 2^32
    bytes; they leave width, height and depth as parsed. *)
Lemma corrections_split (data : bytes) (h0 : BmpHeader) :
  firstn 2 data = BM -> header data = inr h0 ->
  Z.of_nat (length data) < 2 ^ 32 ->
  exists s3,
    corrections data
      = (if bpp h0 / 8 =? 0 then inl invalid_bpp
         else rbind (fix_width (bpp h0 / 8) s3)
                (fun s => rbind (fix_height s) (fun s' => inr (h0, s')))) /\
    length (buf s3) = length data /\
    offset (hdr s3) = pixel_offset h0 /\
    width (hdr s3) = width h0 /\ height (hdr s3) = height h0 /\
    bpp (hdr s3) = bpp h0 /\ hdr_wf (hdr s3).
Proof.
  intros Hs Hh Hl.
  assert (H30 : (30 <= length data)%nat) by (apply header_ok_iff; eauto).
  pose proof (header_wf _ _ Hh) as W0.
  destruct (fix_offset_total (mkState data h0 false)) as [s1 E1]; [cbn; lia|].
  pose proof (fix_offset_updates _ _ E1) as U1.
  pose proof (updates_length _ _ _ U1) as L1. cbn [buf] in L1.
  destruct (fix_dib_size_total s1) as [s2 E2]; [lia|].
  pose proof (fix_dib_size_updates _ _ E2) as U2.
  pose proof (updates_length _ _ _ U2) as L2.
  destruct (fix_file_size_total s2) as [s3 E3]; [lia|lia|].
  pose proof (fix_file_size_updates _ _ E3) as U3.
  pose proof (updates_length _ _ _ U3) as L3.
  exists s3. split.
  { unfold corrections. apply signature_test in Hs. rewrite Hs. cbn [negb].
    rewrite Hh. cbn [rbind]. rewrite E1. cbn [rbind]. rewrite E2. cbn [rbind].
    rewrite E3. cbn [rbind].
    rewrite (updates_bpp _ _ _ U3), (updates_bpp _ _ _ U2), (updates_bpp _ _ _ U1).
    cbn [hdr]. reflexivity. }
  split; [lia|]. split.
  { change (get_field Offset (hdr s3) = pixel_offset h0).
    rewrite (updates_other _ Offset _ _ U3), (updates_other _ Offset _ _ U2)
      by discriminate.
    cbn [get_field]. rewrite (fix_offset_value _ _ E1). cbn [hdr].
    unfold pixel_offset. destruct (8 <? bpp h0); cbn [andb]; [|reflexivity].
    destruct (offset h0 =? 54) eqn:E; cbn [negb]; [|reflexivity].
    now apply Z.eqb_eq in E. }
  split.
  { change (get_field Width (hdr s3) = get_field Width h0).
    rewrite (updates_other _ Width _ _ U3), (updates_other _ Width _ _ U2),
      (updates_other _ Width _ _ U1) by discriminate. reflexivity. }
  split.
  { change (get_field Height (hdr s3) = get_field Height h0).
    rewrite (updates_other _ Height _ _ U3), (updates_other _ Height _ _ U2),
      (updates_other _ Height _ _ U1) by discriminate. reflexivity. }
  split.
  { rewrite (updates_bpp _ _ _ U3), (updates_bpp _ _ _ U2), (updates_bpp _ _ _ U1).
    reflexivity. }
  eauto using updates_wf.
Qed.

Section RepairMore.

Variable stem_of : string -> string.

(** X7.  Whatever [fix] returns without an exception, the header it
    returns has DIB size 40, offset 54 when the depth is above eight, the
    depth that was parsed (never below eight), and a size field equal to
    the length of the buffer written, which holds that length at offset 2;
    the returned pixel-byte count is that length minus the offset. *)
Theorem repaired_header_invariants (path : string) (w w' : world) (data : bytes)
        (p : string) (h : BmpHeader) (px : Z) :
  lookup path (files w) = Some data ->
  fix_bmp stem_of path w = (inr (p, h, px), w') ->
  exists h0 out,
    header data = inr h0 /\ lookup p (files w') = Some out /\
    dib_size h = 40 /\ (8 < bpp h -> offset h = 54) /\
    bpp h = bpp h0 /\ 8 <= bpp h /\
    file_size h = Z.of_nat (length out) /\
    u32 out 2 = inr (Z.of_nat (length out)) /\
    px = Z.of_nat (length out) - offset h /\ hdr_wf h.
Proof.
  intros Hl Hf.
  destruct (fix_bmp_ok_inv _ _ _ _ _ _ _ _ Hl Hf)
    as (h0 & s & s' & w1 & Hc & Ht & -> & -> & -> & ->).
  pose proof (corrections_corrected _ _ _ Hc) as C.
  pose proof (truncate_facts _ _ _ _ (cor_wf _ _ _ C) (cor_sync _ _ _ C) Ht)
    as (F1 & F2 & F3 & F4 & F5 & F6 & F7).
  pose proof (cor_wf _ _ _ C) as (_ & _ & _ & _ & _ & Hb).
  exists h0, (buf s'). split; [exact (cor_parse _ _ _ C)|].
  split; [apply finish_lookup|]. split.
  { change (get_field DibSize (hdr s') = 40).
    rewrite F3 by discriminate. exact (cor_dib_size _ _ _ C). }
  split.
  { intros H8. change (get_field Offset (hdr s') = 54). rewrite F3 by discriminate.
    cbn [get_field]. rewrite (cor_offset _ _ _ C).
    rewrite F4, (cor_bpp _ _ _ C) in H8.
    replace (8 <? bpp h0) with true by (symmetry; apply Z.ltb_lt; lia).
    cbn [andb]. destruct (offset h0 =? 54) eqn:E; cbn [negb]; [|reflexivity].
    now apply Z.eqb_eq in E. }
  split; [rewrite F4; exact (cor_bpp _ _ _ C)|]. split.
  { rewrite F4. pose proof (cor_bpp_bytes _ _ _ C) as Hbb.
    destruct (Z.lt_ge_cases (bpp (hdr s)) 8) as [Hlt|Hge]; [|exact Hge].
    exfalso. apply Hbb. apply Z.div_small. lia. }
  assert (Hfs : file_size (hdr s') = Z.of_nat (length (buf s'))).
  { apply F5. rewrite (cor_file_size _ _ _ C), (cor_length _ _ _ C). reflexivity. }
  split; [exact Hfs|]. split.
  { apply truncate_inv in Ht.
    destruct Ht as [(_ & _ & b' & Hp & ->)|[(_ & -> & _)|(_ & -> & _)]].
    - cbn [buf]. unfold p32 in Hp. rewrite (pack_into_length _ _ _ _ _ Hp).
      exact (unpack_pack_same _ _ _ _ _ Hp).
    - pose proof (cor_sync _ _ _ C) as Hh. apply header_inv in Hh.
      destruct Hh as (H2 & _). rewrite H2. f_equal. exact Hfs.
    - pose proof (cor_sync _ _ _ C) as Hh. apply header_inv in Hh.
      destruct Hh as (H2 & _). rewrite H2. f_equal. exact Hfs. }
  split; [reflexivity|exact F6].
Qed.

(** X8.  [fix] writes the shorter of the input and of what the returned
    header accounts for: the written length is
    [min(len(input), expected)], and the truncation warning is printed
    exactly when the input is shorter than [expected]. *)
Theorem written_length (path : string) (w w' : world) (data : bytes)
        (p : string) (h : BmpHeader) (px : Z) :
  lookup path (files w) = Some data ->
  fix_bmp stem_of path w = (inr (p, h, px), w') ->
  exists out,
    lookup p (files w') = Some out /\
    Z.of_nat (length out) = Z.min (Z.of_nat (length data)) (expected h) /\
    (In truncation_warning (printed w w') <-> Z.of_nat (length data) < expected h).
Proof.
  intros Hl Hf.
  destruct (fix_bmp_outcome _ _ _ _ _ _ _ _ Hl Hf)
    as (h0 & s & out & warn & Hc & R & -> & Hfs & _ & Hp & _).
  pose proof (corrections_corrected _ _ _ Hc) as C.
  pose proof (rep_length _ _ _ _ R) as HL. rewrite (cor_length _ _ _ C) in HL.
  pose proof (rep_fit _ _ _ _ R) as Hfit.
  exists out. rewrite Hfs, lookup_head. split; [reflexivity|]. rewrite Hp.
  destruct warn; cbn [app] in *.
  - destruct Hfit as (Hlt & -> & ->). rewrite (cor_length _ _ _ C) in *.
    split; [lia|]. split; [intros _; exact Hlt|intros _; now left].
  - split; [lia|]. split.
    + intros H. exfalso. exact (report_quiet _ _ _ H).
    + intros H. lia.
Qed.

(** X9.  [fix] cannot fail on a file that starts with [BM], parses, has a
    depth of eight or more and is at least as long as its pixel offset
    (54 above eight bits, the stored offset otherwise, and at least six):
    it returns, with a pixel-byte count that is not negative. *)
Theorem fix_total (path : string) (w : world) (data : bytes) (h0 : BmpHeader) :
  lookup path (files w) = Some data ->
  firstn 2 data = BM -> header data = inr h0 -> 8 <= bpp h0 ->
  Z.of_nat (length data) < 2 ^ 32 ->
  6 <= pixel_offset h0 <= Z.of_nat (length data) ->
  exists p h px w',
    fix_bmp stem_of path w = (inr (p, h, px), w') /\
    offset h = pixel_offset h0 /\ 0 <= px.
Proof.
  intros Hl Hs Hh Hb Hlen Hoff.
  assert (H30 : (30 <= length data)%nat) by (apply header_ok_iff; eauto).
  destruct (corrections_split _ _ Hs Hh Hlen) as (s3 & Hc & L3 & O3 & _ & _ & B3 & W3).
  assert (Hbb : 0 < bpp h0 / 8) by (apply Z.div_str_pos; lia).
  replace (bpp h0 / 8 =? 0) with false in Hc by (symmetry; apply Z.eqb_neq; lia).
  destruct (fix_width_total (bpp h0 / 8) s3) as [s4 E4];
    [exact W3|exact Hbb|unfold bytes_px; lia|lia|lia|].
  pose proof (fix_width_updates _ _ _ E4) as U4.
  pose proof (updates_length _ _ _ U4) as L4.
  pose proof (updates_other _ Offset _ _ U4 ltac:(discriminate)) as O4. cbn [get_field] in O4.
  destruct (fix_height_total s4) as [s5 E5];
    [exact (updates_wf _ _ _ U4 W3)|unfold bytes_px; lia|lia|lia|].
  rewrite E4 in Hc. cbn [rbind] in Hc. rewrite E5 in Hc. cbn [rbind] in Hc.
  pose proof (corrections_corrected _ _ _ Hc) as C.
  pose proof (expected_nonneg _ (cor_wf _ _ _ C)) as He.
  assert (O5 : offset (hdr s5) = pixel_offset h0).
  { pose proof (updates_other _ Offset _ _ (fix_height_updates _ _ E5) ltac:(discriminate)) as O5.
    cbn [get_field] in O5. lia. }
  assert (Hge : pixel_offset h0 <= expected (hdr s5)).
  { unfold expected. rewrite O5.
    pose proof (cor_wf _ _ _ C) as (_ & _ & _ & Hw & _ & Hbp).
    pose proof (row_nonneg (width (hdr s5)) (bpp (hdr s5)) ltac:(lia) ltac:(lia)).
    pose proof (Z.abs_nonneg (height (hdr s5))). nia. }
  assert (Hok : exists s' w1, truncate s5 w = (inr s', w1)).
  { destruct (Z.lt_trichotomy (Z.of_nat (length (buf s5))) (expected (hdr s5)))
      as [Hlt|[Heq|Hgt]].
    - rewrite (truncate_short _ _ Hlt). eauto.
    - rewrite (truncate_fit _ _ Heq). eauto.
    - destruct (truncate_long s5 w (cor_wf _ _ _ C) ltac:(lia) ltac:(lia)
                  ltac:(rewrite (cor_length _ _ _ C); lia)) as (b' & _ & ->). eauto. }
  destruct Hok as (s' & w1 & Ht).
  assert (Hf : fix_bmp stem_of path w
               = (inr ((stem_of path ++ "_fix.bmp")%string, hdr s', bytes_px s'),
                  finish (stem_of path ++ "_fix.bmp") h0 s' w1))
    by (rewrite fix_bmp_run, Hl, Hc, Ht; reflexivity).
  do 4 eexists. split; [exact Hf|].
  destruct (fix_bmp_outcome _ _ _ _ _ _ _ _ Hl Hf)
    as (h1 & s & out & warn & Hc' & R & _ & _ & _ & _ & Hpx).
  assert (s = s5) as -> by congruence.
  pose proof (rep_fields _ _ _ _ R Offset ltac:(discriminate)) as Ho. cbn [get_field] in Ho.
  split; [lia|]. rewrite Hpx.
  pose proof (rep_fit _ _ _ _ R) as Hfit. destruct warn.
  - destruct Hfit as (_ & -> & _). rewrite (cor_length _ _ _ C). lia.
  - unfold expected in Hfit.
    pose proof (rep_wf _ _ _ _ R) as (_ & _ & _ & Hw & _ & Hbp).
    pose proof (row_nonneg (width (hdr s')) (bpp (hdr s')) ltac:(lia) ltac:(lia)).
    pose proof (Z.abs_nonneg (height (hdr s'))). nia.
Qed.

End RepairMore.

(** ** A negative pixel-byte count *)

Lemma p32_negative (b : bytes) (o : nat) (v : Z) :
  (o + 4 <= length b)%nat -> v < 0 -> p32 b o v = inl (StructError PackRange).
Proof.
  intros Hl Hv. unfold p32, pack_into.
  replace (o + 4 <=? length b)%nat with true by (symmetry; apply Nat.leb_le; lia).
  replace (0 <=? v) with false by (symmetry; apply Z.leb_gt; lia).
  reflexivity.
Qed.

Lemma width_fires_dec (h : BmpHeader) (px : Z) :
  width_fires h px \/ ~ width_fires h px.
Proof.
  unfold width_fires.
  destruct (Z.eq_dec (height h) 0); [right; tauto|].
  destruct (Z.eq_dec (px mod height h) 0); [|right; tauto].
  destruct (Z.eq_dec ((px / height h) mod 4) 0); [left; tauto|right; tauto].
Qed.

Lemma fix_width_skip (bb : Z) (s : state) :
  ~ width_fires (hdr s) (bytes_px s) -> fix_width bb s = inr s.
Proof.
  intros H. unfold fix_width.
  destruct (height (hdr s) =? 0) eqn:E0; cbn [negb andb]; [reflexivity|].
  destruct (bytes_px s mod height (hdr s) =? 0) eqn:E1; [|reflexivity].
  destruct (bytes_px s / height (hdr s) mod 4 =? 0) eqn:E2; [|reflexivity].
  exfalso. apply H. apply Z.eqb_neq in E0. apply Z.eqb_eq in E1, E2.
  unfold width_fires. auto.
Qed.

Lemma fix_width_negative (bb : Z) (s : state) :
  hdr_wf (hdr s) -> 0 < bb -> bytes_px s < 0 -> (22 <= length (buf s))%nat ->
  width_fires (hdr s) (bytes_px s) ->
  fix_width bb s = inl (StructError PackRange).
Proof.
  intros (_ & _ & _ & Hw & Hh & _) Hbb Hpx Hl (H0 & H1 & H2). unfold fix_width.
  apply Z.eqb_neq in H0. apply Z.eqb_eq in H1, H2. rewrite H0, H1, H2.
  cbn [negb andb]. apply Z.eqb_neq in H0.
  assert (Hq : bytes_px s / height (hdr s) < 0)
    by (apply Z.div_lt_upper_bound; lia).
  assert (Hv : bytes_px s / height (hdr s) / bb < 0)
    by (apply Z.div_lt_upper_bound; lia).
  replace (bytes_px s / height (hdr s) / bb =? 0) with false
    by (symmetry; apply Z.eqb_neq; lia).
  replace (bytes_px s / height (hdr s) / bb =? width (hdr s)) with false
    by (symmetry; apply Z.eqb_neq; lia).
  cbn [negb andb]. now rewrite p32_negative by lia.
Qed.

Lemma fix_height_skip (s : state) :
  ~ height_fires (hdr s) (bytes_px s) -> fix_height s = inr s.
Proof.
  intros H. unfold fix_height.
  destruct (row (width (hdr s)) (bpp (hdr s)) =? 0) eqn:E0; cbn [negb andb]; [reflexivity|].
  destruct (bytes_px s mod row (width (hdr s)) (bpp (hdr s)) =? 0) eqn:E1; [|reflexivity].
  exfalso. apply H. apply Z.eqb_neq in E0. apply Z.eqb_eq in E1.
  unfold height_fires. auto.
Qed.

Lemma fix_height_negative (s : state) :
  hdr_wf (hdr s) -> bytes_px s < 0 -> (26 <= length (buf s))%nat ->
  height_fires (hdr s) (bytes_px s) ->
  fix_height s = inl (StructError PackRange).
Proof.
  intros (_ & _ & _ & Hw & Hh & Hb) Hpx Hl (H0 & H1). unfold fix_height.
  pose proof (row_nonneg (width (hdr s)) (bpp (hdr s)) ltac:(lia) ltac:(lia)) as Hr.
  apply Z.eqb_neq in H0. apply Z.eqb_eq in H1. rewrite H0, H1.
  cbn [negb andb]. apply Z.eqb_neq in H0.
  assert (Hq : bytes_px s / row (width (hdr s)) (bpp (hdr s)) < 0)
    by (apply Z.div_lt_upper_bound; lia).
  replace (bytes_px s / row (width (hdr s)) (bpp (hdr s)) =? 0) with false
    by (symmetry; apply Z.eqb_neq; lia).
  replace (bytes_px s / row (width (hdr s)) (bpp (hdr s)) =? height (hdr s)) with false
    by (symmetry; apply Z.eqb_neq; lia).
  cbn [negb andb]. now rewrite p32_negative by lia.
Qed.

Section ShortOfOffset.

Variable stem_of : string -> string.

(** X10.  On a file shorter than its pixel offset the pixel-byte count is
    negative, and [fix] never ends quietly.  If that count passes the
    divisibility tests of the width inference or of the height inference,
    the inferred dimension is negative and [p32] raises [struct.error];
    nothing is written.  Otherwise [fix] returns width and height as parsed,
    writes a file as long as the input and prints the truncation
    warning. *)
Theorem shorter_than_pixel_offset (path : string) (w : world) (data : bytes)
        (h0 : BmpHeader) :
  lookup path (files w) = Some data ->
  firstn 2 data = BM -> header data = inr h0 -> 8 <= bpp h0 ->
  Z.of_nat (length data) < pixel_offset h0 ->
  (width_fires h0 (Z.of_nat (length data) - pixel_offset h0) \/
   height_fires h0 (Z.of_nat (length data) - pixel_offset h0) ->
   fix_bmp stem_of path w = (inl (StructError PackRange), w)) /\
  (~ width_fires h0 (Z.of_nat (length data) - pixel_offset h0) ->
   ~ height_fires h0 (Z.of_nat (length data) - pixel_offset h0) ->
   exists h out w',
     fix_bmp stem_of path w
       = (inr ((stem_of path ++ "_fix.bmp")%string, h,
               Z.of_nat (length data) - pixel_offset h0), w') /\
     width h = width h0 /\ height h = height h0 /\
     files w' = ((stem_of path ++ "_fix.bmp")%string, out) :: files w /\
     length out = length data /\
     In truncation_warning (printed w w')).
Proof.
  intros Hl Hs Hh Hb Hlt.
  assert (H30 : (30 <= length data)%nat) by (apply header_ok_iff; eauto).
  pose proof (header_wf _ _ Hh) as W0.
  assert (Hlen : Z.of_nat (length data) < 2 ^ 32).
  { unfold pixel_offset in Hlt. destruct W0 as (_ & Ho & _).
    destruct (8 <? bpp h0); lia. }
  destruct (corrections_split _ _ Hs Hh Hlen) as (s3 & Hc & L3 & O3 & Wd3 & Ht3 & B3 & W3).
  assert (Hbb : 0 < bpp h0 / 8) by (apply Z.div_str_pos; lia).
  replace (bpp h0 / 8 =? 0) with false in Hc by (symmetry; apply Z.eqb_neq; lia).
  assert (Hpx : bytes_px s3 = Z.of_nat (length data) - pixel_offset h0)
    by (unfold bytes_px; rewrite L3, O3; reflexivity).
  assert (Fw : width_fires (hdr s3) (bytes_px s3)
               <-> width_fires h0 (Z.of_nat (length data) - pixel_offset h0))
    by (unfold width_fires; rewrite Hpx, Ht3; reflexivity).
  assert (Fh : height_fires (hdr s3) (bytes_px s3)
               <-> height_fires h0 (Z.of_nat (length data) - pixel_offset h0))
    by (unfold height_fires; rewrite Hpx, Wd3, B3; reflexivity).
  split.
  - intros Hfire. rewrite fix_bmp_run, Hl.
    destruct (width_fires_dec (hdr s3) (bytes_px s3)) as [Hw|Hw].
    + rewrite (fix_width_negative _ s3 W3 Hbb ltac:(lia) ltac:(lia) Hw) in Hc.
      cbn [rbind] in Hc. now rewrite Hc.
    + rewrite (fix_width_skip _ s3 Hw) in Hc. cbn [rbind] in Hc.
      assert (Hh' : height_fires (hdr s3) (bytes_px s3)) by tauto.
      rewrite (fix_height_negative s3 W3 ltac:(lia) ltac:(lia) Hh') in Hc.
      cbn [rbind] in Hc. now rewrite Hc.
  - intros Hnw Hnh.
    rewrite (fix_width_skip _ s3 ltac:(tauto)) in Hc. cbn [rbind] in Hc.
    rewrite (fix_height_skip s3 ltac:(tauto)) in Hc. cbn [rbind] in Hc.
    assert (Hexp : Z.of_nat (length (buf s3)) < expected (hdr s3)).
    { unfold expected. rewrite O3, L3.
      destruct W3 as (_ & _ & _ & Hw & _ & Hbp).
      pose proof (row_nonneg (width (hdr s3)) (bpp (hdr s3)) ltac:(lia) ltac:(lia)).
      pose proof (Z.abs_nonneg (height (hdr s3))). nia. }
    destruct (fix_bmp_short stem_of _ _ _ _ _ Hl Hc Hexp) as (w' & Hf & Hfs & Hp).
    exists (hdr s3), (buf s3), w'. rewrite Hpx in Hf.
    split; [exact Hf|]. split; [exact Wd3|]. split; [exact Ht3|].
    split; [exact Hfs|]. split; [exact L3|]. rewrite Hp. now left.
Qed.

(** X11.  When the pixel bytes of the corrected buffer are a whole,
    non-zero number of rows of the corrected width, the height returned is
    that number of rows, and [fix] neither truncates nor warns: it writes
    the corrected buffer, as long as the input. *)
Theorem whole_rows_kept (path : string) (w : world) (data : bytes)
        (h0 : BmpHeader) (s : state) :
  lookup path (files w) = Some data ->
  corrections data = inr (h0, s) ->
  height_fires (hdr s) (bytes_px s) -> bytes_px s <> 0 ->
  height (hdr s) = bytes_px s / row (width (hdr s)) (bpp (hdr s)) /\
  exists w',
    fix_bmp stem_of path w
      = (inr ((stem_of path ++ "_fix.bmp")%string, hdr s, bytes_px s), w') /\
    files w' = ((stem_of path ++ "_fix.bmp")%string, buf s) :: files w /\
    length (buf s) = length data /\
    ~ In truncation_warning (printed w w').
Proof.
  intros Hl Hc (Hr & Hm) Hpx.
  pose proof (corrections_corrected _ _ _ Hc) as C.
  pose proof Hc as Hi. apply corrections_inv in Hi.
  destruct Hi as (_ & _ & s1 & s2 & s3 & s4 & _ & _ & _ & _ & _ & E5).
  pose proof (fix_height_updates _ _ E5) as U5.
  pose proof (updates_other _ Width _ _ U5 ltac:(discriminate)) as Hw.
  pose proof (updates_other _ Offset _ _ U5 ltac:(discriminate)) as Ho.
  pose proof (updates_bpp _ _ _ U5) as Hb.
  pose proof (updates_length _ _ _ U5) as HL.
  cbn [get_field] in Hw, Ho.
  assert (Hpx4 : bytes_px s4 = bytes_px s) by (unfold bytes_px; rewrite HL, Ho; reflexivity).
  assert (Hq : bytes_px s / row (width (hdr s)) (bpp (hdr s)) <> 0).
  { intros Hq. pose proof (Z.div_mod (bytes_px s) _ Hr). lia. }
  destruct (fix_height_post s4 s E5) as (Hh & _).
  { rewrite <- Hw, <- Hb. exact Hr. }
  { rewrite Hpx4, <- Hw, <- Hb. exact Hm. }
  { rewrite Hpx4, <- Hw, <- Hb. exact Hq. }
  rewrite Hpx4, <- Hw, <- Hb in Hh.
  split; [exact Hh|].
  assert (Hfit : Z.of_nat (length (buf s)) = expected (hdr s)).
  { unfold expected. pose proof (cor_wf _ _ _ C) as (_ & _ & _ & _ & Hhh & _).
    rewrite Z.abs_eq by lia. rewrite Hh.
    pose proof (Z.div_mod (bytes_px s) _ Hr). unfold bytes_px in *. lia. }
  rewrite fix_bmp_run, Hl, Hc, (truncate_fit _ _ Hfit).
  eexists. split; [reflexivity|]. split; [reflexivity|].
  split; [exact (cor_length _ _ _ C)|].
  rewrite (finish_printed _ _ _ w w []) by (now rewrite app_nil_r).
  apply report_quiet.
Qed.

End ShortOfOffset.

(** The invariants on the repaired ambiguity-free sample. *)
Lemma repaired_header_invariants_witness :
  exists h0 out,
    header sample_trailing = inr h0 /\
    lookup "img_fix.bmp"
      (files (snd (fix_bmp sample_stem "img.bmp" (disk sample_trailing)))) = Some out /\
    dib_size (mkHeader 70 54 40 2 2 24) = 40 /\
    (8 < bpp (mkHeader 70 54 40 2 2 24) -> offset (mkHeader 70 54 40 2 2 24) = 54) /\
    bpp (mkHeader 70 54 40 2 2 24) = bpp h0 /\ 8 <= bpp (mkHeader 70 54 40 2 2 24) /\
    file_size (mkHeader 70 54 40 2 2 24) = Z.of_nat (length out) /\
    u32 out 2 = inr (Z.of_nat (length out)) /\
    16 = Z.of_nat (length out) - offset (mkHeader 70 54 40 2 2 24) /\
    hdr_wf (mkHeader 70 54 40 2 2 24).
Proof.
  apply (repaired_header_invariants sample_stem "img.bmp" (disk sample_trailing)
           (snd (fix_bmp sample_stem "img.bmp" (disk sample_trailing)))
           sample_trailing "img_fix.bmp" (mkHeader 70 54 40 2 2 24) 16).
  - reflexivity.
  - vm_compute. reflexivity.
Defined.

Lemma written_length_witness :
  exists out,
    lookup "img_fix.bmp"
      (files (snd (fix_bmp sample_stem "img.bmp" (disk sample_trailing)))) = Some out /\
    Z.of_nat (length out)
      = Z.min (Z.of_nat (length sample_trailing)) (expected (mkHeader 70 54 40 2 2 24)) /\
    (In truncation_warning
        (printed (disk sample_trailing)
           (snd (fix_bmp sample_stem "img.bmp" (disk sample_trailing))))
     <-> Z.of_nat (length sample_trailing) < expected (mkHeader 70 54 40 2 2 24)).
Proof.
  apply (written_length sample_stem "img.bmp" (disk sample_trailing)
           (snd (fix_bmp sample_stem "img.bmp" (disk sample_trailing)))
           sample_trailing "img_fix.bmp" (mkHeader 70 54 40 2 2 24) 16).
  - reflexivity.
  - vm_compute. reflexivity.
Defined.

Lemma fix_total_witness :
  exists p h px w',
    fix_bmp sample_stem "img.bmp" (disk sample_short) = (inr (p, h, px), w') /\
    offset h = pixel_offset (mkHeader 0 54 40 1 1 24) /\ 0 <= px.
Proof.
  apply (fix_total sample_stem "img.bmp" (disk sample_short) sample_short
           (mkHeader 0 54 40 1 1 24)).
  - reflexivity.
  - reflexivity.
  - vm_compute. reflexivity.
  - vm_compute. discriminate.
  - vm_compute. reflexivity.
  - vm_compute. split; discriminate.
Defined.

Lemma shorter_than_pixel_offset_witness :
  (width_fires (mkHeader 0 54 40 1 1 24)
     (Z.of_nat (length sample_cut) - pixel_offset (mkHeader 0 54 40 1 1 24)) \/
   height_fires (mkHeader 0 54 40 1 1 24)
     (Z.of_nat (length sample_cut) - pixel_offset (mkHeader 0 54 40 1 1 24)) ->
   fix_bmp sample_stem "img.bmp" (disk sample_cut)
     = (inl (StructError PackRange), disk sample_cut)) /\
  (~ width_fires (mkHeader 0 54 40 1 1 24)
       (Z.of_nat (length sample_cut) - pixel_offset (mkHeader 0 54 40 1 1 24)) ->
   ~ height_fires (mkHeader 0 54 40 1 1 24)
       (Z.of_nat (length sample_cut) - pixel_offset (mkHeader 0 54 40 1 1 24)) ->
   exists h out w',
     fix_bmp sample_stem "img.bmp" (disk sample_cut)
       = (inr ((sample_stem "img.bmp" ++ "_fix.bmp")%string, h,
               Z.of_nat (length sample_cut) - pixel_offset (mkHeader 0 54 40 1 1 24)), w') /\
     width h = width (mkHeader 0 54 40 1 1 24) /\
     height h = height (mkHeader 0 54 40 1 1 24) /\
     files w' = ((sample_stem "img.bmp" ++ "_fix.bmp")%string, out)
                  :: files (disk sample_cut) /\
     length out = length sample_cut /\
     In truncation_warning (printed (disk sample_cut) w')).
Proof.
  apply (shorter_than_pixel_offset sample_stem "img.bmp" (disk sample_cut) sample_cut
           (mkHeader 0 54 40 1 1 24)).
  - reflexivity.
  - reflexivity.
  - vm_compute. reflexivity.
  - vm_compute. discriminate.
  - vm_compute. reflexivity.
Defined.

Lemma whole_rows_kept_witness :
  height (mkHeader 70 54 40 2 2 24) = 16 / row 2 24 /\
  exists w',
    fix_bmp sample_stem "img.bmp" (disk sample_wrong_height)
      = (inr ("img_fix.bmp"%string, mkHeader 70 54 40 2 2 24, 16), w') /\
    files w' = ("img_fix.bmp"%string, sample_tight) :: files (disk sample_wrong_height) /\
    length sample_tight = length sample_wrong_height /\
    ~ In truncation_warning (printed (disk sample_wrong_height) w').
Proof.
  apply (whole_rows_kept sample_stem "img.bmp" (disk sample_wrong_height)
           sample_wrong_height (mkHeader 70 54 40 2 5 24)
           (mkState sample_tight (mkHeader 70 54 40 2 2 24) true)).
  - reflexivity.
  - vm_compute. reflexivity.
  - vm_compute. split; [discriminate|reflexivity].
  - vm_compute. discriminate.
Defined.

(** * Further properties: the variant generator and [main] *)

Section MainMore.

Variable stem_of : string -> string.

(** X12.  With [--info], [main] prints the header of any file of thirty
    bytes or more, whatever its first two bytes, and stops: no file is
    written, no directory made, whether or not [--brute] is given. *)
Theorem main_info_only_prints (bmp : string) (brute : bool) (w : world) (data : bytes) :
  lookup bmp (files w) = Some data -> (30 <= length data)%nat ->
  exists h w',
    header data = inr h /\
    main stem_of bmp brute true w = (inr tt, w') /\
    files w' = files w /\ dirs w' = dirs w /\
    printed w w' = header_lines h "BMP header".
Proof.
  intros Hl H30. destruct (proj2 (header_ok_iff data) H30) as [h Hh].
  exists h. eexists. split; [exact Hh|].
  unfold main. unfold bind at 1. unfold read_bytes at 1. rewrite Hl.
  unfold bind at 1. unfold lift at 1. rewrite Hh.
  unfold bind at 1. rewrite print_header_run. unfold ret.
  split; [reflexivity|]. split; [reflexivity|]. split; [reflexivity|].
  now apply printed_app.
Qed.

(** X13.  [main] parses the header before [fix] tests the signature: on a
    file shorter than thirty bytes it ends in the [struct.error] of the
    short read, with nothing printed or written, whatever the flags and
    whatever the first two bytes; [fix] alone reports a wrong signature on
    such a file as [ValueError]. *)
Theorem main_short_file (bmp : string) (brute info : bool) (w : world) (data : bytes) :
  lookup bmp (files w) = Some data -> (length data < 30)%nat ->
  main stem_of bmp brute info w = (inl (StructError UnpackShort), w) /\
  (firstn 2 data <> BM ->
   fix_bmp stem_of bmp w = (inl (ValueError "Not a BMP file"), w)) /\
  (firstn 2 data = BM ->
   fix_bmp stem_of bmp w = (inl (StructError UnpackShort), w)).
Proof.
  intros Hl Hlt. split; [|split].
  - unfold main. unfold bind at 1. unfold read_bytes at 1. rewrite Hl.
    unfold bind at 1. unfold lift at 1. now rewrite (header_short _ Hlt).
  - intros Hs. now rewrite fix_bmp_run, Hl, (corrections_bad_signature _ Hs).
  - intros Hs. now rewrite fix_bmp_run, Hl, (corrections_short _ Hs Hlt).
Qed.

End MainMore.

Lemma main_info_only_prints_witness :
  exists h w',
    header sample_tiny = inr h /\
    main sample_stem "img.bmp" true true (disk sample_tiny) = (inr tt, w') /\
    files w' = files (disk sample_tiny) /\ dirs w' = dirs (disk sample_tiny) /\
    printed (disk sample_tiny) w' = header_lines h "BMP header".
Proof.
  apply (main_info_only_prints sample_stem "img.bmp" true (disk sample_tiny) sample_tiny).
  - reflexivity.
  - vm_compute. lia.
Defined.

Lemma main_short_file_witness :
  main sample_stem "img.bmp" true false (disk [x00; x01])
    = (inl (StructError UnpackShort), disk [x00; x01]) /\
  (firstn 2 [x00; x01] <> BM ->
   fix_bmp sample_stem "img.bmp" (disk [x00; x01])
     = (inl (ValueError "Not a BMP file"), disk [x00; x01])) /\
  (firstn 2 [x00; x01] = BM ->
   fix_bmp sample_stem "img.bmp" (disk [x00; x01])
     = (inl (StructError UnpackShort), disk [x00; x01])).
Proof.
  apply (main_short_file sample_stem "img.bmp" true false (disk [x00; x01]) [x00; x01]).
  - reflexivity.
  - vm_compute. lia.
Defined.

Section VariantsMore.

Variable stem_of : string -> string.

(** X14.  [brute_variants] only adds files: a run that raises nothing
    leaves every earlier file as it was and writes at most two new ones;
    each of them has the length of the file at [fix_path], holds that
    length in its size field, and agrees with that file at every byte
    outside the size, width and height fields. *)
Theorem variants_frame (fp : string) (hdr : BmpHeader) (px : Z) (w w' : world)
        (nb : bytes) :
  lookup fp (files w) = Some nb ->
  brute_variants stem_of fp hdr px w = (inr tt, w') ->
  exists new,
    files w' = new ++ files w /\ (length new <= 2)%nat /\
    forall q d, In (q, d) new ->
      length d = length nb /\
      u32 d 2 = inr (Z.of_nat (length nb)) /\
      (forall i, (i < 2 \/ 6 <= i < 18 \/ 26 <= i)%nat ->
                 nth_error d i = nth_error nb i).
Proof.
  intros Hl Hb. apply brute_variants_inv in Hb.
  destruct Hb as (wh & ww & Hh & Hw & Hfiles).
  exists (ww ++ wh). rewrite <- app_assoc. split; [exact Hfiles|].
  assert (Gh : forall q d, In (q, d) wh ->
             length d = length nb /\ u32 d 2 = inr (Z.of_nat (length nb)) /\
             (forall i, (i < 2 \/ 6 <= i < 22 \/ 26 <= i)%nat ->
                        nth_error d i = nth_error nb i)).
  { destruct Hh as [->|(hv & nb0 & nbh & _ & L0 & Vh & ->)]; [intros q d []|].
    assert (nb0 = nb) as -> by congruence.
    intros q d [[= <- <-]|[]].
    destruct (variant_of_fields Height hv nb nbh ltac:(discriminate) Vh)
      as (F1 & _ & F3 & F4).
    split; [exact F1|]. split; [exact F3|].
    intros i Hi. apply F4; cbn [field_off]; lia. }
  assert (Hlw : (length wh <= 1)%nat).
  { destruct Hh as [->|(hv & nb0 & nbh & _ & _ & _ & ->)]; cbn; lia. }
  split.
  { rewrite length_app.
    destruct Hw as [->|(wv & nb' & nbw & _ & _ & _ & ->)]; cbn; lia. }
  intros q d Hin. apply in_app_or in Hin. destruct Hin as [Hin|Hin].
  - destruct Hw as [->|(wv & nb' & nbw & _ & L' & Vw & ->)]; [destruct Hin|].
    destruct Hin as [[= <- <-]|[]].
    destruct (variant_of_fields Width wv nb' nbw ltac:(discriminate) Vw)
      as (F1 & _ & F3 & F4).
    assert (Hnb' : length nb' = length nb /\
                   (forall i, (i < 2 \/ 6 <= i < 22 \/ 26 <= i)%nat ->
                              nth_error nb' i = nth_error nb i)).
    { destruct wh as [|[hp nbh] wh'].
      - cbn [app] in L'. assert (nb' = nb) as -> by congruence. auto.
      - cbn [app] in L'. rewrite lookup_cons in L'.
        destruct (String.eqb fp hp).
        + injection L' as <-.
          destruct (Gh hp nbh ltac:(now left)) as (G1 & _ & G3). auto.
        + assert (Hin' : lookup fp (wh' ++ files w) = Some nb') by exact L'.
          assert (wh' = []) as -> by (destruct wh'; [reflexivity|cbn in Hlw; lia]).
          cbn [app] in Hin'. assert (nb' = nb) as -> by congruence. auto. }
    destruct Hnb' as (N1 & N2).
    split; [congruence|]. split; [rewrite F3, N1; reflexivity|].
    intros i Hi. rewrite F4 by (cbn [field_off]; lia). apply N2. lia.
  - destruct (Gh q d Hin) as (G1 & G2 & G3).
    split; [exact G1|]. split; [exact G2|]. intros i Hi. apply G3. lia.
Qed.

(** X15.  The variants do not compound: when both are written and the
    height variant's path is not [fix_path] itself, each variant is made
    from the file at [fix_path]; the height variant differs from it in the
    size and height fields only and keeps its width, the width variant in
    the size and width fields only and keeps its height. *)
Theorem variants_are_independent (fp : string) (hdr : BmpHeader) (px : Z)
        (w w' : world) (nb : bytes) (pw ph : string) (nbw nbh : bytes) :
  lookup fp (files w) = Some nb ->
  brute_variants stem_of fp hdr px w = (inr tt, w') ->
  files w' = (pw, nbw) :: (ph, nbh) :: files w ->
  fp <> ph ->
  u32 nbh 18 = u32 nb 18 /\ u32 nbw 22 = u32 nb 22 /\
  (forall i, (i < 2 \/ 6 <= i < 22 \/ 26 <= i)%nat ->
             nth_error nbh i = nth_error nb i) /\
  (forall i, (i < 2 \/ 6 <= i < 18 \/ 22 <= i)%nat ->
             nth_error nbw i = nth_error nb i).
Proof.
  intros Hl Hb Hf Hne. apply brute_variants_inv in Hb.
  destruct Hb as (wh & ww & Hh & Hw & Hfiles). rewrite Hfiles in Hf.
  destruct Hh as [->|(hv & nb0 & nbh' & Gh & Lh & Vh & ->)];
    destruct Hw as [->|(wv & nb' & nbw' & Gw & Lw & Vw & ->)]; cbn [app] in Hf.
  - exfalso. apply (f_equal (@length _)) in Hf. cbn in Hf. lia.
  - exfalso. injection Hf as _ _ Hf. exact (no_self_cons _ _ Hf).
  - exfalso. injection Hf as _ _ Hf. exact (no_self_cons _ _ Hf).
  - injection Hf as <- <- <- <-.
    assert (nb0 = nb) as -> by congruence.
    cbn [app] in Lw. rewrite lookup_cons in Lw.
    replace (String.eqb fp (variant_path (stem_of fp) "_h" hv)) with false in Lw
      by (symmetry; apply String.eqb_neq; exact Hne).
    assert (nb' = nb) as -> by congruence.
    destruct Vh as (h1 & Ph1 & Ph2). destruct Vw as (w1 & Pw1 & Pw2).
    unfold u32, p32 in *. cbn [field_off] in *.
    split.
    { rewrite (unpack_pack_other _ _ _ _ _ _ _ Ph2) by lia.
      apply (unpack_pack_other _ _ _ _ _ _ _ Ph1). lia. }
    split.
    { rewrite (unpack_pack_other _ _ _ _ _ _ _ Pw2) by lia.
      apply (unpack_pack_other _ _ _ _ _ _ _ Pw1). lia. }
    split.
    { intros i Hi. rewrite (pack_into_nth_other _ _ _ _ _ _ Ph2) by lia.
      apply (pack_into_nth_other _ _ _ _ _ _ Ph1). lia. }
    intros i Hi. rewrite (pack_into_nth_other _ _ _ _ _ _ Pw2) by lia.
    apply (pack_into_nth_other _ _ _ _ _ _ Pw1). lia.
Qed.


End VariantsMore.

Lemma variants_frame_witness :
  exists new,
    files (snd (brute_variants sample_stem "img_fix.bmp" (mkHeader 102 54 40 3 4 8) 48
                  (mkWorld [("img_fix.bmp"%string, sample_ambiguous)] [] [])))
      = new ++ [("img_fix.bmp"%string, sample_ambiguous)] /\
    (length new <= 2)%nat /\
    forall q d, In (q, d) new ->
      length d = length sample_ambiguous /\
      u32 d 2 = inr (Z.of_nat (length sample_ambiguous)) /\
      (forall i, (i < 2 \/ 6 <= i < 18 \/ 26 <= i)%nat ->
                 nth_error d i = nth_error sample_ambiguous i).
Proof.
  apply (variants_frame sample_stem "img_fix.bmp" (mkHeader 102 54 40 3 4 8) 48
           (mkWorld [("img_fix.bmp"%string, sample_ambiguous)] [] [])
           (snd (brute_variants sample_stem "img_fix.bmp" (mkHeader 102 54 40 3 4 8) 48
                   (mkWorld [("img_fix.bmp"%string, sample_ambiguous)] [] [])))
           sample_ambiguous).
  - reflexivity.
  - vm_compute. reflexivity.
Defined.

Lemma variants_are_independent_witness :
  u32 (bmp_file 102 54 40 3 12 8 72) 18 = u32 sample_ambiguous 18 /\
  u32 (bmp_file 102 54 40 12 4 8 72) 22 = u32 sample_ambiguous 22 /\
  (forall i, (i < 2 \/ 6 <= i < 22 \/ 26 <= i)%nat ->
             nth_error (bmp_file 102 54 40 3 12 8 72) i = nth_error sample_ambiguous i) /\
  (forall i, (i < 2 \/ 6 <= i < 18 \/ 22 <= i)%nat ->
             nth_error (bmp_file 102 54 40 12 4 8 72) i = nth_error sample_ambiguous i).
Proof.
  apply (variants_are_independent sample_stem "img_fix.bmp" (mkHeader 102 54 40 3 4 8) 48
           (mkWorld [("img_fix.bmp"%string, sample_ambiguous)] [] [])
           (snd (brute_variants sample_stem "img_fix.bmp" (mkHeader 102 54 40 3 4 8) 48
                   (mkWorld [("img_fix.bmp"%string, sample_ambiguous)] [] [])))
           sample_ambiguous
           "variants/img_fix_w12.bmp" "variants/img_fix_h12.bmp"
           (bmp_file 102 54 40 12 4 8 72) (bmp_file 102 54 40 3 12 8 72)).
  - reflexivity.
  - vm_compute. reflexivity.
  - vm_compute. reflexivity.
  - discriminate.
Defined.


(** * Further properties: [fix] followed by [brute_variants] *)

(** After the corrections, a pixel-byte count that is a whole, non-zero
    number of rows is the height times the row. *)
Lemma corrections_height_settled (data : bytes) (h0 : BmpHeader) (s : state) :
  corrections data = inr (h0, s) ->
  height_fires (hdr s) (bytes_px s) -> bytes_px s <> 0 ->
  height (hdr s) = bytes_px s / row (width (hdr s)) (bpp (hdr s)).
Proof.
  intros Hc (Hr & Hm) Hpx. apply corrections_inv in Hc.
  destruct Hc as (_ & _ & s1 & s2 & s3 & s4 & _ & _ & _ & _ & _ & E5).
  pose proof (fix_height_updates _ _ E5) as U5.
  pose proof (updates_other _ Width _ _ U5 ltac:(discriminate)) as Hw.
  pose proof (updates_other _ Offset _ _ U5 ltac:(discriminate)) as Ho.
  pose proof (updates_bpp _ _ _ U5) as Hb.
  pose proof (updates_length _ _ _ U5) as HL.
  cbn [get_field] in Hw, Ho.
  assert (Hpx4 : bytes_px s4 = bytes_px s) by (unfold bytes_px; rewrite HL, Ho; reflexivity).
  assert (Hq : bytes_px s / row (width (hdr s)) (bpp (hdr s)) <> 0).
  { intros Hq. pose proof (Z.div_mod (bytes_px s) _ Hr). lia. }
  destruct (fix_height_post s4 s E5) as (Hh & _).
  { rewrite <- Hw, <- Hb. exact Hr. }
  { rewrite Hpx4, <- Hw, <- Hb. exact Hm. }
  { rewrite Hpx4, <- Hw, <- Hb. exact Hq. }
  rewrite Hpx4, <- Hw, <- Hb in Hh. exact Hh.
Qed.

Section RunMore.

Variable stem_of : string -> string.

(** X17.  From what [fix] returns, [brute_variants] writes a height
    variant only when there are no pixel bytes: with a pixel-byte count
    other than zero, the height that the height block computes is the
    repaired height, and a run of [brute_variants] writes nothing or the
    width variant alone. *)
Theorem height_variant_only_without_pixels (path : string) (w w1 : world)
        (data : bytes) (p : string) (h : BmpHeader) (px : Z) :
  lookup path (files w) = Some data ->
  fix_bmp stem_of path w = (inr (p, h, px), w1) ->
  px <> 0 ->
  (forall hv, ~ height_guess h px hv) /\
  (forall w2, brute_variants stem_of p h px w1 = (inr tt, w2) ->
     files w2 = files w1 \/
     exists wv nbw, width_guess h px wv /\
       files w2 = (variant_path (stem_of p) "_w" wv, nbw) :: files w1).
Proof.
  intros Hl Hf Hpx.
  assert (Hno : forall hv, ~ height_guess h px hv).
  { destruct (fix_bmp_ok_inv _ _ _ _ _ _ _ _ Hl Hf)
      as (h0 & s & s' & w0 & Hc & Ht & -> & -> & -> & ->).
    pose proof (corrections_corrected _ _ _ Hc) as C.
    pose proof (expected_nonneg _ (cor_wf _ _ _ C)) as He.
    intros hv (Hr & Hm & -> & Hne).
    apply truncate_inv in Ht.
    destruct Ht as [(Hgt & _ & b' & Hp & ->)|[(_ & -> & _)|(_ & -> & _)]].
    - cbn [hdr buf set_file_size width height bpp offset] in *.
      unfold bytes_px in *. cbn [hdr buf set_file_size offset] in *.
      unfold p32 in Hp. rewrite (pack_into_length _ _ _ _ _ Hp) in *.
      rewrite slice_to_length in Hne by lia.
      pose proof (cor_wf _ _ _ C) as (_ & _ & _ & _ & Hh & _).
      apply Hne. unfold expected. rewrite Z.abs_eq by lia.
      replace (offset (hdr s) + row (width (hdr s)) (bpp (hdr s)) * height (hdr s)
               - offset (hdr s))
        with (height (hdr s) * row (width (hdr s)) (bpp (hdr s))) by lia.
      apply Z.div_mul. exact Hr.
    - apply Hne. symmetry.
      apply (corrections_height_settled _ _ _ Hc); [split; assumption|exact Hpx].
    - apply Hne. symmetry.
      apply (corrections_height_settled _ _ _ Hc); [split; assumption|exact Hpx]. }
  split; [exact Hno|].
  intros w2 Hb. apply brute_variants_inv in Hb.
  destruct Hb as (wh & ww & Hh & Hw & Hfiles).
  destruct Hh as [->|(hv & _ & _ & Gh & _)]; [|exfalso; exact (Hno hv Gh)].
  destruct Hw as [->|(wv & nb' & nbw & Gw & _ & _ & ->)].
  - left. exact Hfiles.
  - right. exists wv, nbw. split; [exact Gw|exact Hfiles].
Qed.





End RunMore.

Lemma height_variant_only_without_pixels_witness :
  (forall hv, ~ height_guess (mkHeader 70 54 40 2 2 24) 16 hv) /\
  (forall w2,
     brute_variants sample_stem "img_fix.bmp" (mkHeader 70 54 40 2 2 24) 16
       (snd (fix_bmp sample_stem "img.bmp" (disk sample_trailing))) = (inr tt, w2) ->
     files w2 = files (snd (fix_bmp sample_stem "img.bmp" (disk sample_trailing))) \/
     exists wv nbw, width_guess (mkHeader 70 54 40 2 2 24) 16 wv /\
       files w2 = (variant_path (sample_stem "img_fix.bmp") "_w" wv, nbw)
                    :: files (snd (fix_bmp sample_stem "img.bmp" (disk sample_trailing)))).
Proof.
  apply (height_variant_only_without_pixels sample_stem "img.bmp" (disk sample_trailing)
           (snd (fix_bmp sample_stem "img.bmp" (disk sample_trailing)))
           sample_trailing "img_fix.bmp" (mkHeader 70 54 40 2 2 24) 16).
  - reflexivity.
  - vm_compute. reflexivity.
  - discriminate.
Defined.


(** * Further properties: what a repair achieves *)

(** With at most four bytes per pixel, the width inferred from a padded
    row has that row as its stride. *)
Lemma row_of_inferred_width (r bpp : Z) :
  0 < bpp / 8 <= 4 -> r mod 4 = 0 -> row (r / (bpp / 8)) bpp = r.
Proof.
  intros Hbb H4. unfold row. set (bb := bpp / 8) in *.
  pose proof (Z.div_mod r bb ltac:(lia)). pose proof (Z.mod_pos_bound r bb ltac:(lia)).
  pose proof (Z.div_mod r 4 ltac:(lia)).
  pose proof (Z.div_mod (r / bb * bb + 3) 4 ltac:(lia)).
  pose proof (Z.mod_pos_bound (r / bb * bb + 3) 4 ltac:(lia)).
  lia.
Qed.

Lemma firstn_2_same (a b : bytes) :
  nth_error a 0 = nth_error b 0 -> nth_error a 1 = nth_error b 1 ->
  firstn 2 a = firstn 2 b.
Proof.
  intros H0 H1. apply nth_error_ext. intros [|[|i]]; rewrite !nth_error_firstn.
  - exact H0.
  - exact H1.
  - reflexivity.
Qed.

Section Achieved.

Variable stem_of : string -> string.

(** X19.  Width recovery.  Let the file start with [BM], hold between one
    and four bytes per pixel, and have a height that divides the pixel
    bytes into rows of a multiple of four bytes.  Then [fix] keeps the
    height, returns the width [(px // height) // (bpp // 8)] whatever
    width was stored, and writes a file as long as the input, without a
    warning; the returned header accounts for every pixel byte. *)
Theorem width_recovered (path : string) (w : world) (data : bytes) (h0 : BmpHeader) :
  lookup path (files w) = Some data ->
  firstn 2 data = BM -> header data = inr h0 ->
  0 < bpp h0 / 8 <= 4 ->
  Z.of_nat (length data) < 2 ^ 32 ->
  0 < Z.of_nat (length data) - pixel_offset h0 ->
  width_fires h0 (Z.of_nat (length data) - pixel_offset h0) ->
  exists h out w',
    fix_bmp stem_of path w
      = (inr ((stem_of path ++ "_fix.bmp")%string, h,
              Z.of_nat (length data) - pixel_offset h0), w') /\
    width h = (Z.of_nat (length data) - pixel_offset h0) / height h0 / (bpp h0 / 8) /\
    height h = height h0 /\
    row (width h) (bpp h) * height h = Z.of_nat (length data) - pixel_offset h0 /\
    files w' = ((stem_of path ++ "_fix.bmp")%string, out) :: files w /\
    length out = length data /\
    ~ In truncation_warning (printed w w').
Proof.
  intros Hl Hs Hh Hbb Hlen Hpos (Hh0 & Hm & H4).
  set (px := Z.of_nat (length data) - pixel_offset h0) in *.
  assert (H30 : (30 <= length data)%nat) by (apply header_ok_iff; eauto).
  pose proof (header_wf _ _ Hh) as W0.
  destruct (corrections_split _ _ Hs Hh Hlen) as (s3 & Hc & L3 & O3 & Wd3 & Ht3 & B3 & W3).
  replace (bpp h0 / 8 =? 0) with false in Hc by (symmetry; apply Z.eqb_neq; lia).
  assert (Hpx3 : bytes_px s3 = px) by (unfold bytes_px, px; rewrite L3, O3; reflexivity).
  assert (Hhpos : 0 < height h0) by (destruct W0 as (_ & _ & _ & _ & Hx & _); lia).
  set (r := px / height h0) in *.
  assert (Hpr : px = height h0 * r).
  { pose proof (Z.div_mod px (height h0) Hh0). fold r in H. lia. }
  assert (Hr0 : 0 < r) by nia.
  assert (Hr4 : 4 <= r).
  { pose proof (Z.div_mod r 4 ltac:(lia)). lia. }
  assert (Hrpx : r <= px) by nia.
  assert (Hpxle : px <= Z.of_nat (length data)).
  { unfold px, pixel_offset. destruct W0 as (_ & Ho & _).
    destruct (8 <? bpp h0); lia. }
  set (wv := r / (bpp h0 / 8)) in *.
  assert (Hwv : 1 <= wv <= r).
  { split; [apply Z.div_le_lower_bound; lia|].
    apply Z.div_le_upper_bound; [lia|]. nia. }
  assert (E4 : exists s4, fix_width (bpp h0 / 8) s3 = inr s4 /\
             width (hdr s4) = wv /\ height (hdr s4) = height h0 /\
             bpp (hdr s4) = bpp h0 /\ offset (hdr s4) = pixel_offset h0 /\
             length (buf s4) = length data /\ hdr_wf (hdr s4)).
  { unfold fix_width. rewrite Hpx3, Ht3, Wd3. fold r. fold wv.
    replace (height h0 =? 0) with false by (symmetry; apply Z.eqb_neq; lia).
    apply Z.eqb_eq in Hm, H4. rewrite Hm, H4. cbn [negb andb].
    replace (wv =? 0) with false by (symmetry; apply Z.eqb_neq; lia).
    cbn [negb andb].
    destruct (wv =? width h0) eqn:E; cbn [negb].
    - apply Z.eqb_eq in E. exists s3.
      split; [reflexivity|]. split; [lia|]. split; [exact Ht3|].
      split; [exact B3|]. split; [exact O3|]. split; [exact L3|exact W3].
    - destruct (p32_total (buf s3) 18 wv) as [b' Hp]; [lia|lia|].
      rewrite Hp. cbn [rbind]. eexists. split; [reflexivity|].
      cbn [hdr buf set_width width height bpp offset].
      split; [reflexivity|]. split; [exact Ht3|]. split; [exact B3|].
      split; [exact O3|]. split.
      { unfold p32 in Hp. rewrite (pack_into_length _ _ _ _ _ Hp). exact L3. }
      apply (updates_wf Width s3 (mkState b' (set_width wv (hdr s3)) true)); [|exact W3].
      apply (upd_write Width s3 _ wv b'); [exact Hp|reflexivity]. }
  destruct E4 as (s4 & E4 & Wd4 & Ht4 & B4 & O4 & L4 & W4).
  assert (Hrow : row (width (hdr s4)) (bpp (hdr s4)) = r).
  { rewrite Wd4, B4. apply row_of_inferred_width; [exact Hbb|].
    apply Z.eqb_eq. apply Z.eqb_eq in H4. exact H4. }
  assert (Hstride : row (width (hdr s4)) (bpp (hdr s4)) * Z.abs (height (hdr s4))
                    = bytes_px s4).
  { rewrite Hrow, Ht4, Z.abs_eq by lia. unfold bytes_px. rewrite L4, O4. fold px. lia. }
  rewrite E4 in Hc. cbn [rbind] in Hc.
  rewrite (fix_height_stable s4 W4 Hstride) in Hc. cbn [rbind] in Hc.
  assert (Hfit : Z.of_nat (length (buf s4)) = expected (hdr s4)).
  { unfold expected. unfold bytes_px in Hstride. lia. }
  exists (hdr s4), (buf s4). eexists.
  rewrite fix_bmp_run, Hl, Hc, (truncate_fit _ _ Hfit).
  split.
  { unfold bytes_px. rewrite L4, O4. reflexivity. }
  split; [exact Wd4|]. split; [exact Ht4|]. split.
  { rewrite Hrow, Ht4. lia. }
  split; [reflexivity|]. split; [exact L4|].
  rewrite (finish_printed _ _ _ w w []) by (now rewrite app_nil_r).
  apply report_quiet.
Qed.

(** X20.  A repaired file is a fixed point of [fix] when the repair
    printed no warning, kept the thirty header bytes and returned a width
    that fills its row (or a zero width or height): running [fix] on the
    file it wrote returns the same header and pixel-byte count and writes
    the same bytes again, without a warning. *)
Theorem repaired_is_fixed_point (path : string) (w w1 : world) (data out : bytes)
        (p : string) (h : BmpHeader) (px : Z) :
  lookup path (files w) = Some data ->
  fix_bmp stem_of path w = (inr (p, h, px), w1) ->
  ~ In truncation_warning (printed w w1) ->
  lookup p (files w1) = Some out -> (30 <= length out)%nat ->
  height h = 0 \/ width h = 0 \/ row (width h) (bpp h) / (bpp h / 8) = width h ->
  exists w2,
    fix_bmp stem_of p w1 = (inr ((stem_of p ++ "_fix.bmp")%string, h, px), w2) /\
    files w2 = ((stem_of p ++ "_fix.bmp")%string, out) :: files w1 /\
    ~ In truncation_warning (printed w1 w2).
Proof.
  intros Hl Hf Hq Hlo H30 Htight.
  destruct (fix_bmp_outcome _ _ _ _ _ _ _ _ Hl Hf)
    as (h0 & s & out' & warn & Hc & R & Hp & Hfs & _ & Hpr & Hpx).
  assert (out' = out) as -> by (rewrite Hfs, lookup_head in Hlo; congruence).
  destruct warn; [exfalso; apply Hq; rewrite Hpr; now left|].
  pose proof (corrections_corrected _ _ _ Hc) as C.
  pose proof (rep_fit _ _ _ _ R) as Hfit. cbn in Hfit.
  pose proof (rep_wf _ _ _ _ R) as Wh.
  assert (Hsig : firstn 2 out = BM).
  { pose proof (cor_sig _ _ _ C) as Hs. apply signature_test in Hs. rewrite <- Hs.
    apply firstn_2_same.
    - rewrite (rep_frame _ _ _ _ R 0%nat) by lia. exact (cor_frame _ _ _ C 0%nat eq_refl).
    - rewrite (rep_frame _ _ _ _ R 1%nat) by lia. exact (cor_frame _ _ _ C 1%nat eq_refl). }
  assert (Hhd : header out = inr h) by (exact (rep_sync _ _ _ _ R H30)).
  assert (Hb8 : 8 <= bpp h).
  { rewrite (rep_bpp _ _ _ _ R). pose proof (cor_bpp_bytes _ _ _ C) as Hbb.
    pose proof (cor_wf _ _ _ C) as (_ & _ & _ & _ & _ & Hb).
    destruct (Z.lt_ge_cases (bpp (hdr s)) 8) as [Hlt|Hge]; [|exact Hge].
    exfalso. apply Hbb. apply Z.div_small. lia. }
  assert (Hcons : consistent out h).
  { unfold consistent. split.
    { intros H8. change (get_field Offset h = 54).
      rewrite (rep_fields _ _ _ _ R Offset) by discriminate. cbn [get_field].
      rewrite (cor_offset _ _ _ C).
      rewrite (rep_bpp _ _ _ _ R), (cor_bpp _ _ _ C) in H8.
      replace (8 <? bpp h0) with true by (symmetry; apply Z.ltb_lt; lia).
      cbn [andb]. destruct (offset h0 =? 54) eqn:E; cbn [negb]; [|reflexivity].
      now apply Z.eqb_eq in E. }
    split.
    { change (get_field DibSize h = 40).
      rewrite (rep_fields _ _ _ _ R DibSize) by discriminate.
      exact (cor_dib_size _ _ _ C). }
    split; [exact (rep_file_size _ _ _ _ R)|].
    unfold expected in Hfit. lia. }
  pose proof (corrections_fixpoint _ _ Hsig Hhd Hcons Hb8 Htight) as Hfix.
  rewrite fix_bmp_run, Hlo, Hfix, truncate_fit by (cbn [buf hdr]; exact Hfit).
  eexists. split.
  { unfold bytes_px. cbn [buf hdr]. rewrite Hpx. reflexivity. }
  split; [reflexivity|].
  rewrite (finish_printed _ _ _ w1 w1 []) by (now rewrite app_nil_r).
  apply report_quiet.
Qed.

(** X21.  [fix] never writes the depth: every byte that the written file
    still has outside the size, offset, DIB-size, width and height fields
    is the input's, in particular the reserved bytes 6 to 9 and the bytes
    26 to 29 of planes and depth, and the depth field reads as before. *)
Theorem depth_never_written (path : string) (w w' : world) (data : bytes)
        (p : string) (h : BmpHeader) (px : Z) :
  lookup path (files w) = Some data ->
  fix_bmp stem_of path w = (inr (p, h, px), w') ->
  exists out,
    lookup p (files w') = Some out /\
    (forall i, (i < length out)%nat -> in_written i = false ->
               nth_error out i = nth_error data i) /\
    (forall i, (i < length out)%nat -> (6 <= i < 10 \/ 26 <= i < 30)%nat ->
               nth_error out i = nth_error data i) /\
    ((30 <= length out)%nat -> u16 out 28 = u16 data 28).
Proof.
  intros Hl Hf.
  destruct (fix_bmp_outcome _ _ _ _ _ _ _ _ Hl Hf)
    as (h0 & s & out & warn & Hc & R & -> & Hfs & _ & _ & _).
  pose proof (corrections_corrected _ _ _ Hc) as C.
  assert (Fr : forall i, (i < length out)%nat -> in_written i = false ->
                         nth_error out i = nth_error data i).
  { intros i Hi Hn.
    rewrite (rep_frame _ _ _ _ R i Hi) by (exact (in_written_out FileSize i Hn)).
    exact (cor_frame _ _ _ C i Hn). }
  exists out. rewrite Hfs, lookup_head. split; [reflexivity|].
  split; [exact Fr|]. split.
  - intros i Hi Hr. apply Fr; [exact Hi|].
    unfold in_written. destruct Hr as [Hr|Hr].
    + replace (i <? 6)%nat with false by (symmetry; apply Nat.ltb_ge; lia).
      replace (10 <=? i)%nat with false by (symmetry; apply Nat.leb_gt; lia).
      now rewrite andb_false_r.
    + now apply past_fields_written.
  - intros H30. pose proof (rep_sync _ _ _ _ R H30) as Hho.
    apply header_inv in Hho. destruct Hho as (_ & _ & _ & _ & _ & Hb).
    pose proof (cor_parse _ _ _ C) as Hhd. apply header_inv in Hhd.
    destruct Hhd as (_ & _ & _ & _ & _ & Hb0).
    rewrite Hb, Hb0, (rep_bpp _ _ _ _ R), (cor_bpp _ _ _ C). reflexivity.
Qed.

End Achieved.

Lemma width_recovered_witness :
  exists h out w',
    fix_bmp sample_stem "img.bmp" (disk sample_wrong_width)
      = (inr ((sample_stem "img.bmp" ++ "_fix.bmp")%string, h,
              Z.of_nat (length sample_wrong_width)
                - pixel_offset (mkHeader 70 54 40 7 2 24)), w') /\
    width h = (Z.of_nat (length sample_wrong_width)
                 - pixel_offset (mkHeader 70 54 40 7 2 24))
              / height (mkHeader 70 54 40 7 2 24) / (bpp (mkHeader 70 54 40 7 2 24) / 8) /\
    height h = height (mkHeader 70 54 40 7 2 24) /\
    row (width h) (bpp h) * height h
      = Z.of_nat (length sample_wrong_width) - pixel_offset (mkHeader 70 54 40 7 2 24) /\
    files w' = ((sample_stem "img.bmp" ++ "_fix.bmp")%string, out)
                 :: files (disk sample_wrong_width) /\
    length out = length sample_wrong_width /\
    ~ In truncation_warning (printed (disk sample_wrong_width) w').
Proof.
  apply (width_recovered sample_stem "img.bmp" (disk sample_wrong_width)
           sample_wrong_width (mkHeader 70 54 40 7 2 24)).
  - reflexivity.
  - reflexivity.
  - vm_compute. reflexivity.
  - vm_compute. split; [reflexivity|discriminate].
  - vm_compute. reflexivity.
  - vm_compute. reflexivity.
  - vm_compute. repeat split. discriminate.
Defined.

Lemma repaired_is_fixed_point_witness :
  exists w2,
    fix_bmp sample_stem "img_fix.bmp"
      (snd (fix_bmp sample_stem "img.bmp" (disk sample_trailing)))
      = (inr ((sample_stem "img_fix.bmp" ++ "_fix.bmp")%string,
              mkHeader 70 54 40 2 2 24, 16), w2) /\
    files w2 = ((sample_stem "img_fix.bmp" ++ "_fix.bmp")%string, sample_tight)
                 :: files (snd (fix_bmp sample_stem "img.bmp" (disk sample_trailing))) /\
    ~ In truncation_warning
        (printed (snd (fix_bmp sample_stem "img.bmp" (disk sample_trailing))) w2).
Proof.
  apply (repaired_is_fixed_point sample_stem "img.bmp" (disk sample_trailing)
           (snd (fix_bmp sample_stem "img.bmp" (disk sample_trailing)))
           sample_trailing sample_tight "img_fix.bmp" (mkHeader 70 54 40 2 2 24) 16).
  - reflexivity.
  - vm_compute. reflexivity.
  - vm_compute. intros H.
    repeat (destruct H as [H|H]; [discriminate H|]). exact H.
  - vm_compute. reflexivity.
  - vm_compute. lia.
  - right; right. vm_compute. reflexivity.
Defined.

Lemma depth_never_written_witness :
  exists out,
    lookup "img_fix.bmp"
      (files (snd (fix_bmp sample_stem "img.bmp" (disk sample_trailing)))) = Some out /\
    (forall i, (i < length out)%nat -> in_written i = false ->
               nth_error out i = nth_error sample_trailing i) /\
    (forall i, (i < length out)%nat -> (6 <= i < 10 \/ 26 <= i < 30)%nat ->
               nth_error out i = nth_error sample_trailing i) /\
    ((30 <= length out)%nat -> u16 out 28 = u16 sample_trailing 28).
Proof.
  apply (depth_never_written sample_stem "img.bmp" (disk sample_trailing)
           (snd (fix_bmp sample_stem "img.bmp" (disk sample_trailing)))
           sample_trailing "img_fix.bmp" (mkHeader 70 54 40 2 2 24) 16).
  - reflexivity.
  - vm_compute. reflexivity.
Defined.
